(** * Entitlement and subscription reconciliation: promo-code redemption,
      payment webhook processing and the reminder scheduler.

    A shallow embedding of the TypeScript sources
      models/PromoCode.ts, models/User.ts, models/Progress.ts,
      middleware/auth.ts, middleware/errorHandler.ts, services/logger.ts,
      routes/promoCode.ts, routes/subscription.ts, routes/auth.ts,
      routes/progress.ts, services/notificationService.ts
    followed by the properties established about them.

    Conventions of the embedding.
    - A JavaScript [Date] is its time value: milliseconds since the epoch,
      an integer ([Z]).  Counters are integers as well.
    - A Mongo collection is a finite map from the document key to the
      document; a Mongoose document loaded by a request is a private copy.
    - Asynchronous handlers are written in a state-and-exception monad over
      the [World]: the collections, the cache, the trace of emitted log
      records and push messages, and the system clock.
    - What the external providers answer (Stripe, Firebase) is an input of
      the handler that calls them. *)

From Stdlib Require Import ZArith Bool List Ascii String Lia.
From stdpp Require Import base option list gmap strings pretty relations.

Local Open Scope string_scope.
Local Open Scope list_scope.
Local Open Scope Z_scope.

#[local] Set Warnings "-register-all".

(* ===================================================================== *)
(** * JavaScript dates *)
(* ===================================================================== *)

(** The fragment of ECMAScript's Date arithmetic used by the sources:
    [getMonth]/[setMonth], [getFullYear]/[setFullYear], [getDate]/[setDate]
    and [setHours], all of which work on local time.  The calendar is the
    proleptic Gregorian one; the conversion between day numbers and civil
    dates is the closed form over 400-year eras.  Local time is UTC shifted
    by a constant offset [LocalTZA] (no daylight saving). *)
Module JSDate.

Abbreviation Date := Z.

Definition msPerDay : Z := 86400000.

Definition Day (t : Z) : Z := t / msPerDay.
Definition TimeWithinDay (t : Z) : Z := t mod msPerDay.

(** Days of an era (400 years, starting on March 1st) before the day
    [date] of month [month] (1..12) of year-of-era [yoe]. *)
Definition DayOfEra (yoe month date : Z) : Z :=
  let mp := (month + 9) mod 12 in
  let doy := (153 * mp + 2) / 5 + date - 1 in
  yoe * 365 + yoe / 4 - yoe / 100 + doy.

(** Day number (days since 1970-01-01) of a civil date, [month] in 1..12. *)
Definition DayFromCivil (year month date : Z) : Z :=
  let y := if month <=? 2 then year - 1 else year in
  (y / 400) * 146097 + DayOfEra (y mod 400) month date - 719468.

(** Year-of-era, month (1..12) and day of month of a day of an era. *)
Definition CivilOfEra (doe : Z) : Z * Z * Z :=
  let yoe := (doe - doe / 1460 + doe / 36524 - doe / 146096) / 365 in
  let doy := doe - (365 * yoe + yoe / 4 - yoe / 100) in
  let mp := (5 * doy + 2) / 153 in
  let d := doy - (153 * mp + 2) / 5 + 1 in
  let m := if mp <? 10 then mp + 3 else mp - 9 in
  (yoe, m, d).

(** Civil date (year, month 1..12, day of month) of a day number. *)
Definition CivilFromDay (day : Z) : Z * Z * Z :=
  let z := day + 719468 in
  let '(yoe, m, d) := CivilOfEra (z mod 146097) in
  (yoe + (z / 146097) * 400 + (if m <=? 2 then 1 else 0), m, d).

Definition YearFromTime (t : Z) : Z := (CivilFromDay (Day t)).1.1.
(** Months are numbered from 0 (January) to 11 (December). *)
Definition MonthFromTime (t : Z) : Z := (CivilFromDay (Day t)).1.2 - 1.
Definition DateFromTime (t : Z) : Z := (CivilFromDay (Day t)).2.

Definition InLeapYear (year : Z) : bool :=
  ((year mod 4 =? 0) && negb (year mod 100 =? 0)) || (year mod 400 =? 0).

(** Number of days of month [month] (0..11) of [year]. *)
Definition DaysInMonth (year month : Z) : Z :=
  if month =? 1 then (if InLeapYear year then 29 else 28)
  else if (month =? 3) || (month =? 5) || (month =? 8) || (month =? 10)
       then 30 else 31.

(** [MakeDay year month date]: the month may lie outside 0..11 and the
    date outside the month; both carry over. *)
Definition MakeDay (year month date : Z) : Z :=
  let ym := year + month / 12 in
  let mn := month mod 12 in
  DayFromCivil ym (mn + 1) 1 + date - 1.

Definition MakeTime (hour min sec ms : Z) : Z :=
  hour * 3600000 + min * 60000 + sec * 1000 + ms.

Definition MakeDate (day time : Z) : Z := day * msPerDay + time.

Section Local.
Variable LocalTZA : Z.

Definition LocalTime (t : Z) : Z := t + LocalTZA.
Definition UTC (t : Z) : Z := t - LocalTZA.

Definition getFullYear (t : Date) : Z := YearFromTime (LocalTime t).
Definition getMonth (t : Date) : Z := MonthFromTime (LocalTime t).
Definition getDate (t : Date) : Z := DateFromTime (LocalTime t).

Definition setMonth (t : Date) (month : Z) : Date :=
  let lt := LocalTime t in
  UTC (MakeDate (MakeDay (YearFromTime lt) month (DateFromTime lt))
                (TimeWithinDay lt)).

Definition setFullYear (t : Date) (year : Z) : Date :=
  let lt := LocalTime t in
  UTC (MakeDate (MakeDay year (MonthFromTime lt) (DateFromTime lt))
                (TimeWithinDay lt)).

Definition setDate (t : Date) (date : Z) : Date :=
  let lt := LocalTime t in
  UTC (MakeDate (MakeDay (YearFromTime lt) (MonthFromTime lt) date)
                (TimeWithinDay lt)).

Definition setHours (t : Date) (hour min sec ms : Z) : Date :=
  let lt := LocalTime t in
  UTC (MakeDate (Day lt) (MakeTime hour min sec ms)).
End Local.

Fixpoint zeros (n : nat) : string :=
  match n with
  | O => ""
  | S n => "0" +:+ zeros n
  end.

(** [String(n).padStart(width, '0')] *)
Definition pad (width : nat) (n : Z) : string :=
  let s := pretty n in
  zeros (width - String.length s) +:+ s.

(** [toISOString()], for the years 0000 to 9999 (outside them JavaScript
    writes a sign and six digits). *)
Definition toISOString (t : Date) : string :=
  let '(y, m, d) := CivilFromDay (Day t) in
  let time := TimeWithinDay t in
  pad 4 y +:+ "-" +:+ pad 2 m +:+ "-" +:+ pad 2 d +:+ "T"
  +:+ pad 2 (time / 3600000) +:+ ":" +:+ pad 2 (time / 60000 mod 60) +:+ ":"
  +:+ pad 2 (time / 1000 mod 60) +:+ "." +:+ pad 3 (time mod 1000) +:+ "Z".

(** [new Date('2099-12-31')]: a date-only ISO string is read as UTC
    midnight. *)
Definition ofISODate (year month date : Z) : Date :=
  MakeDate (DayFromCivil year month date) 0.

End JSDate.

(* ===================================================================== *)
(** * Values shared by the models *)
(* ===================================================================== *)

Abbreviation Date := Z.

(** A Mongo [ObjectId], written as its 24 hexadecimal digits. *)
Abbreviation ObjectId := string.

(** JSON values of response bodies and log payloads.  A [Date] inside a
    body is kept as its time value. *)
Inductive Json :=
| JNull
| JBool (b : bool)
| JNum (n : Z)
| JStr (s : string)
| JDate (d : Date)
| JArr (items : list Json)
| JObj (fields : list (string * Json)).

Definition JOpt {A} (f : A → Json) (o : option A) : Json :=
  match o with Some a => f a | None => JNull end.

(** ASCII case conversion, enough for promo codes ([A-Z0-9_-]) and for
    hexadecimal ids. *)
Definition upperAscii (c : ascii) : ascii :=
  let n := nat_of_ascii c in
  if ((97 <=? n) && (n <=? 122))%nat then ascii_of_nat (n - 32) else c.

Definition lowerAscii (c : ascii) : ascii :=
  let n := nat_of_ascii c in
  if ((65 <=? n) && (n <=? 90))%nat then ascii_of_nat (n + 32) else c.

Fixpoint mapString (f : ascii → ascii) (s : string) : string :=
  match s with
  | EmptyString => EmptyString
  | String c rest => String (f c) (mapString f rest)
  end.

Definition toUpperCase : string → string := mapString upperAscii.
Definition toLowerCase : string → string := mapString lowerAscii.

Definition isHexDigit (c : ascii) : bool :=
  let n := nat_of_ascii c in
  (((48 <=? n) && (n <=? 57)) || ((65 <=? n) && (n <=? 70))
   || ((97 <=? n) && (n <=? 102)))%nat.

Fixpoint allChars (p : ascii → bool) (s : string) : bool :=
  match s with
  | EmptyString => true
  | String c rest => p c && allChars p rest
  end.

(** [isValidObjectId] of middleware/validation.ts:
    [/^[0-9a-fA-F]{24}$/.test(id)]. *)
Definition isValidObjectId (id : string) : bool :=
  (String.length id =? 24)%nat && allChars isHexDigit id.

(** Casting a string to an [ObjectId]; [None] is Mongoose's [CastError]. *)
Definition castObjectId (id : string) : option ObjectId :=
  if isValidObjectId id then Some (toLowerCase id) else None.

(** JavaScript truthiness of a string. *)
Definition truthy (s : string) : bool := negb (String.eqb s "").

(** [`${n}`] for an integer. *)
Definition numberToString (n : Z) : string := pretty n.

(* ===================================================================== *)
(** * models/PromoCode.ts *)
(* ===================================================================== *)

Module PromoCode.

Inductive PromoType :=
| free_month | free_year | lifetime | discount_percent | discount_amount.

#[global] Instance PromoType_eq_dec : EqDecision PromoType.
Proof. solve_decision. Defined.

Definition typeName (ty : PromoType) : string :=
  match ty with
  | free_month => "free_month"
  | free_year => "free_year"
  | lifetime => "lifetime"
  | discount_percent => "discount_percent"
  | discount_amount => "discount_amount"
  end.

(** [IPromoCode].  [usageLimit = None] is unlimited, [validUntil = None]
    is no expiry.  The limit and the counter are integers, as the creation
    schema demands of the limit ([Joi.number().integer().min(1)]) and as
    [use] keeps the counter; a fractional limit, which the Mongoose schema
    would store, is outside the embedding. *)
Record t := mk {
  _id : ObjectId;
  code : string;
  type : PromoType;
  value : option Z;
  description : option string;
  isActive : bool;
  usageLimit : option Z;
  usedCount : Z;
  usedBy : list ObjectId;
  validFrom : option Date;
  validUntil : option Date;
  createdBy : ObjectId;
}.

Record Validation := { valid : bool; reason : option string }.

Definition invalid (why : string) : Validation :=
  {| valid := false; reason := Some why |}.

(** [usedBy.includes(userId)]: a Mongoose array compares ids by value. *)
Definition includes (userId : ObjectId) (ids : list ObjectId) : bool :=
  bool_decide (userId ∈ ids).

(** [PromoCodeSchema.methods.isValid]; [now] is its [new Date()]. *)
Definition isValid (now : Date) (this : t) (userId : option ObjectId)
  : Validation :=
  if negb (isActive this) then invalid "Promo code is not active"
  else if match validFrom this with
          | Some from => now <? from
          | None => false
          end
  then invalid "Promo code is not yet valid"
  else if match validUntil this with
          | Some until => until <? now
          | None => false
          end
  then invalid "Promo code has expired"
  else if match usageLimit this with
          | Some limit => negb (limit =? 0) && (limit <=? usedCount this)
          | None => false
          end
  then invalid "Promo code usage limit reached"
  else if match userId with
          | Some u => includes u (usedBy this)
          | None => false
          end
  then invalid "You have already used this promo code"
  else {| valid := true; reason := None |}.

(** The in-memory part of [PromoCodeSchema.methods.use]: validate, then
    [this.usedCount += 1; this.usedBy.push(userId)].  [inl] is the
    message of the thrown [Error]. *)
Definition use (now : Date) (this : t) (userId : ObjectId) : string + t :=
  let validation := isValid now this (Some userId) in
  if negb (valid validation) then inl (default "" (reason validation))
  else inr {| _id := _id this; code := code this; type := type this;
              value := value this; description := description this;
              isActive := isActive this; usageLimit := usageLimit this;
              usedCount := usedCount this + 1;
              usedBy := usedBy this ++ [userId];
              validFrom := validFrom this; validUntil := validUntil this;
              createdBy := createdBy this |}.

(** What [save()] sends for a document changed by [use]: the assigned
    counter as a [$set] and the pushed id as a [$push].  The stored
    document [stored] takes the counter of the local copy [this] and
    gets the id appended to its own array. *)
Definition applySave (this : t) (pushed : ObjectId) (stored : t) : t :=
  {| _id := _id stored; code := code stored; type := type stored;
     value := value stored; description := description stored;
     isActive := isActive stored; usageLimit := usageLimit stored;
     usedCount := usedCount this;
     usedBy := usedBy stored ++ [pushed];
     validFrom := validFrom stored; validUntil := validUntil stored;
     createdBy := createdBy stored |}.

Record DiscountInfo := {
  info_type : string;
  info_value : option Z;
  info_description : string;
}.

(** [PromoCodeSchema.methods.getDiscountInfo].  The description of a
    [discount_amount] code formats a decimal amount and is left out of
    the model. *)
Definition getDiscountInfo (this : t) : DiscountInfo :=
  match type this with
  | free_month =>
      {| info_type := "free_period"; info_value := Some 1;
         info_description := "One month free" |}
  | free_year =>
      {| info_type := "free_period"; info_value := Some 12;
         info_description := "One year free" |}
  | lifetime =>
      {| info_type := "lifetime"; info_value := None;
         info_description := "Lifetime access" |}
  | discount_percent =>
      {| info_type := "percent"; info_value := value this;
         info_description :=
           numberToString (default 0 (value this)) +:+ "% discount" |}
  | discount_amount =>
      {| info_type := "amount"; info_value := value this;
         info_description := "discount" |}
  end.

Definition discountJson (d : DiscountInfo) : Json :=
  JObj [("type", JStr (info_type d)); ("value", JOpt JNum (info_value d));
        ("description", JStr (info_description d))].

End PromoCode.

(* ===================================================================== *)
(** * models/User.ts and models/Progress.ts *)
(* ===================================================================== *)

Module User.

Inductive Status := free_trial | active | canceled | expired.
Inductive Plan := monthly | yearly.

#[global] Instance Status_eq_dec : EqDecision Status.
Proof. solve_decision. Defined.

Definition statusName (s : Status) : string :=
  match s with
  | free_trial => "free_trial"
  | active => "active"
  | canceled => "canceled"
  | expired => "expired"
  end.

Record Subscription := mkSubscription {
  status : Status;
  stripeCustomerId : option string;
  stripeSubscriptionId : option string;
  currentPeriodStart : option Date;
  currentPeriodEnd : option Date;
  trialEndsAt : option Date;
  canceledAt : option Date;
  plan : Plan;
}.

Record Settings := mkSettings {
  notificationsEnabled : bool;
  reminderTimes : list string;
}.

(** [IUser], without the display attributes and the [profile], [theme]
    and [units] preferences, which no modelled operation reads, and
    without Mongoose's bookkeeping fields [createdAt], [updatedAt] and
    [__v], which every write restamps.  Equality of two accounts below is
    equality of the fields listed here. *)
Record t := mk {
  _id : ObjectId;
  firebaseUid : string;
  email : string;
  fcmTokens : list string;
  subscription : Subscription;
  settings : Settings;
  isActive : bool;
  lastActiveAt : Date;
}.

Definition setSubscription (s : Subscription) (u : t) : t :=
  {| _id := _id u; firebaseUid := firebaseUid u; email := email u;
     fcmTokens := fcmTokens u; subscription := s; settings := settings u;
     isActive := isActive u; lastActiveAt := lastActiveAt u |}.

Definition setLastActiveAt (d : Date) (u : t) : t :=
  {| _id := _id u; firebaseUid := firebaseUid u; email := email u;
     fcmTokens := fcmTokens u; subscription := subscription u;
     settings := settings u; isActive := isActive u; lastActiveAt := d |}.

Definition setStatus (st : Status) (s : Subscription) : Subscription :=
  {| status := st; stripeCustomerId := stripeCustomerId s;
     stripeSubscriptionId := stripeSubscriptionId s;
     currentPeriodStart := currentPeriodStart s;
     currentPeriodEnd := currentPeriodEnd s;
     trialEndsAt := trialEndsAt s; canceledAt := canceledAt s;
     plan := plan s |}.

Definition setCurrentPeriodStart (d : option Date) (s : Subscription)
  : Subscription :=
  {| status := status s; stripeCustomerId := stripeCustomerId s;
     stripeSubscriptionId := stripeSubscriptionId s;
     currentPeriodStart := d;
     currentPeriodEnd := currentPeriodEnd s;
     trialEndsAt := trialEndsAt s; canceledAt := canceledAt s;
     plan := plan s |}.

Definition setCurrentPeriodEnd (d : option Date) (s : Subscription)
  : Subscription :=
  {| status := status s; stripeCustomerId := stripeCustomerId s;
     stripeSubscriptionId := stripeSubscriptionId s;
     currentPeriodStart := currentPeriodStart s;
     currentPeriodEnd := d;
     trialEndsAt := trialEndsAt s; canceledAt := canceledAt s;
     plan := plan s |}.

Definition setCanceledAt (d : option Date) (s : Subscription)
  : Subscription :=
  {| status := status s; stripeCustomerId := stripeCustomerId s;
     stripeSubscriptionId := stripeSubscriptionId s;
     currentPeriodStart := currentPeriodStart s;
     currentPeriodEnd := currentPeriodEnd s;
     trialEndsAt := trialEndsAt s; canceledAt := d;
     plan := plan s |}.

Definition subscriptionJson (s : Subscription) : Json :=
  JObj [("status", JStr (statusName (status s)));
        ("stripeCustomerId", JOpt JStr (stripeCustomerId s));
        ("stripeSubscriptionId", JOpt JStr (stripeSubscriptionId s));
        ("currentPeriodStart", JOpt JDate (currentPeriodStart s));
        ("currentPeriodEnd", JOpt JDate (currentPeriodEnd s));
        ("trialEndsAt", JOpt JDate (trialEndsAt s));
        ("canceledAt", JOpt JDate (canceledAt s));
        ("plan", JStr (match plan s with
                       | monthly => "monthly" | yearly => "yearly" end))].

End User.

Module Progress.
(** [IProgress]: the owner and the day of the entry; the measurements
    and photos are not read by the scheduler. *)
Record t := mk {
  userId : ObjectId;
  date : Date;
}.
End Progress.

(* ===================================================================== *)
(** * The world of a request: collections, traces, clock *)
(* ===================================================================== *)

Module Log.
(** [LogData] of services/logger.ts, as handed to [Logger.log]; the
    request attributes (ip, user agent, request id) are not modelled. *)
Record LogData := mk {
  level : string;
  type : string;
  action : string;
  userId : option string;
  userEmail : option string;
  data : list (string * Json);
  status : string;
  errorMessage : option string;
}.
End Log.

(** One call of the push provider's multicast send. *)
Record Multicast := mkMulticast {
  mc_tokens : list string;
  mc_title : string;
  mc_body : string;
  mc_data : list (string * string);
}.

Record World := mkWorld {
  (** successive readings of the system clock, and how many were taken *)
  clock : nat → Date;
  tick : nat;
  (** offset of the host's local time, in milliseconds *)
  LocalTZA : Z;
  (** [process.env.NODE_ENV === 'development'] *)
  isDevelopment : bool;
  (** the [PromoCode] collection, keyed by the unique [code] *)
  promoCodes : gmap string PromoCode.t;
  (** the [User] collection, keyed by [_id] *)
  users : gmap ObjectId User.t;
  (** the Redis cache of users, keyed by identity-provider uid, for a
      reachable Redis: what [cache.set] stored is what [cache.get] returns
      until [cache.del].  An entry that Redis dropped (the entries are
      written with a time to live of 900 seconds) is an absent key. *)
  userCache : gmap string User.t;
  (** the [Progress] collection *)
  progress : list Progress.t;
  (** records handed to [Logger.log], oldest first *)
  logs : list Log.LogData;
  (** multicast sends issued to the push provider, oldest first *)
  pushes : list Multicast;
}.

Definition set_tick (n : nat) (w : World) : World :=
  mkWorld (clock w) n (LocalTZA w) (isDevelopment w) (promoCodes w) (users w)
          (userCache w) (progress w) (logs w) (pushes w).
Definition set_promoCodes (m : gmap string PromoCode.t) (w : World) : World :=
  mkWorld (clock w) (tick w) (LocalTZA w) (isDevelopment w) m (users w)
          (userCache w) (progress w) (logs w) (pushes w).
Definition set_users (m : gmap ObjectId User.t) (w : World) : World :=
  mkWorld (clock w) (tick w) (LocalTZA w) (isDevelopment w) (promoCodes w) m
          (userCache w) (progress w) (logs w) (pushes w).
Definition set_userCache (m : gmap string User.t) (w : World) : World :=
  mkWorld (clock w) (tick w) (LocalTZA w) (isDevelopment w) (promoCodes w)
          (users w) m (progress w) (logs w) (pushes w).
Definition set_logs (l : list Log.LogData) (w : World) : World :=
  mkWorld (clock w) (tick w) (LocalTZA w) (isDevelopment w) (promoCodes w)
          (users w) (userCache w) (progress w) l (pushes w).
Definition set_pushes (l : list Multicast) (w : World) : World :=
  mkWorld (clock w) (tick w) (LocalTZA w) (isDevelopment w) (promoCodes w)
          (users w) (userCache w) (progress w) (logs w) l.

(** A JavaScript [Error]: its [name], [message], and the [statusCode] and
    [code] some errors carry. *)
Record Error := mkError {
  name : string;
  message : string;
  statusCode : option Z;
  code : option Z;
}.

Definition plainError (msg : string) : Error := mkError "Error" msg None None.
(** [new AppError(message, statusCode)] of middleware/errorHandler.ts. *)
Definition AppError (msg : string) (sc : Z) : Error :=
  mkError "Error" msg (Some sc) None.
Definition CastError : Error := mkError "CastError" "Cast to ObjectId failed" None None.

Inductive Outcome (A : Type) :=
| Returned (a : A)
| Thrown (e : Error).
Arguments Returned {A} a.
Arguments Thrown {A} e.

(** Computations of a handler: they read and write the world and either
    return or throw. *)
Definition M (A : Type) : Type := World → Outcome A * World.

Definition ret {A} (a : A) : M A := fun w => (Returned a, w).

Definition bind {A B} (m : M A) (k : A → M B) : M B :=
  fun w => match m w with
           | (Returned a, w') => k a w'
           | (Thrown e, w') => (Thrown e, w')
           end.

Definition throw {A} (e : Error) : M A := fun w => (Thrown e, w).

(** [try { m } catch (error) { handler(error) }] *)
Definition tryCatch {A} (m : M A) (handler : Error → M A) : M A :=
  fun w => match m w with
           | (Returned a, w') => (Returned a, w')
           | (Thrown e, w') => handler e w'
           end.

Definition get : M World := fun w => (Returned w, w).
Definition modify (f : World → World) : M unit := fun w => (Returned tt, f w).

Declare Scope monad_scope.
Delimit Scope monad_scope with monad.
Notation "x <- c1 ;; c2" := (bind c1 (fun x => c2))
  (at level 100, c1 at next level, right associativity) : monad_scope.
Notation "c1 ;; c2" := (bind c1 (fun _ => c2))
  (at level 100, right associativity) : monad_scope.
Local Open Scope monad_scope.

(** [for (const x of l) { await f(x) }] *)
Fixpoint forEach {A} (l : list A) (f : A → M unit) : M unit :=
  match l with
  | [] => ret tt
  | x :: rest => f x ;; forEach rest f
  end.

(** [new Date()]: the next reading of the clock. *)
Definition newDate : M Date :=
  fun w => (Returned (clock w (tick w)), set_tick (S (tick w)) w).

(** An HTTP response: [res.status(s).json(body)]. *)
Record Response := mkResponse {
  status : Z;
  body : Json;
}.

(* ===================================================================== *)
(** * services/logger.ts *)
(* ===================================================================== *)

Module Logger.

(** [Logger.log]: the record is saved inside a [try] whose [catch] only
    prints, so the call never throws. *)
Definition log (logData : Log.LogData) : M unit :=
  modify (fun w => set_logs (logs w ++ [logData]) w).

Definition logAuth (action : string) (userId userEmail : option string)
    (status : string) (data : list (string * Json)) : M unit :=
  log (Log.mk (if String.eqb status "failure" then "warn" else "info")
              "auth" action userId userEmail data status None).

Definition logPayment (action : string) (userId : string)
    (data : list (string * Json)) (status : string) : M unit :=
  log (Log.mk (if String.eqb status "failure" then "error" else "info")
              "payment" action (Some userId) None data status None).

Definition logSubscription (action : string) (userId : string)
    (data : list (string * Json)) (status : string) : M unit :=
  log (Log.mk (if String.eqb status "failure" then "error" else "info")
              "subscription" action (Some userId) None data status None).

Definition logPromo (action : string) (userId : string)
    (data : list (string * Json)) (status : string) : M unit :=
  log (Log.mk "info" "promo" action (Some userId) None data status None).

Definition logNotification (action : string) (userId : string)
    (data : list (string * Json)) (status : string) : M unit :=
  log (Log.mk (if String.eqb status "failure" then "warn" else "info")
              "notification" action (Some userId) None data status None).

Definition logError (error : Error) (action : string)
    (userId : option string) (data : list (string * Json)) : M unit :=
  log (Log.mk "error" "error" action userId None data "failure"
              (Some (message error))).

End Logger.

(* ===================================================================== *)
(** * middleware/errorHandler.ts *)
(* ===================================================================== *)

(** [errorHandler]: logs the error, maps some error names to a status and
    responds; outside development the message is masked. *)
Definition errorHandler (error : Error) (userId : option string)
  : M Response :=
  let statusCode0 := default 500 (statusCode error) in
  Logger.logError error "api_error" userId [("statusCode", JNum statusCode0)] ;;
  w <- get ;;
  let '(sc, msg) :=
    if String.eqb (name error) "ValidationError" then (400, "Validation error")
    else if String.eqb (name error) "CastError" then (400, "Invalid ID format")
    else if String.eqb (name error) "MongoServerError"
            && bool_decide (code error = Some 11000)
         then (409, "Duplicate entry")
    else if String.eqb (name error) "JsonWebTokenError" then (401, "Invalid token")
    else if String.eqb (name error) "TokenExpiredError" then (401, "Token expired")
    else if String.eqb (name error) "MulterError" then (400, "File upload error")
    else (statusCode0, message error) in
  ret (mkResponse sc
         (JObj [("success", JBool false);
                ("error", JObj [("message",
                    JStr (if isDevelopment w then msg
                          else "Internal server error"))])])).

(** [asyncHandler(fn)]: a rejection of the handler goes to [next], that is
    to [errorHandler]. *)
Definition asyncHandler (fn : M Response) (userId : option string)
  : M Response :=
  tryCatch fn (fun error => errorHandler error userId).

(** [validate(schema)]: [joiError] is Joi's verdict on the request body. *)
Definition validate (joiError : option string) (userId : option string)
    (next : M Response) : M Response :=
  match joiError with
  | Some details => errorHandler (AppError ("Validation error: " +:+ details) 400) userId
  | None => next
  end.

(* ===================================================================== *)
(** * middleware/auth.ts *)
(* ===================================================================== *)

Module Auth.

Record DecodedToken := mkDecoded {
  uid : string;
  token_email : string;
}.

(** The identity provider as the middleware sees it.
    [verifyFirebaseToken token] is [None] when the promise rejects.
    [provision decoded] is the document [new User({...})] builds for a
    first login, from the identity's attributes, a generated [_id] and
    the schema defaults; [None] when [getFirebaseUser] or the validation
    of [save()] rejects. *)
Record Firebase := mkFirebase {
  verifyFirebaseToken : string → option DecodedToken;
  provision : DecodedToken → option User.t;
}.

(** [req.user] *)
Record AuthUser := mkAuthUser {
  au_uid : string;
  au_email : string;
  userId : string;
  dbUser : User.t;
}.

(** [User.findOne({ firebaseUid })] *)
Definition findByFirebaseUid (fuid : string) (m : gmap ObjectId User.t)
  : option User.t :=
  head (filter (fun u => bool_decide (User.firebaseUid u = fuid))
               (map_to_list m).*2).

(** [user.save()] of a new document: the [_id] must be free. *)
Definition insertUser (u : User.t) : M unit :=
  w <- get ;;
  match users w !! User._id u with
  | Some _ => throw (mkError "MongoServerError" "E11000 duplicate key error"
                             None (Some 11000))
  | None => modify (fun w => set_users (<[User._id u := u]> (users w)) w)
  end.

(** [authenticateToken].  [token] is the bearer token of the
    authorization header, [None] when the header has none.  The result
    is the response the middleware sent, or [req.user] when it called
    [next()]. *)
Definition authenticateToken (fb : Firebase) (token : option string)
  : M (Response + AuthUser) :=
  tryCatch
    (match token with
     | None =>
         ret (inl (mkResponse 401 (JObj [("error", JStr "Access token required")])))
     | Some tok =>
       if negb (truthy tok)
       then ret (inl (mkResponse 401 (JObj [("error", JStr "Access token required")])))
       else
         match verifyFirebaseToken fb tok with
         | None => throw (plainError "Invalid or expired token")
         | Some decodedToken =>
             let cacheKey := "user:" +:+ uid decodedToken in
             w <- get ;;
             user <-
               match userCache w !! cacheKey with
               | Some cachedUser => ret cachedUser
               | None =>
                   user <-
                     match findByFirebaseUid (uid decodedToken) (users w) with
                     | Some user => ret user
                     | None =>
                         match provision fb decodedToken with
                         | None => throw (plainError "User not found")
                         | Some user => insertUser user ;; ret user
                         end
                     end ;;
                   modify (fun w => set_userCache (<[cacheKey := user]> (userCache w)) w) ;;
                   ret user
               end ;;
             now <- newDate ;;
             modify (fun w =>
               set_users (alter (User.setLastActiveAt now) (User._id user) (users w)) w) ;;
             ret (inr (mkAuthUser (uid decodedToken) (token_email decodedToken)
                                  (User._id user) user))
         end
     end)
    (fun error =>
       Logger.logAuth "failed_login" None
         (match token with Some _ => Some "token_provided" | None => None end)
         "failure" [("error", JStr (message error))] ;;
       ret (inl (mkResponse 401 (JObj [("error", JStr "Invalid or expired token")])))).

End Auth.

(* ===================================================================== *)
(** * models/PromoCode.ts: queries and writes *)
(* ===================================================================== *)

Module PromoCodeModel.

(** The filter of [findValidCode]'s [findOne]: the document whose code is
    [code.toUpperCase()], provided it is active, [validFrom <= now1] and
    [validUntil] is absent or [>= now2] (the two [new Date()] of the
    query). *)
Definition matches (now1 now2 : Date) (p : PromoCode.t) : bool :=
  PromoCode.isActive p
  && match PromoCode.validFrom p with
     | Some from => from <=? now1
     | None => false
     end
  && match PromoCode.validUntil p with
     | Some until => now2 <=? until
     | None => true
     end.

Definition findOne (now1 now2 : Date) (code : string)
    (m : gmap string PromoCode.t) : option PromoCode.t :=
  match m !! toUpperCase code with
  | Some p => if matches now1 now2 p then Some p else None
  | None => None
  end.

(** [PromoCodeSchema.statics.findValidCode], on a given collection with
    the three clock readings it takes. *)
Definition findValid (now1 now2 now3 : Date) (code : string)
    (userId : option ObjectId) (m : gmap string PromoCode.t)
  : option PromoCode.t :=
  match findOne now1 now2 code m with
  | None => None
  | Some promoCode =>
      let validation := PromoCode.isValid now3 promoCode userId in
      if PromoCode.valid validation then Some promoCode else None
  end.

Definition findValidCode (code : string) (userId : option ObjectId)
  : M (option PromoCode.t) :=
  now1 <- newDate ;;
  now2 <- newDate ;;
  w <- get ;;
  match findOne now1 now2 code (promoCodes w) with
  | None => ret None
  | Some promoCode =>
      now3 <- newDate ;;
      let validation := PromoCode.isValid now3 promoCode userId in
      ret (if PromoCode.valid validation then Some promoCode else None)
  end.

(** The write of [this.save()] at the end of [use]. *)
Definition saveUse (this : PromoCode.t) (pushed : ObjectId)
    (m : gmap string PromoCode.t) : gmap string PromoCode.t :=
  alter (PromoCode.applySave this pushed) (PromoCode.code this) m.

(** [PromoCodeSchema.methods.use] *)
Definition use (this : PromoCode.t) (userId : ObjectId) : M PromoCode.t :=
  now <- newDate ;;
  match PromoCode.use now this userId with
  | inl reason => throw (plainError reason)
  | inr this' =>
      modify (fun w => set_promoCodes (saveUse this' userId (promoCodes w)) w) ;;
      ret this'
  end.

End PromoCodeModel.

(* ===================================================================== *)
(** * routes/promoCode.ts *)
(* ===================================================================== *)

Module PromoCodeRoutes.

Definition invalidOrExpired (sc : Z) : Response :=
  mkResponse sc (JObj [("success", JBool false);
                       ("error", JStr "Invalid or expired promo code")]).

(** The handler of [router.post('/apply', ...)]. *)
Definition applyHandler (code : string) : M Response :=
  promoCode <- PromoCodeModel.findValidCode code None ;;
  match promoCode with
  | None => ret (invalidOrExpired 404)
  | Some promoCode =>
      let discountInfo := PromoCode.getDiscountInfo promoCode in
      Logger.logPromo "promo_code_validated_public" ""
        [("code", JStr code);
         ("promoCodeId", JStr (PromoCode._id promoCode));
         ("type", JStr (PromoCode.typeName (PromoCode.type promoCode)));
         ("discount", PromoCode.discountJson discountInfo)]
        "success" ;;
      ret (mkResponse 200
             (JObj [("success", JBool true);
                    ("data", JObj
                       [("valid", JBool true);
                        ("discount", PromoCode.discountJson discountInfo);
                        ("promoCode", JObj
                           [("id", JStr (PromoCode._id promoCode));
                            ("code", JStr (PromoCode.code promoCode));
                            ("type", JStr (PromoCode.typeName
                                             (PromoCode.type promoCode)));
                            ("description",
                             JOpt JStr (PromoCode.description promoCode))])])]))
  end.

(** [router.post('/apply', validate(schemas.applyPromoCode), ...)]:
    the public validation endpoint. *)
Definition apply (joiError : option string) (code : string) : M Response :=
  validate joiError None (asyncHandler (applyHandler code) None).

(** The benefit switch of the redemption handler, on the loaded user's
    subscription sub-record. *)
Definition applyBenefits (ty : PromoCode.PromoType) (sub : User.Subscription)
  : M User.Subscription :=
  w <- get ;;
  let tza := LocalTZA w in
  match ty with
  | PromoCode.free_month =>
      match User.currentPeriodEnd sub with
      | Some currentEnd =>
          ret (User.setCurrentPeriodEnd
                 (Some (JSDate.setMonth tza currentEnd
                          (JSDate.getMonth tza currentEnd + 1))) sub)
      | None =>
          now <- newDate ;;
          ret (User.setCurrentPeriodEnd
                 (Some (JSDate.setMonth tza now (JSDate.getMonth tza now + 1)))
                 sub)
      end
  | PromoCode.free_year =>
      match User.currentPeriodEnd sub with
      | Some currentEnd =>
          ret (User.setCurrentPeriodEnd
                 (Some (JSDate.setFullYear tza currentEnd
                          (JSDate.getFullYear tza currentEnd + 1))) sub)
      | None =>
          now <- newDate ;;
          ret (User.setCurrentPeriodEnd
                 (Some (JSDate.setFullYear tza now
                          (JSDate.getFullYear tza now + 1))) sub)
      end
  | PromoCode.lifetime =>
      ret (User.setCurrentPeriodEnd (Some (JSDate.ofISODate 2099 12 31))
             (User.setStatus User.active sub))
  | _ => ret sub
  end.

(** [user.save()] after the benefit switch, which assigned paths of
    [subscription] only: the stored sub-record becomes the local one. *)
Definition saveSubscription (userId : ObjectId) (sub : User.Subscription)
  : M unit :=
  modify (fun w => set_users (alter (User.setSubscription sub) userId (users w)) w).

(** The handler of [router.post('/:code/use', authenticateToken, ...)],
    for the authenticated account [userId].
    [new mongoose.Types.ObjectId(userId)] of an account's own id is that
    id. *)
Definition useHandler (code : string) (userId : ObjectId) : M Response :=
  promoCode <- PromoCodeModel.findValidCode code (Some userId) ;;
  match promoCode with
  | None => ret (invalidOrExpired 404)
  | Some promoCode =>
      tryCatch
        (promoCode <- PromoCodeModel.use promoCode userId ;;
         w <- get ;;
         match users w !! userId with
         | None =>
             ret (mkResponse 404 (JObj [("success", JBool false);
                                        ("error", JStr "User not found")]))
         | Some user =>
             sub <- applyBenefits (PromoCode.type promoCode) (User.subscription user) ;;
             saveSubscription userId sub ;;
             Logger.logPromo "promo_code_used" userId
               [("promoCodeId", JStr (PromoCode._id promoCode));
                ("code", JStr (PromoCode.code promoCode));
                ("type", JStr (PromoCode.typeName (PromoCode.type promoCode)));
                ("value", JOpt JNum (PromoCode.value promoCode));
                ("appliedBenefit", JStr (PromoCode.typeName (PromoCode.type promoCode)));
                ("newSubscriptionEnd", JOpt JDate (User.currentPeriodEnd sub))]
               "success" ;;
             ret (mkResponse 200
                    (JObj [("success", JBool true);
                           ("data", JObj
                              [("discount", PromoCode.discountJson
                                              (PromoCode.getDiscountInfo promoCode));
                               ("user", JObj [("subscription",
                                               User.subscriptionJson sub)])]);
                           ("message", JStr "Promo code applied successfully")]))
         end)
        (fun error =>
           ret (mkResponse 400 (JObj [("success", JBool false);
                                      ("error", JStr (message error))])))
  end.

(** The redemption endpoint: authentication, then the handler. *)
Definition use (fb : Auth.Firebase) (token : option string) (code : string)
  : M Response :=
  auth <- Auth.authenticateToken fb token ;;
  match auth with
  | inl response => ret response
  | inr user =>
      asyncHandler (useHandler code (Auth.userId user)) (Some (Auth.userId user))
  end.

End PromoCodeRoutes.

(* ===================================================================== *)
(** * The payment provider, as config/stripe.ts and the webhook use it *)
(* ===================================================================== *)

Module Stripe.

(** The snapshot of a subscription carried by an event or returned by
    [subscriptions.retrieve]; the period bounds are Unix seconds. *)
Record Subscription := mkSubscription {
  id : string;
  customer : string;
  status : string;
  current_period_start : Z;
  current_period_end : Z;
  cancel_at_period_end : bool;
}.

Record Invoice := mkInvoice {
  invoice_id : string;
  subscription : option string;
  amount_paid : Z;
  amount_due : Z;
  currency : string;
  attempt_count : Z;
  next_payment_attempt : option Z;
}.

(** A customer object; a deleted customer has [deleted = true] and no
    metadata. *)
Record Customer := mkCustomer {
  customer_id : string;
  deleted : bool;
  metadata : gmap string string;
}.

(** [Stripe.Event], by the type of the event and of [event.data.object]. *)
Inductive Event :=
| customer_subscription_updated (object : Subscription)
| customer_subscription_deleted (object : Subscription)
| invoice_payment_succeeded (object : Invoice)
| invoice_payment_failed (object : Invoice)
| other (type : string).

(** The provider's answers; [None] is a rejected promise, and
    [customers_rejection id], [subscriptions_rejection id] is the error
    the lookup of [id] is rejected with: the provider's own error object,
    with the name and the [statusCode] it carries, if any (an unknown id,
    a revoked key, a rate limit, an outage). *)
Record Api := mkApi {
  customers_retrieve : string → option Customer;
  subscriptions_retrieve : string → option Subscription;
  customers_rejection : string → Error;
  subscriptions_rejection : string → Error;
}.

Definition retrieveCustomer (api : Api) (id : string) : M Customer :=
  match customers_retrieve api id with
  | Some c => ret c
  | None => throw (customers_rejection api id)
  end.

Definition retrieveSubscription (api : Api) (id : string) : M Subscription :=
  match subscriptions_retrieve api id with
  | Some s => ret s
  | None => throw (subscriptions_rejection api id)
  end.

End Stripe.

(* ===================================================================== *)
(** * routes/subscription.ts *)
(* ===================================================================== *)

Module SubscriptionRoutes.

(** The handler of [router.post('/promo-code', ...)] for the
    authenticated account [userId]. *)
Definition promoCodeHandler (code : string) (userId : ObjectId)
  : M Response :=
  promoCode <- PromoCodeModel.findValidCode code (Some userId) ;;
  match promoCode with
  | None => ret (PromoCodeRoutes.invalidOrExpired 400)
  | Some promoCode =>
      let discountInfo := PromoCode.getDiscountInfo promoCode in
      Logger.logPromo "promo_code_validated" userId
        [("code", JStr code);
         ("promoCodeId", JStr (PromoCode._id promoCode));
         ("discount", PromoCode.discountJson discountInfo)]
        "success" ;;
      ret (mkResponse 200
             (JObj [("success", JBool true);
                    ("data", JObj
                       [("valid", JBool true);
                        ("discount", PromoCode.discountJson discountInfo)])]))
  end.

(** [router.post('/promo-code', authenticateToken,
    validate(schemas.applyPromoCode), ...)]: validation for the
    authenticated account. *)
Definition promoCode (fb : Auth.Firebase) (token : option string)
    (joiError : option string) (code : string) : M Response :=
  auth <- Auth.authenticateToken fb token ;;
  match auth with
  | inl response => ret response
  | inr user =>
      let userId := Auth.userId user in
      validate joiError (Some userId)
        (asyncHandler (promoCodeHandler code userId) (Some userId))
  end.

(** The owning account of a customer: [customer.metadata?.userId], when
    the guard [customer && !customer.deleted && customer.metadata?.userId]
    passes. *)
Definition resolvedUserId (customer : Stripe.Customer) : option string :=
  if Stripe.deleted customer then None
  else match Stripe.metadata customer !! "userId" with
       | Some userId => if truthy userId then Some userId else None
       | None => None
       end.

(** [User.findByIdAndUpdate(id, update)] with an id that comes from
    outside: the id is cast first; an account that does not exist is
    left alone. *)
Definition findByIdAndUpdate (id : string) (update : User.t → User.t)
  : M unit :=
  match castObjectId id with
  | None => throw CastError
  | Some oid => modify (fun w => set_users (alter update oid (users w)) w)
  end.

(** The status written for a [customer.subscription.updated] event. *)
Definition mapStatus (status : string) : User.Status :=
  if String.eqb status "trialing" then User.free_trial
  else if String.eqb status "active" then User.active
  else if String.eqb status "canceled" then User.canceled
  else User.expired.

Definition onSubscriptionUpdated (subscription : Stripe.Subscription)
    (u : User.t) : User.t :=
  User.setSubscription
    (User.setCurrentPeriodEnd
       (Some (Stripe.current_period_end subscription * 1000))
       (User.setCurrentPeriodStart
          (Some (Stripe.current_period_start subscription * 1000))
          (User.setStatus (mapStatus (Stripe.status subscription))
             (User.subscription u))))
    u.

Definition onSubscriptionDeleted (now : Date) (u : User.t) : User.t :=
  User.setSubscription
    (User.setCanceledAt (Some now)
       (User.setStatus User.expired (User.subscription u)))
    u.

Definition onPaymentSucceeded (subscription : Stripe.Subscription)
    (u : User.t) : User.t :=
  User.setSubscription
    (User.setCurrentPeriodEnd
       (Some (Stripe.current_period_end subscription * 1000))
       (User.setCurrentPeriodStart
          (Some (Stripe.current_period_start subscription * 1000))
          (User.setStatus User.active (User.subscription u))))
    u.

(** The [switch (event.type)] of the webhook. *)
Definition processEvent (api : Stripe.Api) (event : Stripe.Event) : M unit :=
  match event with
  | Stripe.customer_subscription_updated subscription =>
      customer <- Stripe.retrieveCustomer api (Stripe.customer subscription) ;;
      match resolvedUserId customer with
      | Some userId =>
          findByIdAndUpdate userId (onSubscriptionUpdated subscription) ;;
          Logger.logSubscription "subscription_updated" userId
            [("subscriptionId", JStr (Stripe.id subscription));
             ("status", JStr (Stripe.status subscription));
             ("currentPeriodStart",
              JDate (Stripe.current_period_start subscription * 1000));
             ("currentPeriodEnd",
              JDate (Stripe.current_period_end subscription * 1000));
             ("cancelAtPeriodEnd", JBool (Stripe.cancel_at_period_end subscription));
             ("source", JStr "stripe_webhook")]
            "success"
      | None => ret tt
      end
  | Stripe.customer_subscription_deleted subscription =>
      customer <- Stripe.retrieveCustomer api (Stripe.customer subscription) ;;
      match resolvedUserId customer with
      | Some userId =>
          now <- newDate ;;
          findByIdAndUpdate userId (onSubscriptionDeleted now) ;;
          now' <- newDate ;;
          Logger.logSubscription "subscription_deleted" userId
            [("subscriptionId", JStr (Stripe.id subscription));
             ("canceledAt", JDate now');
             ("source", JStr "stripe_webhook")]
            "success"
      | None => ret tt
      end
  | Stripe.invoice_payment_succeeded invoice =>
      match Stripe.subscription invoice with
      | Some subscriptionId =>
          if truthy subscriptionId then
            subscription <- Stripe.retrieveSubscription api subscriptionId ;;
            customer <- Stripe.retrieveCustomer api (Stripe.customer subscription) ;;
            match resolvedUserId customer with
            | Some userId =>
                findByIdAndUpdate userId (onPaymentSucceeded subscription) ;;
                Logger.logPayment "payment_succeeded" userId
                  [("invoiceId", JStr (Stripe.invoice_id invoice));
                   ("subscriptionId", JStr (Stripe.id subscription));
                   ("amount", JNum (Stripe.amount_paid invoice));
                   ("currency", JStr (Stripe.currency invoice));
                   ("source", JStr "stripe_webhook")]
                  "success"
            | None => ret tt
            end
          else ret tt
      | None => ret tt
      end
  | Stripe.invoice_payment_failed invoice =>
      match Stripe.subscription invoice with
      | Some subscriptionId =>
          if truthy subscriptionId then
            subscription <- Stripe.retrieveSubscription api subscriptionId ;;
            customer <- Stripe.retrieveCustomer api (Stripe.customer subscription) ;;
            match resolvedUserId customer with
            | Some userId =>
                Logger.logPayment "payment_failed" userId
                  [("invoiceId", JStr (Stripe.invoice_id invoice));
                   ("subscriptionId", JStr (Stripe.id subscription));
                   ("amount", JNum (Stripe.amount_due invoice));
                   ("currency", JStr (Stripe.currency invoice));
                   ("attemptCount", JNum (Stripe.attempt_count invoice));
                   ("nextPaymentAttempt",
                    JOpt (fun s => if s =? 0 then JNull else JDate (s * 1000))
                         (Stripe.next_payment_attempt invoice));
                   ("source", JStr "stripe_webhook")]
                  "failure"
            | None => ret tt
            end
          else ret tt
      | None => ret tt
      end
  | Stripe.other _ => ret tt
  end.

(** [router.post('/webhook', ...)].  [verified] is what
    [verifyWebhookSignature(req.body, sig)] makes of the payload: the
    event, or [None] when it throws. *)
Definition webhook (api : Stripe.Api) (verified : option Stripe.Event)
  : M Response :=
  asyncHandler
    (match verified with
     | None => throw (plainError "Invalid webhook signature")
     | Some event =>
         processEvent api event ;;
         ret (mkResponse 200 (JObj [("received", JBool true)]))
     end)
    None.

(** The customer object the webhook obtains for an event: the answer to
    the [customers.retrieve] it issues, if it issues one and the
    provider answers. *)
Definition lookedUp (api : Stripe.Api) (event : Stripe.Event)
  : option Stripe.Customer :=
  match event with
  | Stripe.customer_subscription_updated subscription
  | Stripe.customer_subscription_deleted subscription =>
      Stripe.customers_retrieve api (Stripe.customer subscription)
  | Stripe.invoice_payment_succeeded invoice
  | Stripe.invoice_payment_failed invoice =>
      match Stripe.subscription invoice with
      | Some subscriptionId =>
          if truthy subscriptionId then
            match Stripe.subscriptions_retrieve api subscriptionId with
            | Some subscription =>
                Stripe.customers_retrieve api (Stripe.customer subscription)
            | None => None
            end
          else None
      | None => None
      end
  | Stripe.other _ => None
  end.

Definition acknowledged : Response :=
  mkResponse 200 (JObj [("received", JBool true)]).

End SubscriptionRoutes.

(* ===================================================================== *)
(** * config/firebase.ts: multicast push *)
(* ===================================================================== *)

Module Firebase.

Record BatchResponse := mkBatch {
  successCount : Z;
  failureCount : Z;
}.

(** The push provider: its answer to a multicast send, [None] when the
    send rejects (provider down, app not initialised). *)
Abbreviation Messaging := (Multicast → option BatchResponse).

(** [sendMulticastNotification(tokens, title, body, data)] *)
Definition sendMulticastNotification (fcm : Messaging) (tokens : list string)
    (title body : string) (data : list (string * string))
  : M BatchResponse :=
  let message := mkMulticast tokens title body data in
  modify (fun w => set_pushes (pushes w ++ [message]) w) ;;
  match fcm message with
  | Some response =>
      Logger.logNotification "multicast_notification_sent" ""
        [("title", JStr title); ("body", JStr body);
         ("tokensCount", JNum (Z.of_nat (length tokens)));
         ("successCount", JNum (successCount response));
         ("failureCount", JNum (failureCount response))]
        (if 0 <? failureCount response then "failure" else "success") ;;
      ret response
  | None =>
      Logger.logNotification "multicast_notification_failed" ""
        [("title", JStr title); ("body", JStr body);
         ("tokensCount", JNum (Z.of_nat (length tokens)))]
        "failure" ;;
      throw (plainError "Failed to send notifications")
  end.

End Firebase.

(* ===================================================================== *)
(** * services/notificationService.ts *)
(* ===================================================================== *)

Module NotificationService.

Definition nonEmpty {A} (l : list A) : bool :=
  match l with [] => false | _ => true end.

Definition inList (x : string) (l : list string) : bool :=
  existsb (String.eqb x) l.

(** [User.find(query)]: the documents of the collection matching the
    query. *)
Definition find (query : User.t → bool) (m : gmap ObjectId User.t)
  : list User.t :=
  List.filter query (map_to_list m).*2.

(** The query of [sendProgressReminders]. *)
Definition reminderQuery (hour : Z) (u : User.t) : bool :=
  User.isActive u
  && User.notificationsEnabled (User.settings u)
  && inList (numberToString hour +:+ ":00") (User.reminderTimes (User.settings u))
  && nonEmpty (User.fcmTokens u).

(** [Progress.findOne({ userId, date: { $gte: today } })] finds an entry. *)
Definition todayProgress (today : Date) (userId : ObjectId)
    (entries : list Progress.t) : bool :=
  existsb (fun p => String.eqb (Progress.userId p) userId
                    && (today <=? Progress.date p))
          entries.

Definition getReminderTitle (hour : Z) : string :=
  if hour =? 12 then "🌟 Midday Progress Check!"
  else if hour =? 18 then "💪 Evening Fitness Update!"
  else if hour =? 22 then "📸 Quick Progress Snap!"
  else if hour =? 23 then "⏰ Last Chance Today!"
  else "💪 Track Your Progress!".

Definition getReminderBody (hour : Z) : string :=
  if hour =? 12 then "Take a moment to capture your fitness journey today! 📸"
  else if hour =? 18 then "How did your workout go? Log your progress now! 🏋️‍♂️"
  else if hour =? 22 then "Don't forget to track today's progress! Quick and easy! ✨"
  else if hour =? 23 then "Final reminder: Track your progress before midnight! 🌙"
  else "Time to track your fitness progress! 💪".

(** The users of [users] without an entry since [today]. *)
Definition usersNeedingReminders (today : Date) (entries : list Progress.t)
    (users : list User.t) : list User.t :=
  List.filter (fun user => negb (todayProgress today (User._id user) entries))
              users.

Definition allTokens (users : list User.t) : list string :=
  flat_map User.fcmTokens users.

(** [sendProgressReminders(hour)] *)
Definition sendProgressReminders (fcm : Firebase.Messaging) (hour : Z)
  : M unit :=
  tryCatch
    (now <- newDate ;;
     w <- get ;;
     let today := JSDate.setHours (LocalTZA w) now 0 0 0 0 in
     let users := find (reminderQuery hour) (users w) in
     if negb (nonEmpty users) then ret tt
     else
       let needing := usersNeedingReminders today (progress w) users in
       let tokens := allTokens needing in
       if negb (nonEmpty tokens) then ret tt
       else
         let title := getReminderTitle hour in
         let body := getReminderBody hour in
         timestamp <- newDate ;;
         Firebase.sendMulticastNotification fcm tokens title body
           [("type", "progress_reminder"); ("hour", numberToString hour);
            ("timestamp", JSDate.toISOString timestamp)] ;;
         ret tt)
    (fun _ => ret tt).

(** The message [sendTrialExpiryReminder] builds. *)
Definition trialExpiryMessage (userId : string) (fcmTokens : list string)
    (daysLeft : Z) : Multicast :=
  let title :=
    if daysLeft =? 1 then "⏰ Trial expires tomorrow!"
    else "⏰ " +:+ numberToString daysLeft +:+ " days left in trial!" in
  let body :=
    if daysLeft =? 1
    then "Don't lose your progress! Upgrade to premium now."
    else "Continue your fitness journey with premium features. "
         +:+ numberToString daysLeft +:+ " days remaining." in
  mkMulticast fcmTokens title body
    [("type", "trial_expiry"); ("userId", userId);
     ("daysLeft", numberToString daysLeft); ("action", "upgrade")].

(** [sendTrialExpiryReminder(userId, fcmTokens, daysLeft)] *)
Definition sendTrialExpiryReminder (fcm : Firebase.Messaging)
    (userId : string) (fcmTokens : list string) (daysLeft : Z) : M unit :=
  tryCatch
    (if negb (nonEmpty fcmTokens) then ret tt
     else
       let message := trialExpiryMessage userId fcmTokens daysLeft in
       Firebase.sendMulticastNotification fcm (mc_tokens message)
         (mc_title message) (mc_body message) (mc_data message) ;;
       ret tt)
    (fun _ => ret tt).

(** The query of [checkAndSendTrialExpiryReminders]. *)
Definition expiryQuery (now twoDaysFromNow : Date) (u : User.t) : bool :=
  User.isActive u
  && bool_decide (User.status (User.subscription u) = User.free_trial)
  && match User.trialEndsAt (User.subscription u) with
     | Some trialEndsAt => (now <=? trialEndsAt) && (trialEndsAt <=? twoDaysFromNow)
     | None => false
     end
  && nonEmpty (User.fcmTokens u).

(** [Math.ceil(a / b)] for integers [a] and positive [b]; on the values
    the check meets (a span of at most two days, in milliseconds) the
    floating-point quotient rounds to the same integer. *)
Definition ceilDiv (a b : Z) : Z := - ((- a) / b).

Definition daysLeft (now trialEndsAt : Date) : Z :=
  ceilDiv (trialEndsAt - now) (1000 * 60 * 60 * 24).

(** The body of the loop of [checkAndSendTrialExpiryReminders]. *)
Definition remindIfExpiring (fcm : Firebase.Messaging) (now : Date)
    (user : User.t) : M unit :=
  let days := daysLeft now (default 0 (User.trialEndsAt (User.subscription user))) in
  if (0 <? days) && (days <=? 2)
  then sendTrialExpiryReminder fcm (User._id user) (User.fcmTokens user) days
  else ret tt.

(** [checkAndSendTrialExpiryReminders] *)
Definition checkAndSendTrialExpiryReminders (fcm : Firebase.Messaging)
  : M unit :=
  tryCatch
    (now <- newDate ;;
     w <- get ;;
     let twoDaysFromNow :=
       JSDate.setDate (LocalTZA w) now (JSDate.getDate (LocalTZA w) now + 2) in
     let expiringUsers := find (expiryQuery now twoDaysFromNow) (users w) in
     forEach expiringUsers (remindIfExpiring fcm now))
    (fun _ => ret tt).


End NotificationService.

(* ===================================================================== *)
(** * routes/progress.ts: creating an entry *)
(* ===================================================================== *)

Module ProgressRoutes.

(** The handler of [router.post('/', ..., validate(schemas.createProgress),
    ...)] for the authenticated account [userId], as far as the entry's
    date goes.  The schema has [date: Joi.date().max('now')]: a date
    after Joi's reading of the clock is a validation error; [joiError]
    is Joi's verdict on the rest of the body.  The collection has a
    unique index on [(userId, date)]. *)
Definition create (joiError : option string) (userId : ObjectId) (date : Date)
  : M Response :=
  now <- newDate ;;
  validate (if now <? date then Some "date must be less than or equal to now"
            else joiError)
    (Some userId)
    (asyncHandler
       (w <- get ;;
        if existsb (fun p => String.eqb (Progress.userId p) userId
                             && (Progress.date p =? date)) (progress w)
        then throw (mkError "MongoServerError" "E11000 duplicate key error"
                            None (Some 11000))
        else
          modify (fun w =>
            mkWorld (clock w) (tick w) (LocalTZA w) (isDevelopment w)
                    (promoCodes w) (users w) (userCache w)
                    (progress w ++ [Progress.mk userId date])
                    (logs w) (pushes w)) ;;
          ret (mkResponse 201
                 (JObj [("success", JBool true);
                        ("message", JStr "Progress entry created successfully")])))
       (Some userId)).

End ProgressRoutes.

(* ===================================================================== *)
(** * Overlapping and consecutive redemptions *)
(* ===================================================================== *)

(** Requests to [POST /:code/use] that are in flight together.  A handler
    runs without interruption between two [await]s, so its effect on the
    [PromoCode] collection falls into two atomic steps: the query of
    [findValidCode], which hands the request a private copy of the
    document, and the write of [use], which validates and changes that
    copy and saves it.  A schedule lists which request takes its next step,
    with the clock readings of that step. *)
Module Interleaving.

Inductive Task :=
| Pending (code : string) (userId : ObjectId)
| Loaded (promoCode : PromoCode.t) (userId : ObjectId)
| Redeemed (promoCode : PromoCode.t) (userId : ObjectId)
| Rejected (status : Z) (error : string).

Inductive Action :=
| Find (i : nat) (now1 now2 now3 : Date)
| Use (i : nat) (now : Date).

Abbreviation Config := (gmap string PromoCode.t * list Task)%type.

Definition exec (a : Action) (c : Config) : Config :=
  match a with
  | Find i now1 now2 now3 =>
      match c.2 !! i with
      | Some (Pending code userId) =>
          (c.1,
           <[i := match PromoCodeModel.findValid now1 now2 now3 code
                          (Some userId) c.1 with
                  | Some promoCode => Loaded promoCode userId
                  | None => Rejected 404 "Invalid or expired promo code"
                  end]> c.2)
      | _ => c
      end
  | Use i now =>
      match c.2 !! i with
      | Some (Loaded promoCode userId) =>
          match PromoCode.use now promoCode userId with
          | inl reason => (c.1, <[i := Rejected 400 reason]> c.2)
          | inr promoCode' =>
              (PromoCodeModel.saveUse promoCode' userId c.1,
               <[i := Redeemed promoCode' userId]> c.2)
          end
      | _ => c
      end
  end.

Definition run (schedule : list Action) (c : Config) : Config :=
  foldl (fun c a => exec a c) c schedule.

Definition isPending (t : Task) : bool :=
  match t with Pending _ _ => true | _ => false end.

End Interleaving.

(** Redemption requests served one after the other, each handler running
    to its response before the next starts. *)
Definition serve (requests : list (string * ObjectId)) : M unit :=
  forEach requests (fun r => PromoCodeRoutes.useHandler r.1 r.2 ;; ret tt).

(** The invariants of the ledger (section 3 of the specification):
    a document is stored under its code; a limited code (a limit of 0 is
    falsy in [isValid], hence no limit) is used at most [usageLimit]
    times; no account occurs twice in [usedBy]. *)
Definition keyed (m : gmap string PromoCode.t) : Prop :=
  ∀ k p, m !! k = Some p → PromoCode.code p = k.

Definition withinLimit (p : PromoCode.t) : Prop :=
  ∀ L, PromoCode.usageLimit p = Some L → L ≠ 0 → PromoCode.usedCount p ≤ L.

Definition allWithinLimit (m : gmap string PromoCode.t) : Prop :=
  ∀ k p, m !! k = Some p → withinLimit p.

Definition noDuplicates (m : gmap string PromoCode.t) : Prop :=
  ∀ k p, m !! k = Some p → NoDup (PromoCode.usedBy p).

(** A request in flight holds a copy of a stored document; copies never
    change the limit. *)
Definition tasksConsistent (c : Interleaving.Config) : Prop :=
  ∀ i p u, c.2 !! i = Some (Interleaving.Loaded p u) →
    ∃ sp, c.1 !! PromoCode.code p = Some sp
          ∧ PromoCode.usageLimit sp = PromoCode.usageLimit p.

(** The handler answered 200. *)
Definition succeeded (o : Outcome Response) : bool :=
  match o with
  | Returned r => status r =? 200
  | Thrown _ => false
  end.

(** [t'] is [k] calendar months after [t] in local time: same day of the
    month, same time of day. *)
Definition monthsLater (tza k : Z) (t t' : Date) : Prop :=
  let lt := JSDate.LocalTime tza t in
  let lt' := JSDate.LocalTime tza t' in
  12 * JSDate.YearFromTime lt' + JSDate.MonthFromTime lt'
  = 12 * JSDate.YearFromTime lt + JSDate.MonthFromTime lt + k
  ∧ JSDate.DateFromTime lt' = JSDate.DateFromTime lt
  ∧ JSDate.TimeWithinDay lt' = JSDate.TimeWithinDay lt.


(** Days of an era before its year [y] (the years of an era start in
    March, and [y] counts them from 0). *)
Definition startOfYear (y : Z) : Z := 365 * y + y / 4 - y / 100 + y / 400.

(** Accounts are kept, up to their [lastActiveAt]. *)
Definition touched (m m' : gmap ObjectId User.t) : Prop :=
  ∀ id u, m !! id = Some u → ∃ d, m' !! id = Some (User.setLastActiveAt d u).

(** The [error] field of a response body, when it is a string. *)
Definition errorOf (r : Response) : option string :=
  match body r with
  | JObj fields =>
      match List.find (fun f => String.eqb f.1 "error") fields with
      | Some (_, JStr e) => Some e
      | _ => None
      end
  | _ => None
  end.

(* ===================================================================== *)
(** * Sample data *)
(* ===================================================================== *)

(** Concrete documents, providers and worlds on which the properties below
    are exercised. *)
Module Sample.

Definition aliceId : ObjectId := "64b7f0c2a1d4e5f6a7b8c9d0".
Definition bobId : ObjectId := "64b7f0c2a1d4e5f6a7b8c9d1".
Definition adminId : ObjectId := "64b7f0c2a1d4e5f6a7b8c9ff".

(** 2025-01-10T09:06:40Z *)
Definition now0 : Date := 1736500000000.

(** A single-use [free_month] code. *)
Definition welcome : PromoCode.t :=
  PromoCode.mk "650000000000000000000001" "WELCOME" PromoCode.free_month
    None None true (Some 1) 0 [] (Some 1700000000000) None adminId.

(** Alice: on trial until 36 hours after [now0], paid up to 2025-01-10,
    reminded at 18:00. *)
Definition alice : User.t :=
  User.mk aliceId "fb-alice" "alice@example.com" ["tok-alice"]
    (User.mkSubscription User.free_trial (Some "cus_alice") None None
       (Some (JSDate.ofISODate 2025 1 10)) (Some (now0 + 36 * 3600000)) None
       User.monthly)
    (User.mkSettings true ["18:00"]) true 0.

(** Bob: as Alice, but deactivated. *)
Definition bob : User.t :=
  User.mk bobId "fb-bob" "bob@example.com" ["tok-bob"]
    (User.mkSubscription User.free_trial None None None None
       (Some (now0 + 36 * 3600000)) None User.monthly)
    (User.mkSettings true ["18:00"]) false 0.

Definition world (accounts : gmap ObjectId User.t) : World :=
  mkWorld (fun n => now0 + Z.of_nat n) 0 0 false
          {[ "WELCOME" := welcome ]} accounts ∅ [] [] [].

Definition w0 : World := world {[ aliceId := alice ]}.
Definition wBob : World := world {[ bobId := bob ]}.

(** The identity provider knows Alice's token. *)
Definition firebase : Auth.Firebase :=
  Auth.mkFirebase
    (fun token => if String.eqb token "token-alice"
                  then Some (Auth.mkDecoded "fb-alice" "alice@example.com")
                  else None)
    (fun _ => None).

(** The push provider delivers to every token. *)
Definition fcm : Firebase.Messaging :=
  fun message => Some (Firebase.mkBatch (Z.of_nat (length (mc_tokens message))) 0).

(** The payment provider: [cus_alice] is Alice's customer, [cus_orphan]
    carries no account id. *)
Definition stripe : Stripe.Api :=
  Stripe.mkApi
    (fun id =>
       if String.eqb id "cus_alice"
       then Some (Stripe.mkCustomer "cus_alice" false {[ "userId" := aliceId ]})
       else if String.eqb id "cus_orphan"
       then Some (Stripe.mkCustomer "cus_orphan" false ∅)
       else None)
    (fun _ => None)
    (fun id => mkError "StripeInvalidRequestError" ("No such customer: " +:+ id)
                       (Some 404) None)
    (fun id => mkError "StripeInvalidRequestError" ("No such subscription: " +:+ id)
                       (Some 404) None).

Definition trialing (customer : string) : Stripe.Subscription :=
  Stripe.mkSubscription "sub_1" customer "trialing" 1736467200 1739145600 false.

(** Two requests of Alice for the same code, both querying before either
    writes. *)
Definition overlap : list Interleaving.Action :=
  [Interleaving.Find 0 now0 now0 now0; Interleaving.Find 1 now0 now0 now0;
   Interleaving.Use 0 now0; Interleaving.Use 1 now0].

End Sample.

(* ===================================================================== *)
(** * models/User.ts: methods *)
(* ===================================================================== *)

Module UserMethods.

Definition setFcmTokens (tokens : list string) (u : User.t) : User.t :=
  {| User._id := User._id u; User.firebaseUid := User.firebaseUid u;
     User.email := User.email u; User.fcmTokens := tokens;
     User.subscription := User.subscription u; User.settings := User.settings u;
     User.isActive := User.isActive u; User.lastActiveAt := User.lastActiveAt u |}.

Definition setIsActive (b : bool) (u : User.t) : User.t :=
  {| User._id := User._id u; User.firebaseUid := User.firebaseUid u;
     User.email := User.email u; User.fcmTokens := User.fcmTokens u;
     User.subscription := User.subscription u; User.settings := User.settings u;
     User.isActive := b; User.lastActiveAt := User.lastActiveAt u |}.

(** [UserSchema.methods.isTrialExpired]; the clock is read only when the
    account is on trial and has a [trialEndsAt]. *)
Definition isTrialExpired (this : User.t) : M bool :=
  if negb (bool_decide (User.status (User.subscription this) = User.free_trial))
  then ret false
  else match User.trialEndsAt (User.subscription this) with
       | Some trialEndsAt => now <- newDate ;; ret (trialEndsAt <? now)
       | None => ret false (* [undefined], which is falsy *)
       end.

(** [UserSchema.methods.isSubscriptionActive] *)
Definition isSubscriptionActive (this : User.t) : M bool :=
  if bool_decide (User.status (User.subscription this) = User.active)
  then ret true
  else if bool_decide (User.status (User.subscription this) = User.free_trial)
  then expired <- isTrialExpired this ;; ret (negb expired)
  else ret false.

(** The same at a given instant. *)
Definition trialExpiredAt (now : Date) (this : User.t) : bool :=
  bool_decide (User.status (User.subscription this) = User.free_trial)
  && match User.trialEndsAt (User.subscription this) with
     | Some trialEndsAt => trialEndsAt <? now
     | None => false
     end.

Definition subscriptionActiveAt (now : Date) (this : User.t) : bool :=
  bool_decide (User.status (User.subscription this) = User.active)
  || (bool_decide (User.status (User.subscription this) = User.free_trial)
      && negb (trialExpiredAt now this)).

End UserMethods.

(* ===================================================================== *)
(** * middleware/auth.ts: gates and device tokens *)
(* ===================================================================== *)

Module Gates.

(** [req.user.dbUser] as [authenticateToken] attaches it: the Mongoose
    document it found or created, or the plain object it parsed from the
    cache, which has the fields but none of the schema's methods. *)
Inductive DbUser :=
| Document (u : User.t)
| Plain (u : User.t).

Definition fields (d : DbUser) : User.t :=
  match d with Document u | Plain u => u end.

Definition TypeError (msg : string) : Error := mkError "TypeError" msg None None.

(** A call of a schema method on [req.user.dbUser]. *)
Definition callMethod {A} (method : string) (f : User.t → M A) (d : DbUser)
  : M A :=
  match d with
  | Document u => f u
  | Plain _ => throw (TypeError ("user." +:+ method +:+ " is not a function"))
  end.

(** [requireSubscription]: the response it sent, or [inr tt] when it called
    [next()]. *)
Definition requireSubscription (reqUser : option DbUser) : M (Response + unit) :=
  tryCatch
    (match reqUser with
     | None =>
         ret (inl (mkResponse 401 (JObj [("error", JStr "Authentication required")])))
     | Some user =>
         active <- callMethod "isSubscriptionActive"
                     UserMethods.isSubscriptionActive user ;;
         if negb active then
           trialExpired <- callMethod "isTrialExpired" UserMethods.isTrialExpired user ;;
           ret (inl (mkResponse 403
                  (JObj [("error", JStr "Active subscription required");
                         ("subscriptionStatus",
                          JStr (User.statusName
                                  (User.status (User.subscription (fields user)))));
                         ("trialExpired", JBool trialExpired)])))
         else ret (inr tt)
     end)
    (fun _ =>
       ret (inl (mkResponse 500
              (JObj [("error", JStr "Failed to verify subscription")])))).

(** [requirePremium] *)
Definition requirePremium (reqUser : option DbUser) : M (Response + unit) :=
  match reqUser with
  | None =>
      ret (inl (mkResponse 401 (JObj [("error", JStr "Authentication required")])))
  | Some user =>
      if negb (bool_decide (User.status (User.subscription (fields user))
                            = User.active))
      then ret (inl (mkResponse 403
                  (JObj [("error", JStr "Premium subscription required");
                         ("subscriptionStatus",
                          JStr (User.statusName
                                  (User.status (User.subscription (fields user)))));
                         ("message",
                          JStr "This feature requires a premium subscription")])))
      else ret (inr tt)
  end.

(** The [dbUser] that [authenticateToken] attached, given the cache it met:
    the object parsed from the cache on a hit, the document it found or
    created otherwise. *)
Definition attached (before : World) (ru : Auth.AuthUser) : DbUser :=
  match userCache before !! ("user:" +:+ Auth.au_uid ru) with
  | Some _ => Plain (Auth.dbUser ru)
  | None => Document (Auth.dbUser ru)
  end.

(** The middleware chain [authenticateToken, requireSubscription] of
    routes/progress.ts: the response one of them sent, or [req.user] when
    both called [next()]. *)
Definition subscribed (fb : Auth.Firebase) (token : option string)
  : M (Response + Auth.AuthUser) :=
  before <- get ;;
  auth <- Auth.authenticateToken fb token ;;
  match auth with
  | inl response => ret (inl response)
  | inr ru =>
      gate <- requireSubscription (Some (attached before ru)) ;;
      ret (match gate with
           | inl response => inl response
           | inr _ => inr ru
           end)
  end.

(** [updateFCMToken]: [fcmToken] is the [fcm-token] header, [reqUser] is
    [req.user].  The middleware always calls [next()]. *)
Definition updateFCMToken (fcmToken : option string)
    (reqUser : option Auth.AuthUser) : M unit :=
  tryCatch
    (match fcmToken, reqUser with
     | Some token, Some ru =>
         if truthy token then
           w <- get ;;
           match users w !! Auth.userId ru with
           | Some user =>
               if negb (NotificationService.inList token (User.fcmTokens user))
               then
                 let user' := UserMethods.setFcmTokens
                                (User.fcmTokens user ++ [token]) user in
                 modify (fun w =>
                   set_users (alter (fun stored =>
                                UserMethods.setFcmTokens
                                  (User.fcmTokens stored ++ [token]) stored)
                                (Auth.userId ru) (users w)) w) ;;
                 modify (fun w =>
                   set_userCache (<["user:" +:+ Auth.au_uid ru := user']>
                                    (userCache w)) w)
               else ret tt
           | None => ret tt
           end
         else ret tt
     | _, _ => ret tt
     end)
    (fun _ => ret tt).

End Gates.

(* ===================================================================== *)
(** * routes/auth.ts *)
(* ===================================================================== *)

Module AuthRoutes.

(** The handler of [router.post('/logout', ...)]: [$pull] removes every
    occurrence of the token; the cache entry of the identity is deleted. *)
Definition logoutHandler (fcmToken : string) (ru : Auth.AuthUser) : M Response :=
  modify (fun w =>
    set_users (alter (fun stored =>
                 UserMethods.setFcmTokens
                   (filter (fun t => t ≠ fcmToken) (User.fcmTokens stored))
                   stored)
                 (Auth.userId ru) (users w)) w) ;;
  modify (fun w => set_userCache (delete ("user:" +:+ Auth.au_uid ru) (userCache w)) w) ;;
  Logger.logAuth "logout" (Some (Auth.userId ru))
    (Some (User.email (Auth.dbUser ru))) "success"
    [("fcmToken", JStr "removed")] ;;
  ret (mkResponse 200 (JObj [("success", JBool true);
                             ("message", JStr "Logout successful")])).

(** The handler of [router.put('/fcm-token', ...)]: [oldToken], when given
    and present, is filtered out; [fcmToken] is pushed unless present. *)
Definition fcmTokenHandler (fcmToken : string) (oldToken : option string)
    (ru : Auth.AuthUser) : M Response :=
  w <- get ;;
  match users w !! Auth.userId ru with
  | None =>
      ret (mkResponse 404 (JObj [("success", JBool false);
                                 ("error", JStr "User not found")]))
  | Some user =>
      let tokens1 :=
        match oldToken with
        | Some old =>
            if truthy old && NotificationService.inList old (User.fcmTokens user)
            then filter (fun token => token ≠ old) (User.fcmTokens user)
            else User.fcmTokens user
        | None => User.fcmTokens user
        end in
      let tokens2 :=
        if negb (NotificationService.inList fcmToken tokens1)
        then tokens1 ++ [fcmToken] else tokens1 in
      let user' := UserMethods.setFcmTokens tokens2 user in
      modify (fun w =>
        set_users (alter (UserMethods.setFcmTokens tokens2) (Auth.userId ru)
                         (users w)) w) ;;
      modify (fun w =>
        set_userCache (<["user:" +:+ Auth.au_uid ru := user']> (userCache w)) w) ;;
      ret (mkResponse 200 (JObj [("success", JBool true);
                                 ("message", JStr "FCM token updated successfully")]))
  end.

(** The handler of [router.delete('/account', ...)]: the account is marked
    inactive and its cache entry deleted.  The schema has no
    [deactivatedAt], so that part of the update is dropped; its
    [new Date()] is still a reading of the clock. *)
Definition deleteAccountHandler (ru : Auth.AuthUser) : M Response :=
  newDate ;;
  modify (fun w =>
    set_users (alter (UserMethods.setIsActive false) (Auth.userId ru) (users w)) w) ;;
  modify (fun w => set_userCache (delete ("user:" +:+ Auth.au_uid ru) (userCache w)) w) ;;
  Logger.logAuth "account_deactivation" (Some (Auth.userId ru))
    (Some (User.email (Auth.dbUser ru))) "success"
    [("reason", JStr "user_request");
     ("subscription",
      JStr (User.statusName (User.status (User.subscription (Auth.dbUser ru)))))] ;;
  ret (mkResponse 200 (JObj [("success", JBool true);
                             ("message", JStr "Account deactivated successfully")])).

(** [router.post('/logout', authenticateToken, validate(logoutSchema), ...)] *)
Definition logout (fb : Auth.Firebase) (token : option string)
    (joiError : option string) (fcmToken : string) : M Response :=
  auth <- Auth.authenticateToken fb token ;;
  match auth with
  | inl response => ret response
  | inr ru =>
      validate joiError (Some (Auth.userId ru))
        (asyncHandler (logoutHandler fcmToken ru) (Some (Auth.userId ru)))
  end.

(** [router.delete('/account', authenticateToken, ...)] *)
Definition deleteAccount (fb : Auth.Firebase) (token : option string)
  : M Response :=
  auth <- Auth.authenticateToken fb token ;;
  match auth with
  | inl response => ret response
  | inr ru => asyncHandler (deleteAccountHandler ru) (Some (Auth.userId ru))
  end.

End AuthRoutes.

(* ===================================================================== *)
(** * routes/subscription.ts: cancelling *)
(* ===================================================================== *)

Module Cancel.

(** The update of [router.post('/cancel', ...)]. *)
Definition onCancel (cancelAtPeriodEnd : bool) (now : Date) (u : User.t) : User.t :=
  User.setSubscription
    (User.setCanceledAt (Some now)
       (User.setStatus (if cancelAtPeriodEnd then User.canceled else User.expired)
          (User.subscription u)))
    u.

(** The handler of [router.post('/cancel', authenticateToken, ...)].
    [subscriptionId] is the body's field, when present;
    [cancelAtPeriodEnd] is the truthiness of the body's field, [true] when
    the body has none.  [update id flag] is the provider's answer to
    [subscriptions.update(id, { cancel_at_period_end: flag })], [None] when
    it rejects. *)
Definition cancelHandler (update : string → bool → option Stripe.Subscription)
    (subscriptionId : option string) (cancelAtPeriodEnd : bool)
    (ru : Auth.AuthUser) : M Response :=
  let own := default "" (User.stripeSubscriptionId
                           (User.subscription (Auth.dbUser ru))) in
  if negb (truthy own) then
    ret (mkResponse 400 (JObj [("success", JBool false);
                               ("error", JStr "No active subscription found")]))
  else
    let target := match subscriptionId with
                  | Some id => if truthy id then id else own
                  | None => own
                  end in
    match update target cancelAtPeriodEnd with
    | None =>
        throw (mkError "StripeInvalidRequestError"
                 ("No such subscription: " +:+ target) (Some 404) None)
    | Some _ =>
        now <- newDate ;;
        modify (fun w =>
          set_users (alter (onCancel cancelAtPeriodEnd now) (Auth.userId ru)
                           (users w)) w) ;;
        Logger.logSubscription "subscription_canceled" (Auth.userId ru)
          [("subscriptionId", JStr target);
           ("cancelAtPeriodEnd", JBool cancelAtPeriodEnd);
           ("reason", JStr "user_request")]
          "success" ;;
        ret (mkResponse 200
               (JObj [("success", JBool true);
                      ("message",
                       JStr (if cancelAtPeriodEnd
                             then "Subscription will be canceled at period end"
                             else "Subscription canceled immediately"))]))
    end.

End Cancel.

(* ===================================================================== *)
(** * models/PromoCode.ts: generating a code *)
(* ===================================================================== *)

Module Generate.

(** [PromoCodeSchema.statics.generateUniqueCode(prefix)].  [randomPart i] is
    what [Math.random().toString(36).substring(2, 8).toUpperCase()] gives at
    the [i]-th attempt, and [existing code] tells whether
    [this.findOne({ code })] finds a document.  [attempt n i] is the loop
    with [n] attempts left, [i] made. *)
Fixpoint attempt (randomPart : nat → string) (existing : string → bool)
    (prefix : string) (n i : nat) : string + string :=
  match n with
  | O => inl "Unable to generate unique promo code"
  | S n =>
      let code := if truthy prefix then prefix +:+ randomPart i else randomPart i in
      if negb (existing code) then inr code
      else attempt randomPart existing prefix n (S i)
  end.

Definition maxAttempts : nat := 10.

Definition generateUniqueCode (randomPart : nat → string)
    (existing : string → bool) (prefix : string) : string + string :=
  attempt randomPart existing prefix maxAttempts 0.

End Generate.

(* ===================================================================== *)
(** * services/notificationService.ts: messages on request *)
(* ===================================================================== *)

Module Messages.

(** The milestones of [sendMotivationalMessage], in the order of the table. *)
Definition motivationalMessages : list (Z * string * string) :=
  [(3, "🔥 3-Day Streak!", "You're on fire! Keep the momentum going!");
   (7, "🌟 One Week Strong!", "Amazing consistency! You're building great habits!");
   (14, "💪 Two Weeks of Power!", "Your dedication is inspiring! Keep pushing forward!");
   (30, "🏆 30-Day Champion!", "Incredible milestone! You're a true fitness warrior!");
   (60, "🚀 60-Day Legend!", "Outstanding commitment! You're unstoppable!");
   (100, "👑 100-Day Master!", "Legendary achievement! You've built an unbreakable habit!")].

(** [sendMotivationalMessage(userId, fcmTokens, streak)] *)
Definition sendMotivationalMessage (fcm : Firebase.Messaging) (userId : string)
    (fcmTokens : list string) (streak : Z) : M unit :=
  tryCatch
    (if negb (NotificationService.nonEmpty fcmTokens) then ret tt
     else
       match List.find (fun m => m.1.1 =? streak) motivationalMessages with
       | None => ret tt
       | Some message =>
           Firebase.sendMulticastNotification fcm fcmTokens message.1.2 message.2
             [("type", "motivational"); ("userId", userId);
              ("streak", numberToString streak); ("action", "view_progress")] ;;
           ret tt
       end)
    (fun _ => ret tt).

(** [sendWelcomeNotification(userId, fcmTokens)] *)
Definition sendWelcomeNotification (fcm : Firebase.Messaging) (userId : string)
    (fcmTokens : list string) : M unit :=
  tryCatch
    (if negb (NotificationService.nonEmpty fcmTokens) then ret tt
     else
       Firebase.sendMulticastNotification fcm fcmTokens "🎉 Welcome to Gains!"
         "Start your fitness journey today! Take your first progress photos."
         [("type", "welcome"); ("userId", userId); ("action", "track_progress")] ;;
       ret tt)
    (fun _ => ret tt).

End Messages.

(* ===================================================================== *)
(** * Notions used by the further properties *)
(* ===================================================================== *)

(** The string has ASCII characters only; on these the case conversions of
    the embedding are JavaScript's. *)
Definition asciiOnly (s : string) : bool :=
  allChars (fun c => (nat_of_ascii c <? 128)%nat) s.

(** The counter of a code agrees with the list of accounts that used it. *)
Definition accounted (p : PromoCode.t) : Prop :=
  PromoCode.usedCount p = Z.of_nat (length (PromoCode.usedBy p)).

Definition allAccounted (m : gmap string PromoCode.t) : Prop :=
  ∀ k p, m !! k = Some p → accounted p.

(** The unique index on [firebaseUid] of the [User] collection. *)
Definition uniqueUids (m : gmap ObjectId User.t) : Prop :=
  ∀ id1 id2 u1 u2, m !! id1 = Some u1 → m !! id2 = Some u2 →
    User.firebaseUid u1 = User.firebaseUid u2 → id1 = id2.



(** Further sample data. *)
Module SampleMore.

(** A code that expires two milliseconds after [Sample.now0]. *)
Definition flash : PromoCode.t :=
  PromoCode.mk "650000000000000000000002" "FLASH" PromoCode.free_month
    None None true None 0 [] (Some 1700000000000) (Some (Sample.now0 + 2))
    Sample.adminId.

Definition wFlash : World :=
  set_promoCodes {[ "FLASH" := flash ]} Sample.w0.

(** A payment provider that also knows Alice's subscription [sub_alice],
    paid from 2025-01-10 to 2025-02-10. *)
Definition paid : Stripe.Subscription :=
  Stripe.mkSubscription "sub_alice" "cus_alice" "active" 1736467200 1739145600
    false.

Definition billing : Stripe.Api :=
  Stripe.mkApi (Stripe.customers_retrieve Sample.stripe)
    (fun id => if String.eqb id "sub_alice" then Some paid else None)
    (Stripe.customers_rejection Sample.stripe)
    (Stripe.subscriptions_rejection Sample.stripe).

Definition invoice : Stripe.Invoice :=
  Stripe.mkInvoice "in_1" (Some "sub_alice") 999 999 "usd" 1 None.

(** Carol: a paying subscriber, paid up to a month after [Sample.now0]. *)
Definition carolId : ObjectId := "64b7f0c2a1d4e5f6a7b8c9d2".

Definition carol : User.t :=
  User.mk carolId "fb-carol" "carol@example.com" ["tok-carol"]
    (User.mkSubscription User.active (Some "cus_carol") (Some "sub_carol")
       (Some Sample.now0) (Some (Sample.now0 + 30 * JSDate.msPerDay)) None None
       User.monthly)
    (User.mkSettings true []) true 0.

Definition wCarol : World := Sample.world {[ carolId := carol ]}.

End SampleMore.

(** The fields of an account other than its subscription sub-record and
    its [lastActiveAt]. *)
Definition profile (u : User.t)
  : ObjectId * string * string * list string * User.Settings * bool :=
  (User._id u, User.firebaseUid u, User.email u, User.fcmTokens u,
   User.settings u, User.isActive u).

(** Requests to [POST /:code/use], each with its bearer token and its
    code, served one after the other. *)
Definition serveRoute (fb : Auth.Firebase)
    (requests : list (option string * string)) : M unit :=
  forEach requests (fun r => PromoCodeRoutes.use fb r.1 r.2 ;; ret tt).

Module SampleCustomers.

(** [cus_malformed] carries an account id that is no ObjectId; [cus_ghost]
    carries Bob's id, an ObjectId of no account of [Sample.w0]. *)
Definition stripe : Stripe.Api :=
  Stripe.mkApi
    (fun id =>
       if String.eqb id "cus_malformed"
       then Some (Stripe.mkCustomer "cus_malformed" false {[ "userId" := "alice" ]})
       else if String.eqb id "cus_ghost"
       then Some (Stripe.mkCustomer "cus_ghost" false {[ "userId" := Sample.bobId ]})
       else Stripe.customers_retrieve Sample.stripe id)
    (fun _ => None)
    (Stripe.customers_rejection Sample.stripe)
    (Stripe.subscriptions_rejection Sample.stripe).

End SampleCustomers.

(** [t'] is what a date [k] months after [t] spills over to when the
    month [k] months on is too short for the day of the month of [t]: the
    day as many days into the following month as the month is short, at
    the same time of day. *)
Definition spilledOver (tza k : Z) (t t' : Date) : Prop :=
  let lt := JSDate.LocalTime tza t in
  let lt' := JSDate.LocalTime tza t' in
  let target := JSDate.MonthFromTime lt + k in
  12 * JSDate.YearFromTime lt' + JSDate.MonthFromTime lt'
  = 12 * JSDate.YearFromTime lt + target + 1
  ∧ JSDate.DateFromTime lt'
    = JSDate.DateFromTime lt
      - JSDate.DaysInMonth (JSDate.YearFromTime lt + target / 12) (target mod 12)
  ∧ JSDate.TimeWithinDay lt' = JSDate.TimeWithinDay lt.

Module SampleDates.

(** Dana: paid up to 2025-01-31. *)
Definition danaId : ObjectId := "64b7f0c2a1d4e5f6a7b8c9d3".

Definition dana : User.t :=
  User.mk danaId "fb-dana" "dana@example.com" []
    (User.mkSubscription User.active None None None
       (Some (JSDate.ofISODate 2025 1 31)) None None User.monthly)
    (User.mkSettings true []) true 0.

(** Erin: paid up to 2024-02-29. *)
Definition erinId : ObjectId := "64b7f0c2a1d4e5f6a7b8c9d4".

Definition erin : User.t :=
  User.mk erinId "fb-erin" "erin@example.com" []
    (User.mkSubscription User.active None None None
       (Some (JSDate.ofISODate 2024 2 29)) None None User.yearly)
    (User.mkSettings true []) true 0.

(** A [free_year] code without a usage limit. *)
Definition year : PromoCode.t :=
  PromoCode.mk "650000000000000000000003" "YEAR" PromoCode.free_year
    None None true None 0 [] (Some 1700000000000) None Sample.adminId.

Definition w : World :=
  set_promoCodes {[ "WELCOME" := Sample.welcome; "YEAR" := year ]}
    (Sample.world {[ danaId := dana; erinId := erin ]}).

End SampleDates.

(* ===================================================================== *)
(** * Properties *)
(* ===================================================================== *)
(** ** Running handlers *)

Ltac unfold_monad :=
  unfold asyncHandler, validate, tryCatch, bind, ret, throw, get, modify, newDate in *.

Lemma errorHandler_world error userId w :
  ∃ r record,
    errorHandler error userId w = (Returned r, set_logs (logs w ++ [record]) w)
    ∧ Log.type record = "error" ∧ Log.status record = "failure".
Proof.
  unfold errorHandler, Logger.logError, Logger.log. unfold_monad. simpl.
  repeat case_match; simplify_eq; eauto 10.
Qed.


Lemma errorHandler_frame error userId w :
  let w' := (errorHandler error userId w).2 in
  users w' = users w ∧ promoCodes w' = promoCodes w
  ∧ userCache w' = userCache w ∧ progress w' = progress w
  ∧ pushes w' = pushes w ∧ tick w' = tick w ∧ clock w' = clock w
  ∧ LocalTZA w' = LocalTZA w.
Proof.
  destruct (errorHandler_world error userId w) as (r & rcd & Hr & _).
  rewrite Hr. simpl. repeat split.
Qed.

Ltac use_errorHandler :=
  repeat match goal with
  | H : errorHandler ?e ?u ?w = _ |- _ =>
      let r := fresh "r" in
      let rcd := fresh "rcd" in
      let Hr := fresh "Hr" in
      let Ht := fresh "Ht" in
      let Hs := fresh "Hs" in
      destruct (errorHandler_world e u w) as (r & rcd & Hr & Ht & Hs);
      rewrite Hr in H; clear Hr; simplify_eq; simpl in *
  end.

Ltac goal_errorHandler :=
  repeat match goal with
  | |- context [errorHandler ?e ?u ?w] =>
      let r := fresh "r" in
      let rcd := fresh "rcd" in
      let Ht := fresh "Ht" in
      let Hs := fresh "Hs" in
      destruct (errorHandler_world e u w) as (r & rcd & -> & Ht & Hs); simpl
  end.

Ltac unfold_webhook :=
  unfold SubscriptionRoutes.webhook, SubscriptionRoutes.processEvent,
    SubscriptionRoutes.findByIdAndUpdate,
    Stripe.retrieveSubscription, Stripe.retrieveCustomer,
    Logger.logPayment, Logger.logSubscription, Logger.log in *;
  unfold_monad; simpl in *.

(** C8.  Processing an [invoice.payment_failed] event changes no account:
    the [User] collection, hence every subscription sub-record, is the
    same before and after, and so are the ledger, the cache, the progress
    entries and the pushes.  The only trace is at most one log record: the
    [payment_failed] record of type [payment] and status [failure], or the
    error record when a provider lookup rejects. *)
Theorem payment_failed_no_mutation api invoice w :
  let w' := (SubscriptionRoutes.webhook api
               (Some (Stripe.invoice_payment_failed invoice)) w).2 in
  users w' = users w
  ∧ (∀ id, User.subscription <$> users w' !! id
           = User.subscription <$> users w !! id)
  ∧ promoCodes w' = promoCodes w
  ∧ userCache w' = userCache w ∧ progress w' = progress w
  ∧ pushes w' = pushes w
  ∧ (logs w' = logs w
     ∨ ∃ record, logs w' = logs w ++ [record]
         ∧ (Log.type record = "error"
            ∨ (Log.type record = "payment"
               ∧ Log.action record = "payment_failed"
               ∧ Log.status record = "failure"))).
Proof.
  unfold_webhook.
  repeat case_match; simplify_eq; simpl; use_errorHandler; goal_errorHandler;
    repeat split; eauto 10.
Qed.

Lemma onSubscriptionUpdated_idem s u :
  SubscriptionRoutes.onSubscriptionUpdated s
    (SubscriptionRoutes.onSubscriptionUpdated s u)
  = SubscriptionRoutes.onSubscriptionUpdated s u.
Proof. reflexivity. Qed.

Lemma alter_idem {A} (f : A → A) (k : string) (m : gmap string A) :
  (∀ x, f (f x) = f x) → alter f k (alter f k m) = alter f k m.
Proof.
  intros Hf. apply map_eq. intros j.
  destruct (decide (k = j)) as [->|Hne].
  - rewrite !lookup_alter_eq. destruct (m !! j); simpl; [|done].
    f_equal. apply Hf.
  - by rewrite !lookup_alter_ne.
Qed.

(** C3.  Delivering the same [customer.subscription.updated] event a
    second time leaves every account, and so every subscription
    sub-record, as the first delivery left it (the provider answering the
    customer lookup alike both times). *)
Theorem subscription_updated_idempotent api subscription w :
  let deliver :=
    SubscriptionRoutes.webhook api
      (Some (Stripe.customer_subscription_updated subscription)) in
  let w1 := (deliver w).2 in
  let w2 := (deliver w1).2 in
  users w2 = users w1
  ∧ ∀ id, User.subscription <$> users w2 !! id
          = User.subscription <$> users w1 !! id.
Proof.
  cut (users (SubscriptionRoutes.webhook api
                (Some (Stripe.customer_subscription_updated subscription))
                (SubscriptionRoutes.webhook api
                   (Some (Stripe.customer_subscription_updated subscription)) w).2).2
       = users (SubscriptionRoutes.webhook api
                (Some (Stripe.customer_subscription_updated subscription)) w).2).
  { intros H. simpl. split; [done | by intros; rewrite H]. }
  unfold_webhook.
  repeat case_match; simplify_eq; simpl; use_errorHandler; goal_errorHandler;
    try done.
  apply alter_idem. intros. apply onSubscriptionUpdated_idem.
Qed.

Lemma mapStatus_spec s :
  (s = "trialing" → SubscriptionRoutes.mapStatus s = User.free_trial)
  ∧ (s = "active" → SubscriptionRoutes.mapStatus s = User.active)
  ∧ (s = "canceled" → SubscriptionRoutes.mapStatus s = User.canceled)
  ∧ (s ≠ "trialing" → s ≠ "active" → s ≠ "canceled" →
     SubscriptionRoutes.mapStatus s = User.expired).
Proof.
  unfold SubscriptionRoutes.mapStatus. repeat split.
  - by intros ->.
  - by intros ->.
  - by intros ->.
  - intros H1 H2 H3. apply String.eqb_neq in H1, H2, H3. by rewrite H1, H2, H3.
Qed.

#[local] Arguments SubscriptionRoutes.mapStatus : simpl never.

(** C4.  When the customer of a [customer.subscription.updated] event
    resolves to an account, the account's status becomes [free_trial] (the
    specification's [trial]) for [trialing], [active] for [active],
    [canceled] for [canceled] and [expired] for anything else, and
    [currentPeriodStart] and [currentPeriodEnd] become the instants of the
    snapshot's bounds (Unix seconds, hence times 1000), whatever they were
    before; nothing else of the account changes. *)
Theorem subscription_updated_overwrites
    api subscription customer userId oid account w :
  Stripe.customers_retrieve api (Stripe.customer subscription) = Some customer →
  SubscriptionRoutes.resolvedUserId customer = Some userId →
  castObjectId userId = Some oid →
  users w !! oid = Some account →
  let w' := (SubscriptionRoutes.webhook api
               (Some (Stripe.customer_subscription_updated subscription)) w).2 in
  ∃ account',
    users w' !! oid = Some account'
    ∧ (Stripe.status subscription = "trialing" →
       User.status (User.subscription account') = User.free_trial)
    ∧ (Stripe.status subscription = "active" →
       User.status (User.subscription account') = User.active)
    ∧ (Stripe.status subscription = "canceled" →
       User.status (User.subscription account') = User.canceled)
    ∧ (Stripe.status subscription ≠ "trialing" →
       Stripe.status subscription ≠ "active" →
       Stripe.status subscription ≠ "canceled" →
       User.status (User.subscription account') = User.expired)
    ∧ User.currentPeriodStart (User.subscription account')
      = Some (Stripe.current_period_start subscription * 1000)
    ∧ User.currentPeriodEnd (User.subscription account')
      = Some (Stripe.current_period_end subscription * 1000)
    ∧ account'
      = User.setSubscription
          (User.setCurrentPeriodEnd
             (User.currentPeriodEnd (User.subscription account'))
             (User.setCurrentPeriodStart
                (User.currentPeriodStart (User.subscription account'))
                (User.setStatus (User.status (User.subscription account'))
                   (User.subscription account))))
          account.
Proof.
  intros Hc Hu Hid Hacc. unfold_webhook.
  rewrite Hc, Hu, Hid. simpl. rewrite lookup_alter_eq, Hacc. simpl.
  eexists; split; [reflexivity|]. simpl.
  destruct (mapStatus_spec (Stripe.status subscription)) as (?&?&?&?).
  repeat split; auto.
Qed.

(** ** The promo-code ledger *)

Ltac unfold_promo :=
  unfold PromoCodeRoutes.useHandler, PromoCodeRoutes.apply,
    PromoCodeRoutes.applyHandler,
    SubscriptionRoutes.promoCode, PromoCodeRoutes.saveSubscription,
    PromoCodeModel.findValidCode, PromoCodeModel.use,
    Logger.logPromo, Logger.log in *;
  unfold_monad; simpl in *.

Lemma set_tick_eq n m w : n = m → set_tick n w = set_tick m w.
Proof. by intros ->. Qed.

Lemma findValidCode_run code userId w :
  PromoCodeModel.findValidCode code userId w
  = (Returned (PromoCodeModel.findValid (clock w (tick w))
                 (clock w (S (tick w))) (clock w (S (S (tick w))))
                 code userId (promoCodes w)),
     set_tick (match PromoCodeModel.findOne (clock w (tick w))
                       (clock w (S (tick w))) code (promoCodes w) with
               | Some _ => S (S (S (tick w)))
               | None => S (S (tick w))
               end) w).
Proof.
  unfold PromoCodeModel.findValidCode, PromoCodeModel.findValid.
  unfold_monad. simpl.
  destruct (PromoCodeModel.findOne _ _ _ _); reflexivity.
Qed.

Lemma applyBenefits_frame ty sub w :
  ∃ sub' n, PromoCodeRoutes.applyBenefits ty sub w
            = (Returned sub', set_tick (tick w + n) w).
Proof.
  unfold PromoCodeRoutes.applyBenefits. unfold_monad.
  destruct w as [c t z d pc us uc pr lg pu]; unfold set_tick; simpl.
  destruct ty; simpl; repeat case_match; simplify_eq;
    first [ by eexists _, 0%nat; rewrite Nat.add_0_r
          | by eexists _, 1%nat; rewrite Nat.add_1_r ].
Qed.

Ltac use_applyBenefits :=
  repeat match goal with
  | H : PromoCodeRoutes.applyBenefits ?ty ?sub ?w = _ |- _ =>
      let sub' := fresh "sub'" in
      let n := fresh "n" in
      let Hb := fresh "Hb" in
      destruct (applyBenefits_frame ty sub w) as (sub' & n & Hb);
      rewrite Hb in H; clear Hb; simplify_eq; simpl in *
  end.

(** What one run of the redemption handler does to the ledger. *)
Lemma useHandler_ledger code userId w :
  let t := tick w in
  let res := PromoCodeRoutes.useHandler code userId w in
  match PromoCodeModel.findValid (clock w t) (clock w (S t)) (clock w (S (S t)))
          code (Some userId) (promoCodes w) with
  | None =>
      res.1 = Returned (PromoCodeRoutes.invalidOrExpired 404)
      ∧ promoCodes res.2 = promoCodes w ∧ users res.2 = users w
      ∧ logs res.2 = logs w
  | Some p =>
      match PromoCode.use (clock w (S (S (S t)))) p userId with
      | inl reason =>
          res.1 = Returned (mkResponse 400 (JObj [("success", JBool false);
                                                  ("error", JStr reason)]))
          ∧ promoCodes res.2 = promoCodes w ∧ users res.2 = users w
      | inr p' =>
          promoCodes res.2 = PromoCodeModel.saveUse p' userId (promoCodes w)
          ∧ ∃ r, res.1 = Returned r ∧ (status r = 200 ∨ status r = 404)
      end
  end.
Proof.
  intros t res. subst t res.
  destruct (PromoCodeRoutes.useHandler code userId w) as [o w'] eqn:Hrun.
  unfold PromoCodeModel.findValid. unfold_promo.
  destruct (PromoCodeModel.findOne _ _ _ _) as [p0|] eqn:Hf; simpl in *;
    [|by simplify_eq].
  destruct (PromoCode.valid _) eqn:Hv; simpl in *; [|by simplify_eq].
  destruct (PromoCode.use _ p0 userId) as [reason|p'] eqn:Hu; simpl in *;
    [by simplify_eq|].
  destruct (users w !! userId) eqn:Hus; simpl in *; [|simplify_eq; eauto].
  repeat case_match; use_applyBenefits; simplify_eq; simpl; eauto 10.
Qed.

Lemma isValid_true now p userId :
  PromoCode.valid (PromoCode.isValid now p (Some userId)) = true →
  (userId ∉ PromoCode.usedBy p)
  ∧ (∀ L, PromoCode.usageLimit p = Some L → L ≠ 0 → PromoCode.usedCount p < L).
Proof.
  unfold PromoCode.isValid, PromoCode.invalid, PromoCode.includes.
  destruct (negb (PromoCode.isActive p)); [done|].
  destruct (match PromoCode.validFrom p with Some _ => _ | None => _ end); [done|].
  destruct (match PromoCode.validUntil p with Some _ => _ | None => _ end); [done|].
  destruct (PromoCode.usageLimit p) as [limit|] eqn:Hlimit.
  - destruct (negb (limit =? 0) && (limit <=? PromoCode.usedCount p)) eqn:Hl;
      [done|].
    destruct (bool_decide (userId ∈ PromoCode.usedBy p)) eqn:Hin; [done|].
    intros _. split; [by apply bool_decide_eq_false in Hin|].
    intros L [= <-] HL.
    apply andb_false_iff in Hl as [Hl|Hl].
    + apply negb_false_iff, Z.eqb_eq in Hl. done.
    + by apply Z.leb_gt in Hl.
  - destruct (bool_decide (userId ∈ PromoCode.usedBy p)) eqn:Hin; [done|].
    intros _. split; [by apply bool_decide_eq_false in Hin | done].
Qed.

Lemma use_inr now p userId p' :
  PromoCode.use now p userId = inr p' →
  PromoCode.code p' = PromoCode.code p
  ∧ PromoCode.usageLimit p' = PromoCode.usageLimit p
  ∧ PromoCode.usedCount p' = PromoCode.usedCount p + 1
  ∧ PromoCode.usedBy p' = (PromoCode.usedBy p ++ [userId])
  ∧ (userId ∉ PromoCode.usedBy p)
  ∧ (∀ L, PromoCode.usageLimit p = Some L → L ≠ 0 → PromoCode.usedCount p < L).
Proof.
  unfold PromoCode.use.
  destruct (PromoCode.valid _) eqn:Hv; simpl; [|done].
  intros [= <-]. simpl. apply isValid_true in Hv as [? ?]. done.
Qed.

Lemma isValid_already_used now p userId :
  userId ∈ PromoCode.usedBy p →
  PromoCode.valid (PromoCode.isValid now p (Some userId)) = false.
Proof.
  intros Hin.
  destruct (PromoCode.valid _) eqn:Hv; [|done].
  apply isValid_true in Hv as [Hv _]. done.
Qed.

Lemma findOne_Some now1 now2 code m p :
  PromoCodeModel.findOne now1 now2 code m = Some p →
  m !! toUpperCase code = Some p.
Proof.
  unfold PromoCodeModel.findOne. repeat case_match; naive_solver.
Qed.

Lemma findValid_Some now1 now2 now3 code userId m p :
  PromoCodeModel.findValid now1 now2 now3 code userId m = Some p →
  m !! toUpperCase code = Some p.
Proof.
  unfold PromoCodeModel.findValid.
  destruct (PromoCodeModel.findOne _ _ _ _) eqn:Hf; [|done].
  case_match; [|done]. intros [= <-]. by eapply findOne_Some.
Qed.

Lemma findValid_already_used now1 now2 now3 code userId m p :
  m !! toUpperCase code = Some p →
  userId ∈ PromoCode.usedBy p →
  PromoCodeModel.findValid now1 now2 now3 code (Some userId) m = None.
Proof.
  intros Hm Hin. unfold PromoCodeModel.findValid, PromoCodeModel.findOne.
  rewrite Hm. destruct (PromoCodeModel.matches _ _ _); [|done].
  by rewrite (isValid_already_used _ _ _ Hin).
Qed.

(** A handler run to completion keeps the invariants of the ledger. *)
Lemma useHandler_invariants code userId w :
  keyed (promoCodes w) →
  let m' := promoCodes (PromoCodeRoutes.useHandler code userId w).2 in
  keyed m'
  ∧ (allWithinLimit (promoCodes w) → allWithinLimit m')
  ∧ (noDuplicates (promoCodes w) → noDuplicates m').
Proof.
  intros Hk. simpl.
  pose proof (useHandler_ledger code userId w) as H. simpl in H.
  destruct (PromoCodeModel.findValid _ _ _ _ _ _) as [p|] eqn:Hf.
  2:{ destruct H as (_ & -> & _). done. }
  destruct (PromoCode.use _ p userId) as [reason|p'] eqn:Hu.
  { destruct H as (_ & -> & _). done. }
  destruct H as [-> _].
  apply findValid_Some in Hf.
  destruct (use_inr _ _ _ _ Hu) as (Hc & Hl & Hn & Hb & Hnin & Hlt).
  pose proof (Hk _ _ Hf) as Hkey.
  unfold PromoCodeModel.saveUse. rewrite Hc, Hkey.
  repeat split.
  - intros k q. destruct (decide (toUpperCase code = k)) as [<-|Hne].
    + rewrite lookup_alter_eq, Hf. simpl. intros [= <-]. done.
    + rewrite lookup_alter_ne by done. apply Hk.
  - intros Hw k q. destruct (decide (toUpperCase code = k)) as [<-|Hne].
    + rewrite lookup_alter_eq, Hf. simpl. intros [= <-] L. simpl.
      intros HL HL0. rewrite Hn. specialize (Hlt L HL HL0). lia.
    + rewrite lookup_alter_ne by done. apply Hw.
  - intros Hd k q. destruct (decide (toUpperCase code = k)) as [<-|Hne].
    + rewrite lookup_alter_eq, Hf. simpl. intros [= <-]. simpl.
      apply NoDup_app. split; [by eapply Hd|]. split; [|apply NoDup_singleton].
      intros x Hx Hx'. apply list_elem_of_singleton in Hx'. by subst.
    + rewrite lookup_alter_ne by done. apply Hd.
Qed.

Lemma useHandler_returns code userId w :
  ∃ r, PromoCodeRoutes.useHandler code userId w
       = (Returned r, (PromoCodeRoutes.useHandler code userId w).2).
Proof.
  pose proof (useHandler_ledger code userId w) as H. simpl in H.
  destruct (PromoCodeRoutes.useHandler code userId w) as [o w'] eqn:Hrun.
  simpl in *.
  destruct (PromoCodeModel.findValid _ _ _ _ _ _) as [q|].
  2:{ destruct H as (-> & _). eauto. }
  destruct (PromoCode.use _ q userId) as [reason|q'].
  - destruct H as (-> & _). eauto.
  - destruct H as (_ & r & -> & _). eauto.
Qed.

Lemma serve_nil w : serve [] w = (Returned tt, w).
Proof. reflexivity. Qed.

Lemma serve_cons code userId requests w :
  serve ((code, userId) :: requests) w
  = serve requests (PromoCodeRoutes.useHandler code userId w).2.
Proof.
  unfold serve at 1. simpl. unfold bind at 1. unfold bind at 1.
  destruct (useHandler_returns code userId w) as [r ->]. reflexivity.
Qed.

Lemma serve_invariants requests : ∀ w,
  keyed (promoCodes w) →
  let m' := promoCodes (serve requests w).2 in
  keyed m'
  ∧ (allWithinLimit (promoCodes w) → allWithinLimit m')
  ∧ (noDuplicates (promoCodes w) → noDuplicates m').
Proof.
  induction requests as [|[code userId] requests IH]; intros w Hk; simpl.
  - done.
  - rewrite serve_cons.
    destruct (useHandler_invariants code userId w Hk) as (Hk1 & Hw1 & Hd1).
    destruct (IH _ Hk1) as (Hk2 & Hw2 & Hd2). simpl in *.
    repeat split; auto.
Qed.

(** ** Overlapping requests *)

Lemma exec_invariants a c :
  keyed c.1 → allWithinLimit c.1 → tasksConsistent c →
  keyed (Interleaving.exec a c).1
  ∧ allWithinLimit (Interleaving.exec a c).1
  ∧ tasksConsistent (Interleaving.exec a c).
Proof.
  intros Hk Hw Hc. destruct c as [store tasks]. simpl in *.
  destruct a as [i now1 now2 now3 | i now]; simpl.
  - destruct (tasks !! i) as [[code userId| | |]|] eqn:Hi; simpl; try done.
    repeat split; try done.
    intros j p u Hj. simpl in *.
    apply list_lookup_insert_Some in Hj as [(<- & Heq & _)|(Hne & Hj)].
    + destruct (PromoCodeModel.findValid _ _ _ _ _ _) as [q|] eqn:Hf; [|done].
      simplify_eq. apply findValid_Some in Hf.
      exists p. split; [|done]. by rewrite (Hk _ _ Hf).
    + by eapply Hc.
  - destruct (tasks !! i) as [[|p userId| |]|] eqn:Hi; simpl; try done.
    destruct (PromoCode.use now p userId) as [reason|p'] eqn:Hu; simpl.
    + repeat split; try done.
      intros j q u Hj. simpl in *.
      apply list_lookup_insert_Some in Hj as [(<- & Heq & _)|(Hne & Hj)];
        [done | by eapply Hc].
    + destruct (use_inr _ _ _ _ Hu) as (Hcode & Hl & Hn & Hb & Hnin & Hlt).
      destruct (Hc i p userId Hi) as (sp & Hsp & Hlim). simpl in *.
      unfold PromoCodeModel.saveUse. rewrite Hcode.
      repeat split.
      * intros k q. destruct (decide (PromoCode.code p = k)) as [<-|Hne].
        -- rewrite lookup_alter_eq, Hsp. simpl. intros [= <-]. simpl.
           by apply Hk.
        -- rewrite lookup_alter_ne by done. apply Hk.
      * intros k q. destruct (decide (PromoCode.code p = k)) as [<-|Hne].
        -- rewrite lookup_alter_eq, Hsp. simpl. intros [= <-] L. simpl.
           rewrite Hlim. intros HL HL0. specialize (Hlt L HL HL0). lia.
        -- rewrite lookup_alter_ne by done. apply Hw.
      * intros j q u Hj. simpl in *.
        assert (tasks !! j = Some (Interleaving.Loaded q u)) as Hq.
        { apply list_lookup_insert_Some in Hj as [(<- & Heq & _)|(Hne & Hj)];
            [done | done]. }
        destruct (Hc j q u Hq) as (sq & Hsq & Hlq). simpl in *.
        destruct (decide (PromoCode.code p = PromoCode.code q)) as [He|Hne].
        -- rewrite <- He in *. rewrite lookup_alter_eq, Hsp. simpl.
           eexists; split; [done|]. simpl. congruence.
        -- rewrite lookup_alter_ne by done. eauto.
Qed.

Lemma run_invariants schedule : ∀ c,
  keyed c.1 → allWithinLimit c.1 → tasksConsistent c →
  allWithinLimit (Interleaving.run schedule c).1.
Proof.
  induction schedule as [|a schedule IH]; intros c Hk Hw Hc; simpl; [done|].
  destruct (exec_invariants a c Hk Hw Hc) as (?&?&?). by apply IH.
Qed.

Lemma pending_consistent store tasks :
  Forall (fun t => Interleaving.isPending t = true) tasks →
  tasksConsistent (store, tasks).
Proof.
  intros Hall i p u Hi. simpl in Hi.
  apply (Forall_lookup_1 _ _ _ _ Hall) in Hi. done.
Qed.

Lemma use_applySave now p userId p' :
  PromoCode.use now p userId = inr p' → PromoCode.applySave p' userId p = p'.
Proof.
  unfold PromoCode.use. destruct (PromoCode.valid _); [|done].
  by intros [= <-].
Qed.

(** Without overlap a redemption is a conditional update of the stored
    document. *)
Lemma useHandler_conditional_update code userId w :
  keyed (promoCodes w) →
  let m' := promoCodes (PromoCodeRoutes.useHandler code userId w).2 in
  m' = promoCodes w
  ∨ ∃ now p p',
      promoCodes w !! toUpperCase code = Some p
      ∧ PromoCode.use now p userId = inr p'
      ∧ m' = <[toUpperCase code := p']> (promoCodes w).
Proof.
  intros Hk. simpl.
  pose proof (useHandler_ledger code userId w) as H. simpl in H.
  destruct (PromoCodeModel.findValid _ _ _ _ _ _) as [p|] eqn:Hf.
  2:{ destruct H as (_ & -> & _). by left. }
  destruct (PromoCode.use _ p userId) as [reason|p'] eqn:Hu.
  { destruct H as (_ & -> & _). by left. }
  destruct H as [-> _]. right.
  apply findValid_Some in Hf.
  destruct (use_inr _ _ _ _ Hu) as (Hc & _).
  eexists _, p, p'. split; [done|]. split; [done|].
  unfold PromoCodeModel.saveUse. rewrite Hc, (Hk _ _ Hf).
  apply map_eq. intros k. destruct (decide (toUpperCase code = k)) as [<-|Hne].
  - rewrite lookup_alter_eq, lookup_insert_eq, Hf. simpl.
    by rewrite (use_applySave _ _ _ _ Hu).
  - by rewrite lookup_alter_ne, lookup_insert_ne.
Qed.

(** C1, amended.  From a ledger that meets its invariants: after any
    interleaving of the steps of any number of redemption requests no
    limited code has [usedCount] above its limit (a save writes the loaded
    counter plus one, and the loaded counter was below the limit); after
    any number of redemptions served one after the other, moreover, no
    [usedBy] holds an account twice; and one handler run alone either
    leaves the ledger as it is or replaces the stored document by the
    result of [use] on it, a conditional update. *)
Theorem redemption_invariants schedule tasks requests code userId w :
  keyed (promoCodes w) →
  allWithinLimit (promoCodes w) →
  noDuplicates (promoCodes w) →
  Forall (fun t => Interleaving.isPending t = true) tasks →
  allWithinLimit (Interleaving.run schedule (promoCodes w, tasks)).1
  ∧ allWithinLimit (promoCodes (serve requests w).2)
  ∧ noDuplicates (promoCodes (serve requests w).2)
  ∧ (let m' := promoCodes (PromoCodeRoutes.useHandler code userId w).2 in
     m' = promoCodes w
     ∨ ∃ now p p',
         promoCodes w !! toUpperCase code = Some p
         ∧ PromoCode.use now p userId = inr p'
         ∧ m' = <[toUpperCase code := p']> (promoCodes w)).
Proof.
  intros Hk Hw Hd Hp.
  destruct (serve_invariants requests w Hk) as (_ & H1 & H2).
  split; [|split; [|split]]; auto.
  - apply run_invariants; [done | done | by apply pending_consistent].
  - by apply useHandler_conditional_update.
Qed.

(** ** Repeated redemption *)

Lemma useHandler_success_recorded code userId w :
  keyed (promoCodes w) →
  succeeded (PromoCodeRoutes.useHandler code userId w).1 = true →
  ∃ p, promoCodes (PromoCodeRoutes.useHandler code userId w).2 !! toUpperCase code
       = Some p
       ∧ userId ∈ PromoCode.usedBy p.
Proof.
  intros Hk Hs.
  pose proof (useHandler_ledger code userId w) as H. simpl in H.
  destruct (PromoCodeModel.findValid _ _ _ _ _ _) as [p|] eqn:Hf.
  2:{ destruct H as (Hr & _). rewrite Hr in Hs. done. }
  destruct (PromoCode.use _ p userId) as [reason|p'] eqn:Hu.
  { destruct H as (Hr & _). rewrite Hr in Hs. done. }
  destruct H as [-> _].
  apply findValid_Some in Hf.
  destruct (use_inr _ _ _ _ Hu) as (Hc & _).
  unfold PromoCodeModel.saveUse. rewrite Hc, (Hk _ _ Hf).
  rewrite lookup_alter_eq, Hf. simpl. eexists; split; [done|]. simpl.
  set_solver.
Qed.

Lemma useHandler_keeps_usedBy code userId w K u p :
  promoCodes w !! K = Some p → u ∈ PromoCode.usedBy p →
  ∃ p', promoCodes (PromoCodeRoutes.useHandler code userId w).2 !! K = Some p'
        ∧ u ∈ PromoCode.usedBy p'.
Proof.
  intros HK Hu.
  pose proof (useHandler_ledger code userId w) as H. simpl in H.
  destruct (PromoCodeModel.findValid _ _ _ _ _ _) as [q|].
  2:{ destruct H as (_ & -> & _). eauto. }
  destruct (PromoCode.use _ q userId) as [reason|q'].
  { destruct H as (_ & -> & _). eauto. }
  destruct H as [-> _]. unfold PromoCodeModel.saveUse.
  destruct (decide (PromoCode.code q' = K)) as [<-|Hne].
  - rewrite lookup_alter_eq, HK. simpl. eexists; split; [done|]. simpl.
    set_solver.
  - rewrite lookup_alter_ne by done. eauto.
Qed.

Lemma serve_keeps_usedBy requests : ∀ w K u p,
  promoCodes w !! K = Some p → u ∈ PromoCode.usedBy p →
  ∃ p', promoCodes (serve requests w).2 !! K = Some p'
        ∧ u ∈ PromoCode.usedBy p'.
Proof.
  induction requests as [|[code userId] requests IH]; intros w K u p HK Hu.
  - simpl. eauto.
  - rewrite serve_cons.
    destruct (useHandler_keeps_usedBy code userId w K u p HK Hu) as (p' & ? & ?).
    eauto.
Qed.

Lemma isValid_reason_already_used now p userId :
  userId ∈ PromoCode.usedBy p →
  PromoCode.valid (PromoCode.isValid now p None) = true →
  PromoCode.isValid now p (Some userId)
  = PromoCode.invalid "You have already used this promo code".
Proof.
  intros Hin. unfold PromoCode.isValid, PromoCode.invalid, PromoCode.includes.
  destruct (negb (PromoCode.isActive p)); [done|].
  destruct (match PromoCode.validFrom p with Some _ => _ | None => _ end); [done|].
  destruct (match PromoCode.validUntil p with Some _ => _ | None => _ end); [done|].
  destruct (match PromoCode.usageLimit p with Some _ => _ | None => _ end); [done|].
  intros _. by rewrite bool_decide_eq_true_2.
Qed.

(** ** Validation endpoints *)

Lemma setLastActiveAt_id u : User.setLastActiveAt (User.lastActiveAt u) u = u.
Proof. by destruct u. Qed.

Lemma setLastActiveAt_twice d d' u :
  User.setLastActiveAt d (User.setLastActiveAt d' u) = User.setLastActiveAt d u.
Proof. reflexivity. Qed.

Lemma touched_refl m : touched m m.
Proof.
  intros id u Hu. exists (User.lastActiveAt u). by rewrite setLastActiveAt_id.
Qed.

Lemma touched_alter now k m m' :
  touched m m' → touched m (alter (User.setLastActiveAt now) k m').
Proof.
  intros Hm id u Hu. destruct (Hm id u Hu) as [d Hd].
  destruct (decide (k = id)) as [->|Hne].
  - rewrite lookup_alter_eq, Hd. simpl. eauto.
  - rewrite lookup_alter_ne by done. eauto.
Qed.

Lemma touched_insert k x m :
  m !! k = None → touched m (<[k := x]> m).
Proof.
  intros Hk id u Hu. rewrite lookup_insert_ne by congruence.
  by apply touched_refl.
Qed.

Lemma authenticateToken_frame fb token w :
  let r := Auth.authenticateToken fb token w in
  promoCodes r.2 = promoCodes w
  ∧ progress r.2 = progress w
  ∧ pushes r.2 = pushes w
  ∧ touched (users w) (users r.2)
  ∧ ∃ x, r.1 = Returned x.
Proof.
  simpl.
  destruct (Auth.authenticateToken fb token w) as [o w'] eqn:Hrun.
  unfold Auth.authenticateToken, Auth.insertUser, Logger.logAuth, Logger.log in Hrun.
  unfold_monad. simpl in *.
  repeat case_match; simplify_eq; simpl; repeat split;
    eauto using touched_refl, touched_alter, touched_insert.
Qed.

Lemma findValidCode_frame code userId w :
  let r := PromoCodeModel.findValidCode code userId w in
  promoCodes r.2 = promoCodes w ∧ users r.2 = users w
  ∧ userCache r.2 = userCache w ∧ progress r.2 = progress w
  ∧ pushes r.2 = pushes w ∧ logs r.2 = logs w.
Proof. simpl. rewrite findValidCode_run. done. Qed.

Lemma apply_frame joiError code w :
  let r := PromoCodeRoutes.apply joiError code w in
  promoCodes r.2 = promoCodes w ∧ users r.2 = users w
  ∧ userCache r.2 = userCache w ∧ progress r.2 = progress w
  ∧ pushes r.2 = pushes w.
Proof.
  simpl.
  destruct (PromoCodeRoutes.apply joiError code w) as [o w'] eqn:Hrun.
  unfold_promo.
  repeat case_match; simplify_eq; simpl; use_errorHandler; done.
Qed.

Lemma promoCode_handler_frame joiError code userId w :
  let r := validate joiError (Some userId)
             (asyncHandler (SubscriptionRoutes.promoCodeHandler code userId)
                (Some userId)) w in
  promoCodes r.2 = promoCodes w ∧ users r.2 = users w.
Proof.
  simpl.
  match goal with |- context [validate ?a ?b ?c w] =>
    destruct (validate a b c w) as [o w'] eqn:Hrun end.
  unfold SubscriptionRoutes.promoCodeHandler in Hrun. unfold_promo.
  repeat case_match; simplify_eq; simpl; use_errorHandler; done.
Qed.

(** ** The calendar *)

#[local] Arguments Z.mul : simpl never.
#[local] Arguments Z.add : simpl never.
#[local] Arguments Z.sub : simpl never.
#[local] Arguments Z.div : simpl never.
#[local] Arguments Z.modulo : simpl never.

Ltac div_lia := Z.div_mod_to_equations; lia.

Lemma startOfYear_mono a b : a ≤ b → startOfYear a ≤ startOfYear b.
Proof. unfold startOfYear. intros. div_lia. Qed.

Lemma yearOfEra_recover doe :
  0 ≤ doe < 146097 →
  let q := (doe - doe / 1460 + doe / 36524 - doe / 146096) / 365 in
  0 ≤ q < 400 ∧ startOfYear q ≤ doe < startOfYear (q + 1).
Proof. intros H q. subst q. unfold startOfYear. div_lia. Qed.

Lemma yearOfEra_unique doe y :
  0 ≤ y < 400 → startOfYear y ≤ doe < startOfYear (y + 1) →
  (doe - doe / 1460 + doe / 36524 - doe / 146096) / 365 = y.
Proof.
  intros Hy Hd.
  assert (0 ≤ doe < 146097) as Hr.
  { pose proof (startOfYear_mono 0 y ltac:(lia)).
    pose proof (startOfYear_mono (y + 1) 400 ltac:(lia)).
    unfold startOfYear in *. div_lia. }
  destruct (yearOfEra_recover doe Hr) as [Hq Hs].
  set (q := (doe - doe / 1460 + doe / 36524 - doe / 146096) / 365) in *.
  destruct (Z.lt_trichotomy q y) as [Hlt|[Heq|Hgt]]; [|done|].
  - pose proof (startOfYear_mono (q + 1) y ltac:(lia)). lia.
  - pose proof (startOfYear_mono (y + 1) q ltac:(lia)). lia.
Qed.

(** Day of the (March-based) year to month and day, and back. *)
Lemma dayOfYear_decode doy :
  0 ≤ doy ≤ 365 →
  let mp := (5 * doy + 2) / 153 in
  let d := doy - (153 * mp + 2) / 5 + 1 in
  0 ≤ mp ≤ 11 ∧ 1 ≤ d ≤ 31 ∧ (153 * mp + 2) / 5 + d - 1 = doy.
Proof. intros H mp d. subst mp d. div_lia. Qed.

Lemma dayOfYear_encode mp d :
  0 ≤ mp ≤ 11 → 1 ≤ d ≤ 31 →
  (mp = 1 ∨ mp = 3 ∨ mp = 6 ∨ mp = 8 → d ≤ 30) →
  (mp = 11 → d ≤ 29) →
  let doy := (153 * mp + 2) / 5 + d - 1 in
  (5 * doy + 2) / 153 = mp ∧ 0 ≤ doy ≤ 365 ∧ (mp ≤ 10 → doy ≤ 336).
Proof.
  intros Hm Hd H30 H29 doy. subst doy.
  assert (mp = 0 ∨ mp = 1 ∨ mp = 2 ∨ mp = 3 ∨ mp = 4 ∨ mp = 5 ∨ mp = 6
          ∨ mp = 7 ∨ mp = 8 ∨ mp = 9 ∨ mp = 10 ∨ mp = 11) as Hcases by lia.
  destruct_or!; subst mp; div_lia.
Qed.

Lemma era_split era yoe :
  0 ≤ yoe < 400 →
  (yoe + era * 400) / 400 = era ∧ (yoe + era * 400) mod 400 = yoe.
Proof. intros. div_lia. Qed.

Lemma era_day_split era doe :
  0 ≤ doe < 146097 →
  (era * 146097 + doe) / 146097 = era ∧ (era * 146097 + doe) mod 146097 = doe.
Proof. intros. div_lia. Qed.

(** The civil date of a day number is that day. *)
Lemma DayFromCivil_CivilFromDay z :
  ∃ y m d, JSDate.CivilFromDay z = (y, m, d)
    ∧ 1 ≤ m ≤ 12 ∧ 1 ≤ d ≤ 31
    ∧ JSDate.DayFromCivil y m d = z.
Proof.
  unfold JSDate.CivilFromDay, JSDate.CivilOfEra.
  set (z' := z + 719468).
  assert (0 ≤ z' mod 146097 < 146097) as Hdoe by (apply Z.mod_pos_bound; lia).
  assert (z' = (z' / 146097) * 146097 + z' mod 146097) as Hz' by div_lia.
  set (doe := z' mod 146097) in *. set (era := z' / 146097) in *.
  destruct (yearOfEra_recover doe Hdoe) as [Hq Hs].
  set (yoe := (doe - doe / 1460 + doe / 36524 - doe / 146096) / 365) in *.
  set (doy := doe - (365 * yoe + yoe / 4 - yoe / 100)).
  assert (0 ≤ doy ≤ 365) as Hdoy.
  { unfold startOfYear in Hs. subst doy. div_lia. }
  destruct (dayOfYear_decode doy Hdoy) as (Hmp & Hd & Hback).
  set (mp := (5 * doy + 2) / 153) in *.
  set (d := doy - (153 * mp + 2) / 5 + 1) in *.
  eexists _, _, _. split; [reflexivity|].
  split; [destruct (mp <? 10) eqn:E; lia|]. split; [lia|].
  unfold JSDate.DayFromCivil, JSDate.DayOfEra.
  set (m := if mp <? 10 then mp + 3 else mp - 9).
  assert ((m + 9) mod 12 = mp) as ->.
  { subst m. destruct (mp <? 10) eqn:E; div_lia. }
  assert ((if m <=? 2
           then yoe + era * 400 + (if m <=? 2 then 1 else 0) - 1
           else yoe + era * 400 + (if m <=? 2 then 1 else 0))
          = yoe + era * 400) as ->.
  { destruct (m <=? 2); lia. }
  destruct (era_split era yoe Hq) as [-> ->].
  rewrite Hback. subst doy z'. lia.
Qed.

Lemma InLeapYear_spec y :
  JSDate.InLeapYear y = true
  ↔ (y mod 4 = 0 ∧ y mod 100 ≠ 0) ∨ y mod 400 = 0.
Proof.
  unfold JSDate.InLeapYear.
  rewrite orb_true_iff, andb_true_iff, negb_true_iff, !Z.eqb_eq, Z.eqb_neq.
  done.
Qed.

Lemma DaysInMonth_bounds y month d :
  0 ≤ month ≤ 11 → d ≤ JSDate.DaysInMonth y month →
  d ≤ 31
  ∧ (month = 3 ∨ month = 5 ∨ month = 8 ∨ month = 10 → d ≤ 30)
  ∧ (month = 1 →
     d ≤ 28 ∨ (d ≤ 29 ∧ ((y mod 4 = 0 ∧ y mod 100 ≠ 0) ∨ y mod 400 = 0))).
Proof.
  intros Hm. unfold JSDate.DaysInMonth.
  destruct (month =? 1) eqn:E1.
  - apply Z.eqb_eq in E1. subst.
    destruct (JSDate.InLeapYear y) eqn:El.
    + apply InLeapYear_spec in El. intros.
      split; [lia|]. split; [lia|]. intros _. right. split; [lia|done].
    + intros. split; [lia|]. split; [lia|]. intros _. left. lia.
  - apply Z.eqb_neq in E1.
    destruct ((month =? 3) || (month =? 5) || (month =? 8) || (month =? 10)) eqn:E.
    + intros. split; [lia|]. split; [lia|]. lia.
    + rewrite !orb_false_iff, !Z.eqb_neq in E. intros.
      split; [lia|]. split; lia.
Qed.

Ltac split_le2 m :=
  let E := fresh "E" in
  destruct (m <=? 2) eqn:E; rewrite ?E in *;
  [apply Z.leb_le in E | apply Z.leb_gt in E].

(** A date of the calendar is the civil date of its day number. *)
Lemma CivilFromDay_DayFromCivil y m d :
  1 ≤ m ≤ 12 → 1 ≤ d ≤ JSDate.DaysInMonth y (m - 1) →
  JSDate.CivilFromDay (JSDate.DayFromCivil y m d) = (y, m, d).
Proof.
  intros Hm Hd.
  destruct (DaysInMonth_bounds y (m - 1) d ltac:(lia) ltac:(lia))
    as (H31 & H30 & H29).
  unfold JSDate.DayFromCivil, JSDate.DayOfEra.
  set (y' := if m <=? 2 then y - 1 else y).
  assert (y = y' + (if m <=? 2 then 1 else 0)) as Hy.
  { subst y'. destruct (m <=? 2); lia. }
  assert (0 ≤ y' mod 400 < 400) as Hyoe by (apply Z.mod_pos_bound; lia).
  assert (y' = y' mod 400 + (y' / 400) * 400) as Hy' by div_lia.
  set (yoe := y' mod 400) in *. set (era := y' / 400) in *.
  set (mp := (m + 9) mod 12).
  assert (mp = if m <=? 2 then m + 9 else m - 3) as Hmp.
  { subst mp. split_le2 m; div_lia. }
  destruct (dayOfYear_encode mp d) as (Hdec & Hdoy & H336).
  { split_le2 m; lia. }
  { lia. }
  { intros. apply H30. split_le2 m; lia. }
  { intros. split_le2 m; [|lia]. destruct H29 as [?|[? _]]; lia. }
  set (doy := (153 * mp + 2) / 5 + d - 1) in *.
  set (doe := yoe * 365 + yoe / 4 - yoe / 100 + doy).
  assert (startOfYear yoe ≤ doe < startOfYear (yoe + 1)) as Hs.
  { unfold startOfYear. subst doe.
    destruct (decide (mp ≤ 10)) as [Hle|Hgt].
    - specialize (H336 Hle). div_lia.
    - assert (m = 2) as Hm2 by (split_le2 m; lia).
      assert (doy = 337 + d - 1) as Hdoy' by (subst doy; div_lia).
      destruct H29 as [H28|[H29 Hleap]]; [lia| |].
      + div_lia.
      + subst m. simpl in Hy. rewrite Hy, Hy' in Hleap. div_lia. }
  unfold JSDate.CivilFromDay.
  replace (era * 146097 + doe - 719468 + 719468) with (era * 146097 + doe) by lia.
  assert (0 ≤ doe < 146097) as Hdoe.
  { pose proof (startOfYear_mono 0 yoe ltac:(lia)).
    pose proof (startOfYear_mono (yoe + 1) 400 ltac:(lia)).
    unfold startOfYear in *. div_lia. }
  destruct (era_day_split era doe Hdoe) as [-> ->].
  unfold JSDate.CivilOfEra.
  rewrite (yearOfEra_unique doe yoe Hyoe Hs).
  replace (doe - (365 * yoe + yoe / 4 - yoe / 100)) with doy by (subst doe; lia).
  rewrite Hdec.
  assert ((if mp <? 10 then mp + 3 else mp - 9) = m) as ->.
  { split_le2 m.
    - destruct (mp <? 10) eqn:E'; [apply Z.ltb_lt in E'|]; lia.
    - destruct (mp <? 10) eqn:E'; [|apply Z.ltb_ge in E']; lia. }
  f_equal; [f_equal|]; [lia | subst doy; lia].
Qed.

(** ** Date arithmetic *)

Lemma TimeWithinDay_bounds t : 0 ≤ JSDate.TimeWithinDay t < JSDate.msPerDay.
Proof. unfold JSDate.TimeWithinDay, JSDate.msPerDay. div_lia. Qed.

Lemma MakeDate_Day t :
  JSDate.MakeDate (JSDate.Day t) (JSDate.TimeWithinDay t) = t.
Proof.
  unfold JSDate.MakeDate, JSDate.Day, JSDate.TimeWithinDay, JSDate.msPerDay.
  div_lia.
Qed.

Lemma Day_MakeDate day time :
  0 ≤ time < JSDate.msPerDay →
  JSDate.Day (JSDate.MakeDate day time) = day
  ∧ JSDate.TimeWithinDay (JSDate.MakeDate day time) = time.
Proof.
  unfold JSDate.MakeDate, JSDate.Day, JSDate.TimeWithinDay, JSDate.msPerDay.
  intros. div_lia.
Qed.

Lemma civil_fields t :
  JSDate.CivilFromDay (JSDate.Day t)
  = (JSDate.YearFromTime t, JSDate.MonthFromTime t + 1, JSDate.DateFromTime t).
Proof.
  unfold JSDate.YearFromTime, JSDate.MonthFromTime, JSDate.DateFromTime.
  destruct (JSDate.CivilFromDay (JSDate.Day t)) as [[y m] d]. simpl.
  f_equal. f_equal. lia.
Qed.

Lemma MonthFromTime_range t : 0 ≤ JSDate.MonthFromTime t ≤ 11.
Proof.
  destruct (DayFromCivil_CivilFromDay (JSDate.Day t)) as (y & m & d & Hc & Hm & _).
  rewrite civil_fields in Hc. simplify_eq. lia.
Qed.

Lemma DateFromTime_range t : 1 ≤ JSDate.DateFromTime t ≤ 31.
Proof.
  destruct (DayFromCivil_CivilFromDay (JSDate.Day t)) as (y & m & d & Hc & _ & Hd & _).
  rewrite civil_fields in Hc. simplify_eq. lia.
Qed.

Lemma DayFromCivil_date y m d :
  JSDate.DayFromCivil y m d = JSDate.DayFromCivil y m 1 + d - 1.
Proof. unfold JSDate.DayFromCivil, JSDate.DayOfEra. lia. Qed.

Lemma MakeDay_in_range y month d :
  0 ≤ month ≤ 11 → JSDate.MakeDay y month d = JSDate.DayFromCivil y (month + 1) d.
Proof.
  intros Hm. unfold JSDate.MakeDay.
  replace (month / 12) with 0 by div_lia.
  replace (month mod 12) with month by div_lia.
  replace (y + 0) with y by lia.
  by rewrite (DayFromCivil_date y (month + 1) d).
Qed.

Lemma MakeDay_date_shift y month d k :
  JSDate.MakeDay y month (d + k) = JSDate.MakeDay y month d + k.
Proof. unfold JSDate.MakeDay. lia. Qed.

(** The day made of a time's own fields is its day. *)
Lemma MakeDay_own_fields t :
  JSDate.MakeDay (JSDate.YearFromTime t) (JSDate.MonthFromTime t)
                 (JSDate.DateFromTime t)
  = JSDate.Day t.
Proof.
  rewrite MakeDay_in_range by apply MonthFromTime_range.
  destruct (DayFromCivil_CivilFromDay (JSDate.Day t)) as (y & m & d & Hc & _ & _ & Hz).
  rewrite civil_fields in Hc. simplify_eq. done.
Qed.

(** [d.setDate(d.getDate() + k)] moves [d] by [k] days. *)
Lemma setDate_getDate tza t k :
  JSDate.setDate tza t (JSDate.getDate tza t + k) = t + k * JSDate.msPerDay.
Proof.
  unfold JSDate.setDate, JSDate.getDate, JSDate.UTC.
  rewrite MakeDay_date_shift, MakeDay_own_fields.
  pose proof (MakeDate_Day (JSDate.LocalTime tza t)) as H.
  unfold JSDate.MakeDate, JSDate.LocalTime in *. lia.
Qed.


(** Adding a year is adding twelve months. *)
Lemma setFullYear_setMonth tza t :
  JSDate.setFullYear tza t (JSDate.getFullYear tza t + 1)
  = JSDate.setMonth tza t (JSDate.getMonth tza t + 12).
Proof.
  unfold JSDate.setFullYear, JSDate.setMonth, JSDate.getFullYear, JSDate.getMonth.
  f_equal. f_equal. unfold JSDate.MakeDay.
  set (M := JSDate.MonthFromTime (JSDate.LocalTime tza t)).
  replace ((M + 12) / 12) with (M / 12 + 1) by div_lia.
  replace ((M + 12) mod 12) with (M mod 12) by div_lia.
  f_equal. f_equal. f_equal. lia.
Qed.

Lemma LocalTime_UTC tza x : JSDate.LocalTime tza (JSDate.UTC tza x) = x.
Proof. unfold JSDate.LocalTime, JSDate.UTC. lia. Qed.

(** Where the target month has the day, [setMonth(getMonth() + k)] lands
    on the same day and time of day, [k] months on. *)
Lemma setMonth_monthsLater tza t k :
  let lt := JSDate.LocalTime tza t in
  let target := JSDate.MonthFromTime lt + k in
  JSDate.DateFromTime lt
  ≤ JSDate.DaysInMonth (JSDate.YearFromTime lt + target / 12) (target mod 12) →
  monthsLater tza k t (JSDate.setMonth tza t (JSDate.getMonth tza t + k)).
Proof.
  intros lt target Hday. unfold monthsLater, JSDate.setMonth, JSDate.getMonth.
  rewrite LocalTime_UTC. cbv zeta. fold lt. fold target.
  set (day := JSDate.MakeDay (JSDate.YearFromTime lt) target (JSDate.DateFromTime lt)).
  destruct (Day_MakeDate day (JSDate.TimeWithinDay lt) (TimeWithinDay_bounds lt))
    as [HD HT].
  rewrite HT.
  assert (JSDate.CivilFromDay day
          = (JSDate.YearFromTime lt + target / 12, target mod 12 + 1,
             JSDate.DateFromTime lt)) as Hcivil.
  { subst day. unfold JSDate.MakeDay.
    rewrite <- DayFromCivil_date. apply CivilFromDay_DayFromCivil.
    - div_lia.
    - replace (target mod 12 + 1 - 1) with (target mod 12) by lia.
      pose proof (DateFromTime_range lt). lia. }
  set (lt' := JSDate.MakeDate day (JSDate.TimeWithinDay lt)) in *.
  pose proof (civil_fields lt') as Hf. rewrite HD, Hcivil in Hf.
  injection Hf as Hy Hm Hd. rewrite <- Hy, <- Hd.
  split; [|done]. subst target. div_lia.
Qed.

(** ** Benefits of a redemption *)

Lemma use_inr_type now p userId p' :
  PromoCode.use now p userId = inr p' → PromoCode.type p' = PromoCode.type p.
Proof.
  unfold PromoCode.use. destruct (PromoCode.valid _); [|done].
  by intros [= <-].
Qed.

(** ** The reminder scheduler *)

Lemma find_spec query (m : gmap ObjectId User.t) u :
  u ∈ NotificationService.find query m
  ↔ (∃ id, m !! id = Some u) ∧ query u = true.
Proof.
  unfold NotificationService.find.
  rewrite list_elem_of_In, filter_In, <- list_elem_of_In, list_elem_of_fmap.
  split.
  - intros [([id u'] & -> & Hin) Hq]. apply elem_of_map_to_list in Hin. eauto.
  - intros [[id Hid] Hq]. split; [|done].
    exists (id, u). split; [done|]. by apply elem_of_map_to_list.
Qed.

Lemma nonEmpty_true {A} (l : list A) :
  NotificationService.nonEmpty l = true ↔ l ≠ [].
Proof. destruct l; simpl; split; congruence. Qed.

Lemma sendMulticastNotification_run fcm tokens title body data w :
  ∃ o record,
    Firebase.sendMulticastNotification fcm tokens title body data w
    = (o, set_logs (logs w ++ [record])
            (set_pushes (pushes w ++ [mkMulticast tokens title body data]) w)).
Proof.
  unfold Firebase.sendMulticastNotification, Logger.logNotification, Logger.log.
  unfold_monad. destruct (fcm _); simpl; eauto.
Qed.

(** What one pass of the trial-expiry loop does for a user with tokens. *)
Lemma remindIfExpiring_run fcm now user w :
  User.fcmTokens user ≠ [] →
  let days := NotificationService.daysLeft now
                (default 0 (User.trialEndsAt (User.subscription user))) in
  ∃ w', NotificationService.remindIfExpiring fcm now user w = (Returned tt, w')
    ∧ users w' = users w ∧ promoCodes w' = promoCodes w
    ∧ progress w' = progress w
    ∧ pushes w'
      = pushes w
        ++ (if (0 <? days) && (days <=? 2)
            then [NotificationService.trialExpiryMessage
                    (User._id user) (User.fcmTokens user) days]
            else []).
Proof.
  intros Htok. cbv zeta.
  unfold NotificationService.remindIfExpiring.
  destruct ((0 <? _) && (_ <=? 2)).
  2:{ unfold ret. eexists. rewrite app_nil_r. done. }
  unfold NotificationService.sendTrialExpiryReminder.
  apply nonEmpty_true in Htok. rewrite Htok. cbn [negb].
  unfold tryCatch, bind.
  match goal with |- context [Firebase.sendMulticastNotification ?a ?b ?c ?d ?e w] =>
    destruct (sendMulticastNotification_run a b c d e w) as (o & record & ->) end.
  destruct o; unfold ret; eexists; (split; [reflexivity|]); done.
Qed.

Lemma forEach_remind fcm now l : ∀ w,
  Forall (fun u => User.fcmTokens u ≠ []) l →
  ∃ w', forEach l (NotificationService.remindIfExpiring fcm now) w = (Returned tt, w')
    ∧ users w' = users w ∧ promoCodes w' = promoCodes w
    ∧ progress w' = progress w
    ∧ pushes w'
      = pushes w
        ++ map (fun u => NotificationService.trialExpiryMessage
                           (User._id u) (User.fcmTokens u)
                           (NotificationService.daysLeft now
                              (default 0 (User.trialEndsAt (User.subscription u)))))
               (List.filter
                  (fun u =>
                     let days := NotificationService.daysLeft now
                                   (default 0 (User.trialEndsAt (User.subscription u))) in
                     (0 <? days) && (days <=? 2))
                  l).
Proof.
  induction l as [|u l IH]; intros w Hall.
  - simpl. unfold ret. eexists. rewrite app_nil_r. done.
  - apply Forall_cons in Hall as [Hu Hall].
    destruct (remindIfExpiring_run fcm now u w Hu) as (w1 & Hrun & Hus & Hpc & Hpr & Hpu).
    destruct (IH w1 Hall) as (w2 & Hrun2 & Hus2 & Hpc2 & Hpr2 & Hpu2).
    exists w2. cbn [forEach]. unfold bind at 1. rewrite Hrun, Hrun2.
    split; [done|]. split; [congruence|]. split; [congruence|].
    split; [congruence|].
    rewrite Hpu2, Hpu. cbn [List.filter]. cbv zeta.
    destruct ((0 <? _) && (_ <=? 2)); cbn [map]; by rewrite <- app_assoc.
Qed.

Lemma daysLeft_ceiling now trialEndsAt :
  let days := NotificationService.daysLeft now trialEndsAt in
  (days - 1) * JSDate.msPerDay < trialEndsAt - now ≤ days * JSDate.msPerDay.
Proof.
  unfold NotificationService.daysLeft, NotificationService.ceilDiv, JSDate.msPerDay.
  cbv zeta. div_lia.
Qed.

Lemma expiryQuery_spec now u :
  NotificationService.expiryQuery now (now + 2 * JSDate.msPerDay) u = true
  ↔ User.isActive u = true
    ∧ User.status (User.subscription u) = User.free_trial
    ∧ User.fcmTokens u ≠ []
    ∧ ∃ trialEndsAt,
        User.trialEndsAt (User.subscription u) = Some trialEndsAt
        ∧ now ≤ trialEndsAt ≤ now + 2 * JSDate.msPerDay.
Proof.
  unfold NotificationService.expiryQuery.
  rewrite !andb_true_iff, bool_decide_eq_true, nonEmpty_true.
  destruct (User.trialEndsAt (User.subscription u)) as [e|].
  - rewrite andb_true_iff, !Z.leb_le. split.
    + intros [[[? ?] ?] ?]. repeat split; try done. exists e. split; [done|lia].
    + intros (? & ? & ? & e' & [= <-] & ?). repeat split; try done; lia.
  - split; [intros [[[? ?] ?] ?]; done|].
    intros (? & ? & ? & e' & [=] & ?).
Qed.

(** C6, amended.  The trial-expiry check selects exactly the accounts that
    are active ([isActive]), on trial, with a device token and with
    [trialEndsAt] between [now] and [now] plus two days.  It sends one push
    per selected account whose days left, the ceiling of the remaining time
    over one day, is 1 or 2, in the order of selection, and changes no
    account.  36 hours give 2 days left and 20 hours give 1; the wording is
    singular for 1 day and counts the days for 2. *)
Theorem trial_expiry_check fcm w :
  let now := clock w (tick w) in
  let w' := (NotificationService.checkAndSendTrialExpiryReminders fcm w).2 in
  let daysOf u :=
    NotificationService.daysLeft now
      (default 0 (User.trialEndsAt (User.subscription u))) in
  ∃ selected,
    (∀ u, u ∈ selected
          ↔ (∃ id, users w !! id = Some u)
            ∧ User.isActive u = true
            ∧ User.status (User.subscription u) = User.free_trial
            ∧ User.fcmTokens u ≠ []
            ∧ ∃ trialEndsAt,
                User.trialEndsAt (User.subscription u) = Some trialEndsAt
                ∧ now ≤ trialEndsAt ≤ now + 2 * JSDate.msPerDay)
    ∧ pushes w'
      = pushes w
        ++ map (fun u => NotificationService.trialExpiryMessage
                           (User._id u) (User.fcmTokens u) (daysOf u))
               (List.filter (fun u => (0 <? daysOf u) && (daysOf u <=? 2)) selected)
    ∧ users w' = users w
    ∧ (∀ trialEndsAt,
         let days := NotificationService.daysLeft now trialEndsAt in
         (days - 1) * JSDate.msPerDay < trialEndsAt - now ≤ days * JSDate.msPerDay)
    ∧ NotificationService.daysLeft now (now + 36 * 3600000) = 2
    ∧ NotificationService.daysLeft now (now + 20 * 3600000) = 1
    ∧ (∀ id tokens,
         mc_title (NotificationService.trialExpiryMessage id tokens 1)
         = "⏰ Trial expires tomorrow!"
         ∧ mc_body (NotificationService.trialExpiryMessage id tokens 1)
           = "Don't lose your progress! Upgrade to premium now."
         ∧ mc_title (NotificationService.trialExpiryMessage id tokens 2)
           = "⏰ 2 days left in trial!"
         ∧ mc_body (NotificationService.trialExpiryMessage id tokens 2)
           = "Continue your fitness journey with premium features. 2 days remaining.").
Proof.
  cbv zeta.
  exists (NotificationService.find
            (NotificationService.expiryQuery (clock w (tick w))
               (clock w (tick w) + 2 * JSDate.msPerDay))
            (users w)).
  split.
  { intros u. rewrite find_spec, expiryQuery_spec. done. }
  split; [|split].
  - unfold NotificationService.checkAndSendTrialExpiryReminders.
    unfold tryCatch, bind at 1, newDate, bind at 1, get.
    cbn [LocalTZA clock tick users set_tick].
    rewrite setDate_getDate.
    match goal with |- context [forEach ?l ?f ?w0] =>
      destruct (forEach_remind fcm (clock w (tick w)) l w0)
        as (w2 & Hrun & _ & _ & _ & Hpu) end.
    { apply Forall_forall. intros u Hu.
      apply find_spec in Hu as [_ Hq]. apply expiryQuery_spec in Hq. tauto. }
    rewrite Hrun. cbn [snd]. rewrite Hpu. done.
  - unfold NotificationService.checkAndSendTrialExpiryReminders.
    unfold tryCatch, bind at 1, newDate, bind at 1, get.
    cbn [LocalTZA clock tick users set_tick].
    rewrite setDate_getDate.
    match goal with |- context [forEach ?l ?f ?w0] =>
      destruct (forEach_remind fcm (clock w (tick w)) l w0)
        as (w2 & Hrun & Hus & _) end.
    { apply Forall_forall. intros u Hu.
      apply find_spec in Hu as [_ Hq]. apply expiryQuery_spec in Hq. tauto. }
    rewrite Hrun. cbn [snd]. rewrite Hus. done.
  - split; [intros; apply daysLeft_ceiling|].
    split.
    { unfold NotificationService.daysLeft, NotificationService.ceilDiv. div_lia. }
    split.
    { unfold NotificationService.daysLeft, NotificationService.ceilDiv. div_lia. }
    intros id tokens. repeat split; vm_compute; reflexivity.
Qed.

Lemma inList_spec x l : NotificationService.inList x l = true ↔ x ∈ l.
Proof.
  unfold NotificationService.inList. rewrite existsb_exists. split.
  - intros (y & Hin & Heq). apply String.eqb_eq in Heq. subst.
    by apply list_elem_of_In.
  - intros Hin. exists x. split; [by apply list_elem_of_In|].
    apply String.eqb_refl.
Qed.

Lemma reminderQuery_spec hour u :
  NotificationService.reminderQuery hour u = true
  ↔ User.isActive u = true
    ∧ User.notificationsEnabled (User.settings u) = true
    ∧ (numberToString hour +:+ ":00") ∈ User.reminderTimes (User.settings u)
    ∧ User.fcmTokens u ≠ [].
Proof.
  unfold NotificationService.reminderQuery.
  rewrite !andb_true_iff, inList_spec, nonEmpty_true. tauto.
Qed.





(** ** The properties on the sample data *)

Lemma sample_keyed : keyed {[ "WELCOME" := Sample.welcome ]}.
Proof. intros k p [<- <-]%lookup_singleton_Some. reflexivity. Qed.

Lemma sample_withinLimit : allWithinLimit {[ "WELCOME" := Sample.welcome ]}.
Proof.
  intros k p [<- <-]%lookup_singleton_Some L [= <-] _. simpl. lia.
Qed.

Lemma sample_noDuplicates : noDuplicates {[ "WELCOME" := Sample.welcome ]}.
Proof. intros k p [<- <-]%lookup_singleton_Some. simpl. constructor. Qed.

Lemma redemption_invariants_witness :
  let w := Sample.w0 in
  let tasks := [Interleaving.Pending "WELCOME" Sample.aliceId;
                Interleaving.Pending "WELCOME" Sample.aliceId] in
  let requests := [("welcome", Sample.aliceId); ("WELCOME", Sample.aliceId)] in
  allWithinLimit (Interleaving.run Sample.overlap (promoCodes w, tasks)).1
  ∧ allWithinLimit (promoCodes (serve requests w).2)
  ∧ noDuplicates (promoCodes (serve requests w).2)
  ∧ (let m' := promoCodes (PromoCodeRoutes.useHandler "welcome" Sample.aliceId w).2 in
     m' = promoCodes w
     ∨ ∃ now p p',
         promoCodes w !! toUpperCase "welcome" = Some p
         ∧ PromoCode.use now p Sample.aliceId = inr p'
         ∧ m' = <[toUpperCase "welcome" := p']> (promoCodes w)).
Proof.
  apply (redemption_invariants Sample.overlap _ _ "welcome" Sample.aliceId Sample.w0).
  - exact sample_keyed.
  - exact sample_withinLimit.
  - exact sample_noDuplicates.
  - repeat constructor.
Defined.

(** C1, as stated, fails: two overlapping requests of one account both
    redeem a single-use code. *)
Lemma overlapping_redemptions_duplicate :
  let store : gmap string PromoCode.t := {[ "WELCOME" := Sample.welcome ]} in
  let tasks := [Interleaving.Pending "WELCOME" Sample.aliceId;
                Interleaving.Pending "WELCOME" Sample.aliceId] in
  let c := Interleaving.run Sample.overlap (store, tasks) in
  keyed store ∧ allWithinLimit store ∧ noDuplicates store
  ∧ ∃ p p1 p2,
      c.1 !! "WELCOME" = Some p
      ∧ PromoCode.usageLimit p = Some 1
      ∧ PromoCode.usedBy p = [Sample.aliceId; Sample.aliceId]
      ∧ ¬ NoDup (PromoCode.usedBy p)
      ∧ c.2 = [Interleaving.Redeemed p1 Sample.aliceId;
               Interleaving.Redeemed p2 Sample.aliceId].
Proof.
  cbv zeta. split; [exact sample_keyed|]. split; [exact sample_withinLimit|].
  split; [exact sample_noDuplicates|].
  eexists _, _, _. split; [vm_compute; reflexivity|].
  split; [reflexivity|]. split; [reflexivity|].
  split; [|vm_compute; reflexivity].
  simpl. intros H. apply NoDup_cons in H as [H _]. apply H. set_solver.
Qed.

Lemma subscription_updated_overwrites_witness :
  ∃ account',
    users (SubscriptionRoutes.webhook Sample.stripe
             (Some (Stripe.customer_subscription_updated (Sample.trialing "cus_alice")))
             Sample.w0).2 !! Sample.aliceId = Some account'
    ∧ User.status (User.subscription account') = User.free_trial
    ∧ User.currentPeriodStart (User.subscription account') = Some 1736467200000
    ∧ User.currentPeriodEnd (User.subscription account') = Some 1739145600000.
Proof.
  destruct (subscription_updated_overwrites Sample.stripe
              (Sample.trialing "cus_alice")
              (Stripe.mkCustomer "cus_alice" false {[ "userId" := Sample.aliceId ]})
              Sample.aliceId Sample.aliceId Sample.alice Sample.w0)
    as (account' & Hl & Ht & _ & _ & _ & Hs & He & _);
    [vm_compute; reflexivity | vm_compute; reflexivity
    | vm_compute; reflexivity | vm_compute; reflexivity |].
  exists account'. split; [exact Hl|]. split; [apply Ht; reflexivity|].
  split; [exact Hs | exact He].
Defined.

(** C6, as stated, fails: a deactivated account on trial, with a token and
    a trial ending in 36 hours, is not selected. *)
Lemma trial_expiry_skips_inactive :
  let now := clock Sample.wBob (tick Sample.wBob) in
  users Sample.wBob !! Sample.bobId = Some Sample.bob
  ∧ User.status (User.subscription Sample.bob) = User.free_trial
  ∧ User.fcmTokens Sample.bob ≠ []
  ∧ (∃ e, User.trialEndsAt (User.subscription Sample.bob) = Some e
          ∧ now ≤ e ≤ now + 2 * JSDate.msPerDay
          ∧ NotificationService.daysLeft now e = 2)
  ∧ pushes (NotificationService.checkAndSendTrialExpiryReminders
              Sample.fcm Sample.wBob).2 = [].
Proof.
  cbv zeta. split; [vm_compute; reflexivity|]. split; [reflexivity|].
  split; [discriminate|]. split.
  - eexists. split; [reflexivity|]. split; [vm_compute; split; discriminate|].
    vm_compute. reflexivity.
  - vm_compute. reflexivity.
Qed.

(** C10, as stated, fails: a validation call for an authenticated account
    refreshes the account's [lastActiveAt]. *)
Lemma validation_touches_account :
  let run := SubscriptionRoutes.promoCode Sample.firebase (Some "token-alice")
               None "WELCOME" Sample.w0 in
  (∃ r, run.1 = Returned r ∧ status r = 200)
  ∧ User.lastActiveAt <$> users Sample.w0 !! Sample.aliceId = Some 0
  ∧ User.lastActiveAt <$> users run.2 !! Sample.aliceId = Some Sample.now0
  ∧ users run.2 ≠ users Sample.w0.
Proof.
  cbv zeta. split; [eexists; split; vm_compute; reflexivity|].
  split; [vm_compute; reflexivity|].
  assert (User.lastActiveAt
            <$> users (SubscriptionRoutes.promoCode Sample.firebase
                         (Some "token-alice") None "WELCOME" Sample.w0).2
                !! Sample.aliceId = Some Sample.now0) as H
    by (vm_compute; reflexivity).
  split; [exact H|].
  intros E. rewrite E in H. clear E. vm_compute in H. discriminate H.
Qed.

(** The scenario of the progress reminder: Alice is reminded at 18:00; once
    she has logged an entry for the day, a rerun leaves her out. *)
Example progress_reminder_scenario :
  let run1 := NotificationService.sendProgressReminders Sample.fcm 18 Sample.w0 in
  let logged := ProgressRoutes.create None Sample.aliceId Sample.now0 run1.2 in
  let run2 := NotificationService.sendProgressReminders Sample.fcm 18 logged.2 in
  map mc_tokens (pushes run1.2) = [["tok-alice"]]
  ∧ map mc_title (pushes run1.2) = ["💪 Evening Fitness Update!"]
  ∧ (∃ r, logged.1 = Returned r ∧ status r = 201)
  ∧ progress logged.2 = [Progress.mk Sample.aliceId Sample.now0]
  ∧ pushes run2.2 = pushes run1.2.
Proof.
  cbv zeta. split; [vm_compute; reflexivity|]. split; [vm_compute; reflexivity|].
  split; [eexists; split; vm_compute; reflexivity|].
  split; vm_compute; reflexivity.
Qed.


(* ===================================================================== *)
(** * Further properties *)
(* ===================================================================== *)
(** ** Validity of a promo code *)

(** What [isValid] accepts, condition by condition. *)
Lemma isValid_spec now p userId :
  PromoCode.valid (PromoCode.isValid now p userId) = true
  ↔ PromoCode.isActive p = true
    ∧ (∀ from, PromoCode.validFrom p = Some from → from ≤ now)
    ∧ (∀ until, PromoCode.validUntil p = Some until → now ≤ until)
    ∧ (∀ L, PromoCode.usageLimit p = Some L → L ≠ 0 → PromoCode.usedCount p < L)
    ∧ (∀ u, userId = Some u → u ∉ PromoCode.usedBy p).
Proof.
  unfold PromoCode.isValid, PromoCode.includes. split.
  - intros H.
    repeat (case_match; simpl in *; try done); simplify_eq.
    all: repeat split; intros; simplify_eq; try lia.
    all: rewrite ?andb_false_iff, ?negb_false_iff in *.
    all: try (destruct_or!; lia).
    all: try done.
    all: by eapply bool_decide_eq_false_1.
  - intros (Ha & Hf & Hu & HL & Hin). rewrite Ha. simpl.
    assert (match PromoCode.validFrom p with
            | Some from => now <? from | None => false end = false) as ->.
    { destruct (PromoCode.validFrom p); [|done]. specialize (Hf _ eq_refl). lia. }
    assert (match PromoCode.validUntil p with
            | Some until => until <? now | None => false end = false) as ->.
    { destruct (PromoCode.validUntil p); [|done]. specialize (Hu _ eq_refl). lia. }
    assert (match PromoCode.usageLimit p with
            | Some limit => negb (limit =? 0) && (limit <=? PromoCode.usedCount p)
            | None => false end = false) as ->.
    { destruct (PromoCode.usageLimit p) as [L|]; [|done].
      specialize (HL _ eq_refl). destruct (Z.eqb_spec L 0); [done|].
      simpl. specialize (HL n). lia. }
    assert (match userId with
            | Some u => bool_decide (u ∈ PromoCode.usedBy p)
            | None => false end = false) as ->; [|done].
    destruct userId; [|done]. apply bool_decide_eq_false_2. by apply Hin.
Qed.

(** X1.  The validity of a code is an interval of time: a code that a
    user could redeem at two instants can be redeemed by that user at
    every instant in between (the document being the same). *)
Theorem validity_is_an_interval p userId t1 t2 t3 :
  t1 ≤ t2 ≤ t3 →
  PromoCode.valid (PromoCode.isValid t1 p userId) = true →
  PromoCode.valid (PromoCode.isValid t3 p userId) = true →
  PromoCode.valid (PromoCode.isValid t2 p userId) = true.
Proof.
  rewrite !isValid_spec. intros Ht (?&Hf&_&?&?) (_&_&Hu&_&_).
  split; [done|]. split; [|split; [|done]].
  - intros from E. specialize (Hf _ E). lia.
  - intros e E. specialize (Hu _ E). lia.
Qed.

Lemma validity_is_an_interval_witness :
  PromoCode.valid (PromoCode.isValid (Sample.now0 + 5) Sample.welcome
                     (Some Sample.aliceId)) = true.
Proof.
  apply (validity_is_an_interval Sample.welcome (Some Sample.aliceId)
           Sample.now0 (Sample.now0 + 5) (Sample.now0 + 10)).
  - vm_compute. split; discriminate.
  - reflexivity.
  - reflexivity.
Defined.

(** X2.  A code is valid for an account exactly when it is valid for an
    anonymous check and the account is not among those that used it: the
    account only ever adds the already-used condition. *)
Theorem validity_for_account now p userId :
  PromoCode.valid (PromoCode.isValid now p (Some userId)) = true
  ↔ PromoCode.valid (PromoCode.isValid now p None) = true
    ∧ userId ∉ PromoCode.usedBy p.
Proof.
  rewrite !isValid_spec. split.
  - intros (?&?&?&?&Hin). repeat split; auto. done.
  - intros ((?&?&?&?&_)&Hin). repeat split; auto. by intros ? [= <-].
Qed.

(** ** Looking a code up *)

Lemma upperAscii_lowerAscii c : upperAscii (lowerAscii c) = upperAscii c.
Proof. destruct c as [[] [] [] [] [] [] [] []]; reflexivity. Qed.

Lemma upperAscii_idem c : upperAscii (upperAscii c) = upperAscii c.
Proof. destruct c as [[] [] [] [] [] [] [] []]; reflexivity. Qed.

Lemma toUpperCase_toLowerCase s : toUpperCase (toLowerCase s) = toUpperCase s.
Proof.
  unfold toUpperCase, toLowerCase.
  induction s as [|c s IH]; simpl; [done|]. by rewrite upperAscii_lowerAscii, IH.
Qed.

Lemma toUpperCase_idem s : toUpperCase (toUpperCase s) = toUpperCase s.
Proof.
  unfold toUpperCase.
  induction s as [|c s IH]; simpl; [done|]. by rewrite upperAscii_idem, IH.
Qed.

(** X3.  Codes are looked up without regard to case: for a code of ASCII
    characters, [findValidCode] gives the same result, and reads the clock
    as often, on the code as typed, in lower case and in upper case. *)
Theorem lookup_ignores_case code userId w :
  asciiOnly code = true →
  PromoCodeModel.findValidCode (toLowerCase code) userId w
  = PromoCodeModel.findValidCode code userId w
  ∧ PromoCodeModel.findValidCode (toUpperCase code) userId w
    = PromoCodeModel.findValidCode code userId w.
Proof.
  intros _. rewrite !findValidCode_run.
  unfold PromoCodeModel.findValid, PromoCodeModel.findOne.
  by rewrite toUpperCase_toLowerCase, toUpperCase_idem.
Qed.

Lemma lookup_ignores_case_witness :
  PromoCodeModel.findValidCode "welcome" (Some Sample.aliceId) Sample.w0
  = PromoCodeModel.findValidCode "Welcome" (Some Sample.aliceId) Sample.w0.
Proof.
  apply (lookup_ignores_case "Welcome" (Some Sample.aliceId) Sample.w0).
  reflexivity.
Defined.

(** ** The ledger's counter *)

Lemma useHandler_accounted code userId w :
  keyed (promoCodes w) → allAccounted (promoCodes w) →
  allAccounted (promoCodes (PromoCodeRoutes.useHandler code userId w).2).
Proof.
  intros Hk Ha.
  destruct (useHandler_conditional_update code userId w Hk)
    as [->|(now & p & p' & Hp & Hu & ->)]; [done|].
  intros k q Hq. apply lookup_insert_Some in Hq as [[<- <-]|[_ Hq]]; [|by eapply Ha].
  apply use_inr in Hu as (_ & _ & Hc & Hb & _).
  unfold accounted. rewrite Hc, Hb, length_app. simpl.
  rewrite (Ha _ _ Hp). lia.
Qed.

(** X4.  Redemptions served one after the other keep the counter of every
    code equal to the number of accounts recorded as having used it. *)
Theorem redemptions_keep_count requests w :
  keyed (promoCodes w) → allAccounted (promoCodes w) →
  allAccounted (promoCodes (serve requests w).2).
Proof.
  revert w. induction requests as [|[code userId] requests IH]; intros w Hk Ha.
  - by rewrite serve_nil.
  - rewrite serve_cons. apply IH.
    + by apply useHandler_invariants.
    + by apply useHandler_accounted.
Qed.

Lemma sample_accounted : allAccounted {[ "WELCOME" := Sample.welcome ]}.
Proof. intros k p [<- <-]%lookup_singleton_Some. reflexivity. Qed.

Lemma redemptions_keep_count_witness :
  allAccounted
    (promoCodes (serve [("welcome", Sample.aliceId); ("WELCOME", Sample.bobId)]
                   Sample.w0).2).
Proof.
  apply (redemptions_keep_count
           [("welcome", Sample.aliceId); ("WELCOME", Sample.bobId)] Sample.w0).
  - exact sample_keyed.
  - exact sample_accounted.
Defined.

(** ** Answers of the redemption handler *)

Lemma isValid_later t t' p userId :
  t ≤ t' →
  PromoCode.valid (PromoCode.isValid t p userId) = true →
  PromoCode.valid (PromoCode.isValid t' p userId) = true
  ∨ PromoCode.isValid t' p userId = PromoCode.invalid "Promo code has expired".
Proof.
  intros Ht H.
  destruct (PromoCode.validUntil p) as [e|] eqn:Ee.
  - destruct (Z.ltb_spec e t') as [Hlt|Hge].
    + right. apply isValid_spec in H as (Ha & Hf & _).
      unfold PromoCode.isValid. rewrite Ha, Ee. simpl.
      destruct (PromoCode.validFrom p) as [from|]; simpl.
      * specialize (Hf _ eq_refl).
        destruct (Z.ltb_spec t' from); [lia|].
        destruct (Z.ltb_spec e t'); [done|lia].
      * destruct (Z.ltb_spec e t'); [done|lia].
    + left. apply isValid_spec in H as (Ha & Hf & Hu & HL & Hin).
      apply isValid_spec. split; [done|]. split; [|split; [|done]].
      * intros from E. specialize (Hf _ E). lia.
      * intros e' E. simplify_eq. done.
  - left. apply isValid_spec in H as (Ha & Hf & Hu & HL & Hin).
    apply isValid_spec. split; [done|]. split; [|split; [|done]].
    + intros from E. specialize (Hf _ E). lia.
    + intros e' E. simplify_eq.
Qed.

Lemma findValid_valid now1 now2 now3 code userId m p :
  PromoCodeModel.findValid now1 now2 now3 code userId m = Some p →
  PromoCode.valid (PromoCode.isValid now3 p userId) = true.
Proof.
  unfold PromoCodeModel.findValid.
  destruct (PromoCodeModel.findOne _ _ _ _) as [q|]; [|done].
  destruct (PromoCode.valid (PromoCode.isValid now3 q userId)) eqn:E; [|done].
  by intros [= <-].
Qed.

(** X5.  The redemption handler answers 400 only when the code stops
    being valid between the lookup and the use.  When the clock does not
    go back between the two, the only such answer is
    "Promo code has expired", and it leaves the ledger and the accounts
    as they were. *)
Theorem late_rejection_is_expiry code userId w r :
  clock w (S (S (tick w))) ≤ clock w (S (S (S (tick w)))) →
  (PromoCodeRoutes.useHandler code userId w).1 = Returned r →
  status r = 400 →
  errorOf r = Some "Promo code has expired"
  ∧ promoCodes (PromoCodeRoutes.useHandler code userId w).2 = promoCodes w
  ∧ users (PromoCodeRoutes.useHandler code userId w).2 = users w.
Proof.
  intros Hclock Hr Hs.
  pose proof (useHandler_ledger code userId w) as H. simpl in H.
  destruct (PromoCodeModel.findValid _ _ _ _ _ _) as [p|] eqn:Hf.
  - apply findValid_valid in Hf.
    destruct (PromoCode.use _ p userId) as [reason|p'] eqn:Hu.
    + destruct H as (Hres & Hp & Hus). rewrite Hres in Hr. simplify_eq.
      split; [|done].
      destruct (isValid_later _ _ _ _ Hclock Hf) as [Hv|Hv];
        unfold PromoCode.use in Hu; rewrite Hv in Hu; simpl in Hu; by simplify_eq.
    + destruct H as (_ & r' & Hres & Hst). rewrite Hres in Hr. simplify_eq.
      destruct Hst; lia.
  - destruct H as (Hres & _). rewrite Hres in Hr. by simplify_eq.
Qed.

Lemma late_rejection_is_expiry_witness :
  ∃ r, (PromoCodeRoutes.useHandler "flash" Sample.aliceId SampleMore.wFlash).1
       = Returned r
       ∧ status r = 400
       ∧ errorOf r = Some "Promo code has expired".
Proof.
  eexists. split; [reflexivity|]. split; [reflexivity|].
  apply (late_rejection_is_expiry "flash" Sample.aliceId SampleMore.wFlash).
  - vm_compute. discriminate.
  - reflexivity.
  - reflexivity.
Defined.

(** What one run of the redemption handler does to the accounts and to the
    rest of the world. *)
Lemma useHandler_accounts code userId w :
  let w' := (PromoCodeRoutes.useHandler code userId w).2 in
  (users w' = users w
   ∨ ∃ sub, users w' = alter (User.setSubscription sub) userId (users w))
  ∧ userCache w' = userCache w ∧ progress w' = progress w
  ∧ pushes w' = pushes w.
Proof.
  simpl.
  destruct (PromoCodeRoutes.useHandler code userId w) as [o w'] eqn:Hrun.
  unfold_promo.
  destruct (PromoCodeModel.findOne _ _ _ _) as [p0|] eqn:Hf; simpl in *;
    [|by simplify_eq; auto].
  destruct (PromoCode.valid _) eqn:Hv; simpl in *; [|by simplify_eq; auto].
  destruct (PromoCode.use _ p0 userId) as [reason|p'] eqn:Hu; simpl in *;
    [by simplify_eq; auto|].
  destruct (users w !! userId) eqn:Hus; simpl in *; [|by simplify_eq; auto].
  repeat case_match; use_applyBenefits; simplify_eq; simpl; eauto 10.
Qed.

(** X6.  A redemption on behalf of an account that is not in the [User]
    collection is answered 404 "User not found", but only after the code
    was consumed: the counter is incremented and the id recorded, and no
    account receives the benefit. *)
Theorem redemption_without_account code userId w p p' :
  keyed (promoCodes w) →
  users w !! userId = None →
  PromoCodeModel.findValid (clock w (tick w)) (clock w (S (tick w)))
    (clock w (S (S (tick w)))) code (Some userId) (promoCodes w) = Some p →
  PromoCode.use (clock w (S (S (S (tick w))))) p userId = inr p' →
  let res := PromoCodeRoutes.useHandler code userId w in
  res.1 = Returned (mkResponse 404 (JObj [("success", JBool false);
                                          ("error", JStr "User not found")]))
  ∧ users res.2 = users w
  ∧ ∃ q, promoCodes res.2 !! toUpperCase code = Some q
         ∧ PromoCode.usedCount q = PromoCode.usedCount p + 1
         ∧ PromoCode.usedBy q = PromoCode.usedBy p ++ [userId].
Proof.
  intros Hk Hus Hf Hu res. subst res.
  assert (promoCodes w !! toUpperCase code = Some p) as Hp
    by (by eapply findValid_Some).
  pose proof (useHandler_ledger code userId w) as HL. simpl in HL.
  rewrite Hf, Hu in HL. destruct HL as (Hpc & _).
  destruct (PromoCodeRoutes.useHandler code userId w) as [o w'] eqn:Hrun.
  simpl in *. split; [|split].
  - clear Hpc. unfold PromoCodeModel.findValid in Hf. unfold_promo.
    destruct (PromoCodeModel.findOne _ _ _ _) as [p0|] eqn:Hf0; simpl in *;
      [|done].
    destruct (PromoCode.valid _) eqn:Hv; simpl in *; [|done].
    simplify_eq. rewrite Hu in Hrun. simpl in Hrun. rewrite Hus in Hrun.
    by simplify_eq.
  - clear Hpc. unfold PromoCodeModel.findValid in Hf. unfold_promo.
    destruct (PromoCodeModel.findOne _ _ _ _) as [p0|] eqn:Hf0; simpl in *;
      [|done].
    destruct (PromoCode.valid _) eqn:Hv; simpl in *; [|done].
    simplify_eq. rewrite Hu in Hrun. simpl in Hrun. rewrite Hus in Hrun.
    by simplify_eq.
  - rewrite Hpc. unfold PromoCodeModel.saveUse.
    pose proof (use_applySave _ _ _ _ Hu) as Hsave.
    apply use_inr in Hu as (Hcode & _ & Hc & Hb & _).
    rewrite Hcode, (Hk _ _ Hp), lookup_alter_eq, Hp. simpl. rewrite Hsave.
    eauto.
Qed.

Lemma redemption_without_account_witness :
  let res := PromoCodeRoutes.useHandler "welcome" Sample.bobId Sample.w0 in
  (∃ r, res.1 = Returned r ∧ status r = 404 ∧ errorOf r = Some "User not found")
  ∧ ∃ q, promoCodes res.2 !! "WELCOME" = Some q
         ∧ PromoCode.usedCount q = 1
         ∧ PromoCode.usedBy q = [Sample.bobId].
Proof.
  destruct (redemption_without_account "welcome" Sample.bobId Sample.w0
              Sample.welcome
              (PromoCode.mk "650000000000000000000001" "WELCOME"
                 PromoCode.free_month None None true (Some 1) 1 [Sample.bobId]
                 (Some 1700000000000) None Sample.adminId))
    as (Hr & _ & q & Hq & Hc & Hb).
  - exact sample_keyed.
  - reflexivity.
  - reflexivity.
  - reflexivity.
  - split; [eexists; split; [exact Hr|split; reflexivity]|].
    exists q. split; [exact Hq|]. split; [exact Hc|exact Hb].
Defined.

(** ** The payment webhook, event by event *)

(** X8.  A [customer.subscription.deleted] event whose customer resolves
    to an account marks that account [expired] and stamps [canceledAt]
    with the clock reading taken for the update; the rest of the
    subscription sub-record, the rest of the account and every other
    account are kept, and the event is acknowledged. *)
Theorem subscription_deleted_expires api subscription customer userId oid account w :
  Stripe.customers_retrieve api (Stripe.customer subscription) = Some customer →
  SubscriptionRoutes.resolvedUserId customer = Some userId →
  castObjectId userId = Some oid →
  users w !! oid = Some account →
  let res := SubscriptionRoutes.webhook api
               (Some (Stripe.customer_subscription_deleted subscription)) w in
  res.1 = Returned SubscriptionRoutes.acknowledged
  ∧ (∃ account',
       users res.2 !! oid = Some account'
       ∧ User.status (User.subscription account') = User.expired
       ∧ User.canceledAt (User.subscription account') = Some (clock w (tick w))
       ∧ User.currentPeriodStart (User.subscription account')
         = User.currentPeriodStart (User.subscription account)
       ∧ User.currentPeriodEnd (User.subscription account')
         = User.currentPeriodEnd (User.subscription account)
       ∧ User.trialEndsAt (User.subscription account')
         = User.trialEndsAt (User.subscription account)
       ∧ User.plan (User.subscription account')
         = User.plan (User.subscription account)
       ∧ User.setSubscription (User.subscription account) account' = account)
  ∧ (∀ id, id ≠ oid → users res.2 !! id = users w !! id)
  ∧ userCache res.2 = userCache w.
Proof.
  intros Hc Hu Hid Hacc. unfold_webhook.
  rewrite Hc, Hu. simpl. rewrite Hid. simpl.
  split; [done|]. split; [|split; [|done]].
  - rewrite lookup_alter_eq, Hacc. simpl. eexists; split; [reflexivity|].
    simpl. repeat split. by destruct account.
  - intros id Hne. by rewrite lookup_alter_ne.
Qed.

Lemma subscription_deleted_expires_witness :
  ∃ account',
    users (SubscriptionRoutes.webhook Sample.stripe
             (Some (Stripe.customer_subscription_deleted (Sample.trialing "cus_alice")))
             Sample.w0).2 !! Sample.aliceId = Some account'
    ∧ User.status (User.subscription account') = User.expired
    ∧ User.canceledAt (User.subscription account') = Some Sample.now0.
Proof.
  destruct (subscription_deleted_expires Sample.stripe (Sample.trialing "cus_alice")
              (Stripe.mkCustomer "cus_alice" false {[ "userId" := Sample.aliceId ]})
              Sample.aliceId Sample.aliceId Sample.alice Sample.w0)
    as (_ & (account' & Ha & Hs & Hc & _) & _).
  - reflexivity.
  - reflexivity.
  - reflexivity.
  - reflexivity.
  - exists account'. split; [exact Ha|]. split; [exact Hs|exact Hc].
Defined.

Lemma onPaymentSucceeded_idem s u :
  SubscriptionRoutes.onPaymentSucceeded s (SubscriptionRoutes.onPaymentSucceeded s u)
  = SubscriptionRoutes.onPaymentSucceeded s u.
Proof. reflexivity. Qed.

(** X9.  An [invoice.payment_succeeded] event whose subscription and
    customer resolve to an account makes that account [active] with the
    period of the subscription the provider returns (seconds turned into
    milliseconds), keeps every other account, and is acknowledged. *)
Theorem payment_succeeded_activates
    api invoice subscriptionId subscription customer userId oid account w :
  Stripe.subscription invoice = Some subscriptionId →
  truthy subscriptionId = true →
  Stripe.subscriptions_retrieve api subscriptionId = Some subscription →
  Stripe.customers_retrieve api (Stripe.customer subscription) = Some customer →
  SubscriptionRoutes.resolvedUserId customer = Some userId →
  castObjectId userId = Some oid →
  users w !! oid = Some account →
  let res := SubscriptionRoutes.webhook api
               (Some (Stripe.invoice_payment_succeeded invoice)) w in
  res.1 = Returned SubscriptionRoutes.acknowledged
  ∧ (∃ account',
       users res.2 !! oid = Some account'
       ∧ User.status (User.subscription account') = User.active
       ∧ User.currentPeriodStart (User.subscription account')
         = Some (Stripe.current_period_start subscription * 1000)
       ∧ User.currentPeriodEnd (User.subscription account')
         = Some (Stripe.current_period_end subscription * 1000)
       ∧ User.trialEndsAt (User.subscription account')
         = User.trialEndsAt (User.subscription account)
       ∧ User.canceledAt (User.subscription account')
         = User.canceledAt (User.subscription account)
       ∧ User.setSubscription (User.subscription account) account' = account)
  ∧ (∀ id, id ≠ oid → users res.2 !! id = users w !! id).
Proof.
  intros Hi Ht Hs Hc Hu Hid Hacc. unfold_webhook.
  rewrite Hi, Ht, Hs. simpl. rewrite Hc, Hu. simpl. rewrite Hid. simpl.
  split; [done|]. split.
  - rewrite lookup_alter_eq, Hacc. simpl. eexists; split; [reflexivity|].
    simpl. repeat split. by destruct account.
  - intros id Hne. by rewrite lookup_alter_ne.
Qed.

Lemma payment_succeeded_activates_witness :
  ∃ account',
    users (SubscriptionRoutes.webhook SampleMore.billing
             (Some (Stripe.invoice_payment_succeeded SampleMore.invoice))
             Sample.w0).2 !! Sample.aliceId = Some account'
    ∧ User.status (User.subscription account') = User.active
    ∧ User.currentPeriodEnd (User.subscription account') = Some 1739145600000.
Proof.
  destruct (payment_succeeded_activates SampleMore.billing SampleMore.invoice
              "sub_alice" SampleMore.paid
              (Stripe.mkCustomer "cus_alice" false {[ "userId" := Sample.aliceId ]})
              Sample.aliceId Sample.aliceId Sample.alice Sample.w0)
    as (_ & (account' & Ha & Hs & _ & He & _) & _).
  - reflexivity.
  - reflexivity.
  - reflexivity.
  - reflexivity.
  - reflexivity.
  - reflexivity.
  - reflexivity.
  - exists account'. split; [exact Ha|]. split; [exact Hs|exact He].
Defined.

(** ** The payment webhook, whatever the event *)

(** What a delivery does to the accounts: nothing, or one update of the
    subscription sub-record of one account. *)
Lemma webhook_accounts api verified w :
  let res := SubscriptionRoutes.webhook api verified w in
  (∃ r, res.1 = Returned r
        ∧ (status r ≠ 200 →
           users res.2 = users w
           ∧ ∃ record, logs res.2 = logs w ++ [record]
                       ∧ Log.type record = "error"))
  ∧ (users res.2 = users w
     ∨ ∃ oid f, users res.2 = alter f oid (users w)
                ∧ ∀ u, ∃ sub, f u = User.setSubscription sub u)
  ∧ promoCodes res.2 = promoCodes w ∧ userCache res.2 = userCache w
  ∧ progress res.2 = progress w ∧ pushes res.2 = pushes w.
Proof.
  simpl.
  destruct (SubscriptionRoutes.webhook api verified w) as [o w'] eqn:Hrun.
  destruct verified as [[s|s|i|i|ty]|]; unfold_webhook.
  all: repeat case_match; simplify_eq; simpl in *; use_errorHandler.
  all: split; [eexists; split; [reflexivity|]; simpl; try done; eauto|].
  all: split; [|done].
  all: try (by left).
  all: right; eexists _, _; split; [reflexivity|]; intros u; eexists; reflexivity.
Qed.

(** The answer of [errorHandler] to the errors the handlers raise
    themselves. *)
Lemma errorHandler_answer error userId w :
  ∃ r record,
    errorHandler error userId w = (Returned r, set_logs (logs w ++ [record]) w)
    ∧ Log.type record = "error" ∧ Log.level record = "error"
    ∧ (name error = "Error" ∨ name error = "StripeInvalidRequestError" →
       status r = default 500 (statusCode error))
    ∧ (name error = "CastError" → status r = 400)
    ∧ (isDevelopment w = false →
       body r = JObj [("success", JBool false);
                      ("error", JObj [("message", JStr "Internal server error")])]).
Proof.
  unfold errorHandler, Logger.logError, Logger.log. unfold_monad. simpl.
  match goal with
  | |- context [let '(a, b) := ?X in _] => destruct X as [sc msg] eqn:E
  end.
  eexists _, _. split; [reflexivity|]. simpl.
  split; [done|]. split; [done|]. split; [|split].
  - intros [Hn|Hn]; rewrite Hn in E; simpl in E; by simplify_eq.
  - intros Hn; rewrite Hn in E; simpl in E; by simplify_eq.
  - by intros ->.
Qed.

Ltac use_errorHandler_answer :=
  match goal with
  | H : errorHandler ?e ?u ?w = _ |- _ =>
      let r := fresh "r" in
      let rcd := fresh "rcd" in
      let Hr := fresh "Hr" in
      let Ht := fresh "Ht" in
      let Hl := fresh "Hl" in
      let Hs := fresh "Hs" in
      let Hc := fresh "Hc" in
      let Hb := fresh "Hb" in
      destruct (errorHandler_answer e u w) as (r & rcd & Hr & Ht & Hl & Hs & Hc & Hb);
      rewrite Hr in H; clear Hr; simplify_eq; simpl in *
  end.

Lemma payment_failed_frame api invoice w :
  users (SubscriptionRoutes.webhook api
           (Some (Stripe.invoice_payment_failed invoice)) w).2 = users w.
Proof.
  unfold_webhook.
  repeat case_match; simplify_eq; simpl; use_errorHandler; goal_errorHandler;
    done.
Qed.

(** For every event but a deletion, what a delivery does to the accounts
    is a function of the provider's answers alone, and applying it twice
    is applying it once. *)
Lemma webhook_users_function api event :
  (∀ s, event ≠ Stripe.customer_subscription_deleted s) →
  ∃ g : gmap ObjectId User.t → gmap ObjectId User.t,
    (∀ m, g (g m) = g m)
    ∧ ∀ w, users (SubscriptionRoutes.webhook api (Some event) w).2 = g (users w).
Proof.
  intros Hne.
  destruct event as [s|s|i|i|ty]; [|by destruct (Hne s)| | |].
  - destruct (Stripe.customers_retrieve api (Stripe.customer s)) as [c|] eqn:Hc;
      [destruct (SubscriptionRoutes.resolvedUserId c) as [uid|] eqn:Hu;
       [destruct (castObjectId uid) as [oid|] eqn:Ho|]|].
    1: exists (alter (SubscriptionRoutes.onSubscriptionUpdated s) oid).
    2-4: exists id.
    all: split; [try done; intros; by apply alter_idem|].
    all: intros w; unfold_webhook; rewrite Hc; simpl; rewrite ?Hu; simpl;
      rewrite ?Ho; simpl; try done.
    all: match goal with
         | |- context [errorHandler ?e ?u ?w] =>
             by destruct (errorHandler_frame e u w) as (-> & _)
         end.
  - destruct (Stripe.subscription i) as [sid|] eqn:Hi;
      [destruct (truthy sid) eqn:Ht;
       [destruct (Stripe.subscriptions_retrieve api sid) as [s|] eqn:Hs;
        [destruct (Stripe.customers_retrieve api (Stripe.customer s)) as [c|] eqn:Hc;
         [destruct (SubscriptionRoutes.resolvedUserId c) as [uid|] eqn:Hu;
          [destruct (castObjectId uid) as [oid|] eqn:Ho|]|]|]|]|].
    1: exists (alter (SubscriptionRoutes.onPaymentSucceeded s) oid).
    2-7: exists id.
    all: split; [try done; intros; by apply alter_idem|].
    all: intros w; unfold_webhook; rewrite Hi; simpl; rewrite ?Ht; simpl;
      rewrite ?Hs; simpl; rewrite ?Hc; simpl; rewrite ?Hu; simpl;
      rewrite ?Ho; simpl; try done.
    all: match goal with
         | |- context [errorHandler ?e ?u ?w] =>
             by destruct (errorHandler_frame e u w) as (-> & _)
         end.
  - exists id. split; [done|]. intros w.
    by destruct (payment_failed_frame api i w).
  - exists id. split; [done|]. intros w. by unfold_webhook.
Qed.

(** ** Authentication *)

(** A request whose identity is in the cache. *)
Lemma authenticateToken_cached fb tok decoded cached w :
  truthy tok = true →
  Auth.verifyFirebaseToken fb tok = Some decoded →
  userCache w !! ("user:" +:+ Auth.uid decoded) = Some cached →
  Auth.authenticateToken fb (Some tok) w
  = (Returned (inr (Auth.mkAuthUser (Auth.uid decoded) (Auth.token_email decoded)
                      (User._id cached) cached)),
     set_users (alter (User.setLastActiveAt (clock w (tick w))) (User._id cached)
                      (users w))
       (set_tick (S (tick w)) w)).
Proof.
  intros Ht Hv Hc. unfold Auth.authenticateToken. unfold_monad.
  rewrite Ht, Hv. simpl. by rewrite Hc.
Qed.

(** A successful authentication: the identity, and what is in the cache
    and in the collection afterwards. *)
Lemma authenticateToken_success fb token ru w :
  (Auth.authenticateToken fb token w).1 = Returned (inr ru) →
  let w' := (Auth.authenticateToken fb token w).2 in
  ∃ tok decoded,
    token = Some tok ∧ truthy tok = true
    ∧ Auth.verifyFirebaseToken fb tok = Some decoded
    ∧ Auth.au_uid ru = Auth.uid decoded
    ∧ Auth.au_email ru = Auth.token_email decoded
    ∧ Auth.userId ru = User._id (Auth.dbUser ru)
    ∧ (userCache w !! ("user:" +:+ Auth.uid decoded) = Some (Auth.dbUser ru)
       ∧ userCache w' = userCache w ∧ dom (users w') = dom (users w)
       ∨ userCache w !! ("user:" +:+ Auth.uid decoded) = None
         ∧ userCache w' = <["user:" +:+ Auth.uid decoded := Auth.dbUser ru]> (userCache w)
         ∧ (Auth.findByFirebaseUid (Auth.uid decoded) (users w) = Some (Auth.dbUser ru)
            ∧ dom (users w') = dom (users w)
            ∨ Auth.findByFirebaseUid (Auth.uid decoded) (users w) = None
              ∧ users w !! Auth.userId ru = None
              ∧ Auth.provision fb decoded = Some (Auth.dbUser ru)
              ∧ users w' !! Auth.userId ru
                = Some (User.setLastActiveAt (clock w (tick w)) (Auth.dbUser ru))
              ∧ dom (users w') = {[ Auth.userId ru ]} ∪ dom (users w))).
Proof.
  simpl.
  destruct (Auth.authenticateToken fb token w) as [o w'] eqn:Hrun.
  simpl. intros ->.
  unfold Auth.authenticateToken, Auth.insertUser, Logger.logAuth, Logger.log in Hrun.
  unfold_monad.
  destruct token as [tok|]; [|done].
  destruct (truthy tok) eqn:Ht; simpl in Hrun; [|done].
  destruct (Auth.verifyFirebaseToken fb tok) as [decoded|] eqn:Hv;
    simpl in Hrun; [|done].
  exists tok, decoded. 
  destruct (userCache w !! _) as [cached|] eqn:Hc; simpl in Hrun.
  { simplify_eq. simpl. repeat split; auto. left. repeat split.
    by rewrite dom_alter_L. }
  destruct (Auth.findByFirebaseUid _ _) as [found|] eqn:Hf; simpl in Hrun.
  { simplify_eq. simpl. repeat split; auto. right. repeat split.
    left. split; [done|]. by rewrite dom_alter_L. }
  destruct (Auth.provision fb decoded) as [new|] eqn:Hp; simpl in Hrun; [|done].
  destruct (users w !! User._id new) eqn:Hn; simpl in Hrun; [done|].
  simplify_eq. simpl. repeat split; auto. right. repeat split. right.
  repeat split; auto.
  - by rewrite lookup_alter_eq, lookup_insert_eq.
  - by rewrite dom_alter_L, dom_insert_L.
Qed.

Lemma authenticateToken_caches fb token ru w :
  (Auth.authenticateToken fb token w).1 = Returned (inr ru) →
  ∃ tok decoded,
    token = Some tok ∧ truthy tok = true
    ∧ Auth.verifyFirebaseToken fb tok = Some decoded
    ∧ ru = Auth.mkAuthUser (Auth.uid decoded) (Auth.token_email decoded)
             (User._id (Auth.dbUser ru)) (Auth.dbUser ru)
    ∧ userCache (Auth.authenticateToken fb token w).2
        !! ("user:" +:+ Auth.uid decoded) = Some (Auth.dbUser ru).
Proof.
  intros H. destruct (authenticateToken_success _ _ _ _ H)
    as (tok & decoded & -> & Ht & Hv & Hu & He & Hi & Hcases).
  exists tok, decoded. repeat split; auto.
  - destruct ru; simpl in *; congruence.
  - destruct Hcases as [(Hc & -> & _)|(_ & -> & _)]; [done|].
    by rewrite lookup_insert_eq.
Qed.

Lemma session_stable_run fb token ru w :
  (Auth.authenticateToken fb token w).1 = Returned (inr ru) →
  let w1 := (Auth.authenticateToken fb token w).2 in
  (Auth.authenticateToken fb token w1).1 = Returned (inr ru)
  ∧ Gates.attached w1 ru = Gates.Plain (Auth.dbUser ru).
Proof.
  intros H w1. subst w1.
  destruct (authenticateToken_caches _ _ _ _ H)
    as (tok & decoded & -> & Ht & Hv & Hru & Hc).
  rewrite (authenticateToken_cached _ _ _ _ _ Ht Hv Hc). simpl.
  split; [by rewrite <- Hru|].
  unfold Gates.attached. rewrite Hru. simpl. by rewrite Hc.
Qed.

(** X13.  A request without a bearer token is answered 401
    "Access token required" and leaves no trace at all; a request whose
    token the identity provider rejects is answered 401
    "Invalid or expired token", and its only trace is one [failed_login]
    record in the log: no account is created or touched, nothing is
    cached, the clock is not read. *)
Theorem authentication_refused fb token w :
  (∀ tok, token = Some tok → truthy tok = true →
          Auth.verifyFirebaseToken fb tok = None) →
  let res := Auth.authenticateToken fb token w in
  ∃ r, res.1 = Returned (inl r) ∧ status r = 401
       ∧ users res.2 = users w ∧ userCache res.2 = userCache w
       ∧ tick res.2 = tick w
       ∧ match token with
         | Some tok =>
             if truthy tok
             then errorOf r = Some "Invalid or expired token"
                  ∧ ∃ record, logs res.2 = logs w ++ [record]
                              ∧ Log.type record = "auth"
                              ∧ Log.action record = "failed_login"
                              ∧ Log.status record = "failure"
                              ∧ Log.userId record = None
             else errorOf r = Some "Access token required" ∧ res.2 = w
         | None => errorOf r = Some "Access token required" ∧ res.2 = w
         end.
Proof.
  intros Hrej. simpl.
  unfold Auth.authenticateToken, Logger.logAuth, Logger.log. unfold_monad.
  destruct token as [tok|]; simpl; [|by eexists].
  destruct (truthy tok) eqn:Ht; simpl; [|by eexists].
  rewrite (Hrej tok eq_refl Ht). simpl.
  eexists. repeat split; eauto 10.
Qed.

Lemma authentication_refused_witness :
  ∃ r, (Auth.authenticateToken Sample.firebase (Some "token-mallory") Sample.w0).1
       = Returned (inl r)
       ∧ status r = 401
       ∧ users (Auth.authenticateToken Sample.firebase (Some "token-mallory")
                  Sample.w0).2 = users Sample.w0.
Proof.
  destruct (authentication_refused Sample.firebase (Some "token-mallory") Sample.w0)
    as (r & Hr & Hs & Hu & _).
  - intros tok [= <-] _. reflexivity.
  - exists r. split; [exact Hr|]. split; [exact Hs|exact Hu].
Defined.

(** ** The subscription gates *)

Lemma isTrialExpired_run u w :
  UserMethods.isTrialExpired u w
  = (Returned (UserMethods.trialExpiredAt (clock w (tick w)) u),
     match User.status (User.subscription u),
           User.trialEndsAt (User.subscription u) with
     | User.free_trial, Some _ => set_tick (S (tick w)) w
     | _, _ => w
     end).
Proof.
  unfold UserMethods.isTrialExpired, UserMethods.trialExpiredAt. unfold_monad.
  destruct (User.status (User.subscription u)); simpl; try done.
  by destruct (User.trialEndsAt (User.subscription u)).
Qed.

Lemma isSubscriptionActive_run u w :
  UserMethods.isSubscriptionActive u w
  = (Returned (UserMethods.subscriptionActiveAt (clock w (tick w)) u),
     match User.status (User.subscription u),
           User.trialEndsAt (User.subscription u) with
     | User.free_trial, Some _ => set_tick (S (tick w)) w
     | _, _ => w
     end).
Proof.
  unfold UserMethods.isSubscriptionActive, UserMethods.subscriptionActiveAt.
  destruct (User.status (User.subscription u)) eqn:Hs; simpl; try done.
  unfold bind, ret. rewrite isTrialExpired_run, Hs.
  unfold UserMethods.trialExpiredAt. rewrite Hs. simpl.
  by destruct (User.trialEndsAt (User.subscription u)).
Qed.

(** X15.  The subscription gate, for a user loaded from the database:
    it lets the request through exactly when the account is [active], or
    on trial with no end date or an end date not before the clock reading
    (a trial ending at that very instant still passes); otherwise it
    answers 403.  It never answers 401 or 500 and changes nothing but the
    number of clock readings. *)
Theorem subscription_gate_decision u w :
  let res := Gates.requireSubscription (Some (Gates.Document u)) w in
  let now := clock w (tick w) in
  let sub := User.subscription u in
  ∃ r n, res = (Returned r, set_tick (tick w + n) w)
    ∧ (r = inr tt
       ↔ User.status sub = User.active
         ∨ (User.status sub = User.free_trial
            ∧ ∀ e, User.trialEndsAt sub = Some e → now ≤ e))
    ∧ (∀ response, r = inl response →
         status response = 403
         ∧ errorOf response = Some "Active subscription required").
Proof.
  simpl. unfold Gates.requireSubscription, Gates.callMethod, tryCatch, bind, ret.
  rewrite isSubscriptionActive_run.
  unfold UserMethods.subscriptionActiveAt, UserMethods.trialExpiredAt.
  destruct u as [id fuid em toks [st cus sid cps cpe te ca pl] se ia la]; simpl.
  destruct st; simpl.
  - (* free_trial *)
    destruct te as [e|]; simpl.
    + destruct (Z.ltb_spec e (clock w (tick w))) as [Hlt|Hge]; simpl.
      * rewrite ?isTrialExpired_run. simpl.
        eexists _, 2%nat. split.
        { f_equal. destruct w; unfold set_tick; simpl. f_equal. lia. }
        split; [|by intros ? [= <-]].
        split; [done|]. intros [?|[_ He]]; [done|]. specialize (He _ eq_refl). lia.
      * eexists _, 1%nat. split.
        { f_equal. destruct w; unfold set_tick; simpl. f_equal. lia. }
        split; [|done]. split; [|done]. intros _. right. split; [done|].
        by intros ? [= <-].
    + eexists _, 0%nat. split.
      { f_equal. destruct w; unfold set_tick; simpl. f_equal. lia. }
      split; [|done]. split; [|done]. intros _. right. by split.
  - eexists _, 0%nat. split.
    { f_equal. destruct w; unfold set_tick; simpl. f_equal. lia. }
    split; [|done]. split; [|done]. intros _. by left.
  - rewrite ?isTrialExpired_run. simpl. eexists _, 0%nat. split.
    { f_equal. destruct w; unfold set_tick; simpl. f_equal. lia. }
    split; [|by intros ? [= <-]]. split; [done|]. by intros [?|[? _]].
  - rewrite ?isTrialExpired_run. simpl. eexists _, 0%nat. split.
    { f_equal. destruct w; unfold set_tick; simpl. f_equal. lia. }
    split; [|by intros ? [= <-]]. split; [done|]. by intros [?|[? _]].
Qed.

(** X17.  The subscription gate cannot serve a user taken from the cache.
    What [authenticateToken] parses from the cache is a plain object
    without the schema's methods, so the gate's call of
    [isSubscriptionActive] throws and the gate answers 500
    "Failed to verify subscription".  Hence, while the cache entry that
    the first authentication wrote is there, every further request with
    the same token is refused by the chain
    [authenticateToken, requireSubscription], whatever the subscription
    of the account. *)
Theorem cached_user_fails_subscription_gate fb token ru w :
  (Auth.authenticateToken fb token w).1 = Returned (inr ru) →
  let w1 := (Auth.authenticateToken fb token w).2 in
  (Gates.subscribed fb token w1).1
  = Returned (inl (mkResponse 500
                     (JObj [("error", JStr "Failed to verify subscription")]))).
Proof.
  intros H w1.
  destruct (session_stable_run fb token ru w H) as (Hagain & Hatt).
  fold w1 in Hagain, Hatt.
  unfold Gates.subscribed, bind, get, ret.
  destruct (Auth.authenticateToken fb token w1) as [o w2]. simpl in Hagain.
  subst o. rewrite Hatt. reflexivity.
Qed.

Lemma cached_user_fails_subscription_gate_witness :
  let w1 := (Auth.authenticateToken Sample.firebase (Some "token-alice") Sample.w0).2 in
  (∃ r, (Gates.subscribed Sample.firebase (Some "token-alice") Sample.w0).1
        = Returned (inr r))
  ∧ ∃ response,
      (Gates.subscribed Sample.firebase (Some "token-alice") w1).1
      = Returned (inl response)
      ∧ status response = 500.
Proof.
  split; [eexists; reflexivity|].
  eexists. split.
  - apply (cached_user_fails_subscription_gate Sample.firebase (Some "token-alice")
             (Auth.mkAuthUser "fb-alice" "alice@example.com" Sample.aliceId
                Sample.alice)
             Sample.w0).
    reflexivity.
  - reflexivity.
Defined.

(** ** Device tokens *)

Lemma elem_of_snoc (x : string) (l : list string) : x ∈ l ++ [x].
Proof. apply elem_of_app. right. by apply list_elem_of_singleton. Qed.

Lemma updateFCMToken_run token ru user w :
  truthy token = true →
  users w !! Auth.userId ru = Some user →
  Gates.updateFCMToken (Some token) (Some ru) w
  = (Returned tt,
     if NotificationService.inList token (User.fcmTokens user) then w
     else set_userCache
            (<["user:" +:+ Auth.au_uid ru :=
                 UserMethods.setFcmTokens (User.fcmTokens user ++ [token]) user]>
               (userCache w))
            (set_users
               (alter (fun stored =>
                         UserMethods.setFcmTokens
                           (User.fcmTokens stored ++ [token]) stored)
                      (Auth.userId ru) (users w)) w)).
Proof.
  intros Ht Hu. unfold Gates.updateFCMToken. unfold_monad.
  rewrite Ht, Hu.
  by destruct (NotificationService.inList token (User.fcmTokens user)).
Qed.

(** X18.  The [fcm-token] header registers the device with the
    authenticated account: afterwards the token is among the account's
    tokens, the tokens it had are kept in their order, a list without
    duplicates stays so, and no other account is touched.  Sending the
    header again changes nothing. *)
Theorem device_token_registered token ru user w :
  truthy token = true →
  users w !! Auth.userId ru = Some user →
  let res := Gates.updateFCMToken (Some token) (Some ru) w in
  res.1 = Returned tt
  ∧ (∃ user',
       users res.2 !! Auth.userId ru = Some user'
       ∧ token ∈ User.fcmTokens user'
       ∧ User.fcmTokens user `prefix_of` User.fcmTokens user'
       ∧ (NoDup (User.fcmTokens user) → NoDup (User.fcmTokens user'))
       ∧ UserMethods.setFcmTokens (User.fcmTokens user) user' = user)
  ∧ (∀ id, id ≠ Auth.userId ru → users res.2 !! id = users w !! id)
  ∧ Gates.updateFCMToken (Some token) (Some ru) res.2 = (Returned tt, res.2).
Proof.
  intros Ht Hu res. subst res. rewrite (updateFCMToken_run _ _ _ _ Ht Hu).
  simpl. split; [done|].
  destruct (NotificationService.inList token (User.fcmTokens user)) eqn:Hin.
  - split; [|split; [done|]].
    + exists user. split; [done|]. split; [by apply inList_spec|].
      split; [done|]. split; [done|]. by destruct user.
    + by rewrite (updateFCMToken_run _ _ _ _ Ht Hu), Hin.
  - assert (token ∉ User.fcmTokens user) as Hnot.
    { intros Hel%inList_spec. congruence. }
    split; [|split].
    + simpl. rewrite lookup_alter_eq, Hu. simpl. eexists. split; [reflexivity|].
      simpl. split; [apply elem_of_snoc|]. split; [by apply prefix_app_r|].
      split; [|by destruct user].
      intros Hnd. apply NoDup_app. split; [done|]. split; [|apply NoDup_singleton].
      intros x Hx ->%list_elem_of_singleton. done.
    + intros id Hne. simpl. by rewrite lookup_alter_ne.
    + erewrite updateFCMToken_run; [|done|simpl; by rewrite lookup_alter_eq, Hu].
      simpl.
      assert (NotificationService.inList token (User.fcmTokens user ++ [token]) = true)
        as -> by (apply inList_spec, elem_of_snoc).
      done.
Qed.

Lemma device_token_registered_witness :
  ∃ user',
    users (Gates.updateFCMToken (Some "tok-phone")
             (Some (Auth.mkAuthUser "fb-alice" "alice@example.com" Sample.aliceId
                      Sample.alice))
             Sample.w0).2 !! Sample.aliceId = Some user'
    ∧ "tok-phone" ∈ User.fcmTokens user'
    ∧ ["tok-alice"] `prefix_of` User.fcmTokens user'.
Proof.
  destruct (device_token_registered "tok-phone"
              (Auth.mkAuthUser "fb-alice" "alice@example.com" Sample.aliceId
                 Sample.alice)
              Sample.alice Sample.w0)
    as (_ & (user' & Hu & Hin & Hpre & _) & _).
  - reflexivity.
  - reflexivity.
  - exists user'. split; [exact Hu|]. split; [exact Hin|exact Hpre].
Defined.

Lemma logoutHandler_run fcmToken ru w :
  ∃ record,
    AuthRoutes.logoutHandler fcmToken ru w
    = (Returned (mkResponse 200 (JObj [("success", JBool true);
                                       ("message", JStr "Logout successful")])),
       set_logs (logs w ++ [record])
         (set_userCache (delete ("user:" +:+ Auth.au_uid ru) (userCache w))
            (set_users
               (alter (fun stored =>
                         UserMethods.setFcmTokens
                           (filter (fun t => t ≠ fcmToken) (User.fcmTokens stored))
                           stored)
                      (Auth.userId ru) (users w)) w)))
    ∧ Log.type record = "auth" ∧ Log.action record = "logout"
    ∧ Log.userId record = Some (Auth.userId ru).
Proof.
  unfold AuthRoutes.logoutHandler, Logger.logAuth, Logger.log. unfold_monad.
  simpl. eexists. split; [reflexivity|]. done.
Qed.

(** X19.  Logging a device out removes its token, every occurrence of it,
    and nothing else: the other tokens of the account are kept in their
    order, the other accounts are as before, and the cache entry of the
    identity is dropped, so that the next request reloads the account. *)
Theorem logout_removes_token fcmToken ru user w :
  users w !! Auth.userId ru = Some user →
  let res := AuthRoutes.logoutHandler fcmToken ru w in
  (∃ response, res.1 = Returned response ∧ status response = 200)
  ∧ (∃ user',
       users res.2 !! Auth.userId ru = Some user'
       ∧ (fcmToken ∉ User.fcmTokens user')
       ∧ (∀ t, t ≠ fcmToken → (t ∈ User.fcmTokens user' ↔ t ∈ User.fcmTokens user))
       ∧ User.fcmTokens user' `sublist_of` User.fcmTokens user
       ∧ UserMethods.setFcmTokens (User.fcmTokens user) user' = user)
  ∧ (∀ id, id ≠ Auth.userId ru → users res.2 !! id = users w !! id)
  ∧ userCache res.2 !! ("user:" +:+ Auth.au_uid ru) = None.
Proof.
  intros Hu res. subst res.
  destruct (logoutHandler_run fcmToken ru w) as (record & -> & _). simpl.
  split; [by eexists|]. split; [|split].
  - rewrite lookup_alter_eq, Hu. simpl. eexists. split; [reflexivity|]. simpl.
    split; [|split; [|split]].
    + intros [? _]%list_elem_of_filter. done.
    + intros t Hne. rewrite list_elem_of_filter. split; [by intros [_ ?]|by intros].
    + apply sublist_filter.
    + by destruct user.
  - intros id Hne. by rewrite lookup_alter_ne.
  - apply lookup_delete_eq.
Qed.

Lemma logout_removes_token_witness :
  ∃ user',
    users (AuthRoutes.logoutHandler "tok-alice"
             (Auth.mkAuthUser "fb-alice" "alice@example.com" Sample.aliceId
                Sample.alice)
             Sample.w0).2 !! Sample.aliceId = Some user'
    ∧ ("tok-alice" ∉ User.fcmTokens user').
Proof.
  destruct (logout_removes_token "tok-alice"
              (Auth.mkAuthUser "fb-alice" "alice@example.com" Sample.aliceId
                 Sample.alice)
              Sample.alice Sample.w0)
    as (_ & (user' & Hu & Hnot & _) & _).
  - reflexivity.
  - exists user'. split; [exact Hu|exact Hnot].
Defined.

Lemma filter_app_fresh (token : string) (tokens : list string) :
  token ∉ tokens → filter (fun t => t ≠ token) (tokens ++ [token]) = tokens.
Proof.
  intros Hnot. rewrite filter_app.
  rewrite (filter_cons_False _ token []) by (intros ?; done).
  rewrite filter_nil, app_nil_r.
  induction tokens as [|t tokens IH]; [done|].
  apply not_elem_of_cons in Hnot as [Hne Hnot].
  rewrite filter_cons_True by done. by rewrite IH.
Qed.

(** X21.  Replacing a device token ([PUT /fcm-token]): afterwards the new
    token is registered, the old one (when given, and different from the
    new one) is not, every other token of the account is kept and none is
    invented, a list without duplicates stays so, and the cache holds the
    account as saved. *)
Theorem token_rotation fcmToken oldToken ru user w :
  users w !! Auth.userId ru = Some user →
  let res := AuthRoutes.fcmTokenHandler fcmToken oldToken ru w in
  (∃ response, res.1 = Returned response ∧ status response = 200)
  ∧ ∃ user',
      users res.2 !! Auth.userId ru = Some user'
      ∧ fcmToken ∈ User.fcmTokens user'
      ∧ (∀ old, oldToken = Some old → truthy old = true → old ≠ fcmToken →
           old ∉ User.fcmTokens user')
      ∧ (∀ t, t ∈ User.fcmTokens user' → t = fcmToken ∨ t ∈ User.fcmTokens user)
      ∧ (∀ t, t ∈ User.fcmTokens user → oldToken ≠ Some t →
           t ∈ User.fcmTokens user')
      ∧ (NoDup (User.fcmTokens user) → NoDup (User.fcmTokens user'))
      ∧ UserMethods.setFcmTokens (User.fcmTokens user) user' = user
      ∧ userCache res.2 !! ("user:" +:+ Auth.au_uid ru) = Some user'.
Proof.
  intros Hu res. subst res.
  unfold AuthRoutes.fcmTokenHandler. unfold_monad. rewrite Hu.
  set (tokens1 := match oldToken with
                  | Some old =>
                      if truthy old
                         && NotificationService.inList old (User.fcmTokens user)
                      then filter (fun token => token ≠ old) (User.fcmTokens user)
                      else User.fcmTokens user
                  | None => User.fcmTokens user
                  end).
  set (tokens2 := if negb (NotificationService.inList fcmToken tokens1)
                  then tokens1 ++ [fcmToken] else tokens1).
  assert (∀ t, t ∈ tokens1 → t ∈ User.fcmTokens user) as H1.
  { subst tokens1. intros t. destruct oldToken as [old|]; [|done].
    destruct (_ && _); [|done]. by intros [_ ?]%list_elem_of_filter. }
  assert (∀ old, oldToken = Some old → truthy old = true → old ∉ tokens1) as H2.
  { subst tokens1. intros old -> Ht. rewrite Ht. simpl.
    destruct (NotificationService.inList old (User.fcmTokens user)) eqn:Hin.
    - by intros [? _]%list_elem_of_filter.
    - intros ?%inList_spec. congruence. }
  assert (∀ t, t ∈ User.fcmTokens user → oldToken ≠ Some t → t ∈ tokens1) as H3.
  { subst tokens1. intros t Ht Hne. destruct oldToken as [old|]; [|done].
    destruct (_ && _); [|done]. apply list_elem_of_filter. split; [|done].
    congruence. }
  assert (NoDup (User.fcmTokens user) → NoDup tokens1) as H4.
  { subst tokens1. intros Hnd. destruct oldToken as [old|]; [|done].
    destruct (_ && _); [|done]. by apply NoDup_filter. }
  assert (fcmToken ∈ tokens2
          ∧ (∀ t, t ∈ tokens2 ↔ t = fcmToken ∨ t ∈ tokens1)
          ∧ (NoDup tokens1 → NoDup tokens2)) as (H5 & H6 & H7).
  { subst tokens2.
    destruct (NotificationService.inList fcmToken tokens1) eqn:Hin; simpl.
    - apply inList_spec in Hin. split; [done|]. split; [|done].
      intros t. split; [by right|]. by intros [->|?].
    - assert (fcmToken ∉ tokens1) as Hnot by (intros ?%inList_spec; congruence).
      split; [apply elem_of_snoc|]. split.
      { intros t. rewrite elem_of_app, list_elem_of_singleton. tauto. }
      intros Hnd. apply NoDup_app. split; [done|]. split; [|apply NoDup_singleton].
      intros x Hx ->%list_elem_of_singleton. done. }
  simpl. split; [by eexists|].
  exists (UserMethods.setFcmTokens tokens2 user).
  rewrite lookup_alter_eq, Hu, lookup_insert_eq. simpl.
  split; [done|]. split; [done|]. split; [|split; [|split; [|split; [|split]]]].
  - intros old Ho Ht Hne Hin. apply H6 in Hin as [->|Hin]; [done|].
    by eapply H2.
  - intros t [->|Hin]%H6; [by left|right; by apply H1].
  - intros t Hin Hne. apply H6. right. by apply H3.
  - intros Hnd. by apply H7, H4.
  - by destruct user.
  - done.
Qed.

Lemma token_rotation_witness :
  ∃ user',
    users (AuthRoutes.fcmTokenHandler "tok-new" (Some "tok-alice")
             (Auth.mkAuthUser "fb-alice" "alice@example.com" Sample.aliceId
                Sample.alice)
             Sample.w0).2 !! Sample.aliceId = Some user'
    ∧ "tok-new" ∈ User.fcmTokens user'.
Proof.
  destruct (token_rotation "tok-new" (Some "tok-alice")
              (Auth.mkAuthUser "fb-alice" "alice@example.com" Sample.aliceId
                 Sample.alice)
              Sample.alice Sample.w0)
    as (_ & user' & Hu & Hin & _).
  - reflexivity.
  - exists user'. split; [exact Hu|exact Hin].
Defined.

(** ** Deactivation and the reminder jobs *)

Lemma deleteAccountHandler_run ru w :
  ∃ record,
    AuthRoutes.deleteAccountHandler ru w
    = (Returned (mkResponse 200
                   (JObj [("success", JBool true);
                          ("message", JStr "Account deactivated successfully")])),
       set_logs (logs w ++ [record])
         (set_userCache (delete ("user:" +:+ Auth.au_uid ru) (userCache w))
            (set_users
               (alter (UserMethods.setIsActive false) (Auth.userId ru) (users w))
               (set_tick (S (tick w)) w))))
    ∧ Log.type record = "auth" ∧ Log.action record = "account_deactivation".
Proof.
  unfold AuthRoutes.deleteAccountHandler, Logger.logAuth, Logger.log.
  unfold_monad. simpl. eexists. split; [reflexivity|]. done.
Qed.

(** Whom a run of the progress reminder pushes to. *)
Lemma progress_reminder_recipients fcm hour w :
  ∃ new,
    pushes (NotificationService.sendProgressReminders fcm hour w).2
    = pushes w ++ new
    ∧ ∀ m t, m ∈ new → t ∈ mc_tokens m →
        ∃ id u, users w !! id = Some u
                ∧ NotificationService.reminderQuery hour u = true
                ∧ t ∈ User.fcmTokens u.
Proof.
  unfold NotificationService.sendProgressReminders.
  unfold tryCatch, bind, newDate, get, ret.
  cbn [LocalTZA clock tick users progress pushes set_tick fst snd].
  set (today := JSDate.setHours (LocalTZA w) (clock w (tick w)) 0 0 0 0).
  set (candidates := NotificationService.find
                       (NotificationService.reminderQuery hour) (users w)).
  set (batch := NotificationService.usersNeedingReminders today (progress w)
                  candidates).
  destruct (NotificationService.nonEmpty candidates); cbn [negb].
  2:{ exists []. cbn [pushes set_tick snd]. rewrite app_nil_r.
      split; [done|]. by intros m t ?%elem_of_nil. }
  destruct (NotificationService.nonEmpty (NotificationService.allTokens batch));
    cbn [negb].
  2:{ exists []. cbn [pushes set_tick snd]. rewrite app_nil_r.
      split; [done|]. by intros m t ?%elem_of_nil. }
  cbn [LocalTZA clock tick users progress pushes set_tick fst snd].
  match goal with |- context [Firebase.sendMulticastNotification ?a ?b ?c ?d ?e ?w0] =>
    destruct (sendMulticastNotification_run a b c d e w0) as (o & record & ->) end.
  eexists [_]. split.
  { destruct o; cbn [users progress pushes set_tick set_logs set_pushes fst snd];
      reflexivity. }
  intros m t ->%list_elem_of_singleton Ht. cbn [mc_tokens] in Ht.
  unfold NotificationService.allTokens in Ht.
  apply list_elem_of_In, in_flat_map in Ht as (u & Hu & Ht).
  subst batch. unfold NotificationService.usersNeedingReminders in Hu.
  apply filter_In in Hu as [Hu _]. apply list_elem_of_In, find_spec in Hu
    as [[id Hid] Hq].
  exists id, u. split; [done|]. split; [done|]. by apply list_elem_of_In.
Qed.

(** Whom a run of the trial-expiry check pushes to. *)
Lemma trial_expiry_recipients fcm w :
  ∃ new,
    pushes (NotificationService.checkAndSendTrialExpiryReminders fcm w).2
    = pushes w ++ new
    ∧ ∀ m t, m ∈ new → t ∈ mc_tokens m →
        ∃ id u, users w !! id = Some u
                ∧ User.isActive u = true
                ∧ User.status (User.subscription u) = User.free_trial
                ∧ t ∈ User.fcmTokens u.
Proof.
  unfold NotificationService.checkAndSendTrialExpiryReminders.
  unfold tryCatch, bind at 1, newDate, bind at 1, get.
  cbn [LocalTZA clock tick users set_tick].
  rewrite setDate_getDate.
  match goal with |- context [forEach ?l ?f ?w0] =>
    destruct (forEach_remind fcm (clock w (tick w)) l w0)
      as (w2 & Hrun & _ & _ & _ & Hpu) end.
  { apply Forall_forall. intros u Hu.
    apply find_spec in Hu as [_ Hq]. apply expiryQuery_spec in Hq. tauto. }
  rewrite Hrun. cbn [snd]. rewrite Hpu. cbn [pushes set_tick].
  eexists. split; [reflexivity|].
  intros m t Hm Ht.
  apply list_elem_of_fmap in Hm as (u & -> & Hu).
  apply list_elem_of_In, filter_In in Hu as [Hu _].
  apply list_elem_of_In, find_spec in Hu as [[id Hid] Hq].
  apply expiryQuery_spec in Hq as (Ha & Hs & _).
  exists id, u. by repeat split.
Qed.

(** X22.  A deactivated account drops out of both reminder jobs.  After
    [DELETE /account], whatever the progress reminder of any hour and the
    trial-expiry check push goes to tokens of other accounts, which are
    active; the account's cache entry is gone and no other account is
    changed. *)
Theorem deactivated_account_gets_no_reminder fcm hour ru w :
  let w1 := (AuthRoutes.deleteAccountHandler ru w).2 in
  (∃ new1 new2,
     pushes (NotificationService.sendProgressReminders fcm hour w1).2
     = pushes w ++ new1
     ∧ pushes (NotificationService.checkAndSendTrialExpiryReminders fcm w1).2
       = pushes w ++ new2
     ∧ ∀ m t, m ∈ new1 ++ new2 → t ∈ mc_tokens m →
         ∃ id u, id ≠ Auth.userId ru ∧ users w !! id = Some u
                 ∧ User.isActive u = true ∧ t ∈ User.fcmTokens u)
  ∧ (∀ u, users w !! Auth.userId ru = Some u →
          users w1 !! Auth.userId ru = Some (UserMethods.setIsActive false u))
  ∧ (∀ id, id ≠ Auth.userId ru → users w1 !! id = users w !! id)
  ∧ userCache w1 !! ("user:" +:+ Auth.au_uid ru) = None.
Proof.
  intros w1. subst w1.
  destruct (deleteAccountHandler_run ru w) as (record & -> & _). cbn [snd].
  set (w1 := set_logs _ _).
  assert (∀ id u, users w1 !! id = Some u → User.isActive u = true →
            id ≠ Auth.userId ru ∧ users w !! id = Some u) as Hother.
  { intros id u Hu Ha. subst w1. simpl in Hu.
    destruct (decide (id = Auth.userId ru)) as [->|Hne].
    - rewrite lookup_alter_eq in Hu.
      destruct (users w !! Auth.userId ru) as [u0|]; simpl in Hu; [|done].
      by simplify_eq.
    - by rewrite lookup_alter_ne in Hu. }
  split; [|split; [|split]].
  - destruct (progress_reminder_recipients fcm hour w1) as (new1 & H1 & R1).
    destruct (trial_expiry_recipients fcm w1) as (new2 & H2 & R2).
    exists new1, new2. split; [exact H1|]. split; [exact H2|].
    intros m t [Hm|Hm]%elem_of_app Ht.
    + destruct (R1 m t Hm Ht) as (id & u & Hu & Hq & Hin).
      apply reminderQuery_spec in Hq as (Ha & _).
      destruct (Hother id u Hu Ha). by exists id, u.
    + destruct (R2 m t Hm Ht) as (id & u & Hu & Ha & _ & Hin).
      destruct (Hother id u Hu Ha). by exists id, u.
  - intros u Hu. subst w1. simpl. by rewrite lookup_alter_eq, Hu.
  - intros id Hne. subst w1. simpl. by rewrite lookup_alter_ne.
  - subst w1. simpl. apply lookup_delete_eq.
Qed.

(** ** Messages on request *)

(** X23.  A motivational message is pushed exactly at the milestones: for
    a non-empty token list and a streak of 3, 7, 14, 30, 60 or 100 days
    one multicast goes to these tokens, carrying the streak; for any other
    streak, or without tokens, nothing at all happens.  Either way the
    call returns, even when the push provider rejects the send, and no
    account is touched. *)
Theorem motivational_message_milestones fcm userId fcmTokens streak w :
  let res := Messages.sendMotivationalMessage fcm userId fcmTokens streak w in
  let milestone := bool_decide (streak ∈ [3; 7; 14; 30; 60; 100]) in
  res.1 = Returned tt
  ∧ users res.2 = users w
  ∧ (if NotificationService.nonEmpty fcmTokens && milestone
     then ∃ title body,
            pushes res.2
            = pushes w
              ++ [mkMulticast fcmTokens title body
                    [("type", "motivational"); ("userId", userId);
                     ("streak", numberToString streak);
                     ("action", "view_progress")]]
     else res.2 = w).
Proof.
  cbv zeta. unfold Messages.sendMotivationalMessage, tryCatch, bind, ret.
  destruct fcmTokens as [|t0 rest]; [done|].
  cbn [NotificationService.nonEmpty negb andb].
  destruct (List.find _ Messages.motivationalMessages) as [message|] eqn:Hfind.
  - apply find_some in Hfind as [Hin Heq]. apply Z.eqb_eq in Heq.
    rewrite bool_decide_eq_true_2.
    2:{ rewrite <- Heq. unfold Messages.motivationalMessages in Hin.
        simpl in Hin. destruct_or!; try done; subst message; simpl.
        all: repeat (apply elem_of_cons; first [by left | right]). }
    match goal with
    | |- context [Firebase.sendMulticastNotification ?a ?b ?c ?d ?e ?w0] =>
        destruct (sendMulticastNotification_run a b c d e w0) as (o & record & ->)
    end.
    destruct o; cbn [fst snd users pushes set_logs set_pushes]; eauto.
  - rewrite bool_decide_eq_false_2; [done|].
    intros H.
    assert (∀ a b c, In (a, b, c) Messages.motivationalMessages → a ≠ streak)
      as Hno.
    { intros a b c Hm. apply (find_none _ _ Hfind) in Hm. by apply Z.eqb_neq. }
    unfold Messages.motivationalMessages in Hno.
    repeat (apply elem_of_cons in H as [->|H];
            [eapply Hno; [|reflexivity]; simpl;
             repeat first [left; reflexivity | right]|]).
    by apply elem_of_nil in H.
Qed.

(** ** Generating a code *)

Lemma attempt_spec randomPart existing prefix n : ∀ i,
  let candidate j :=
    if truthy prefix then prefix +:+ randomPart j else randomPart j in
  match Generate.attempt randomPart existing prefix n i with
  | inr code =>
      ∃ k, (i ≤ k < i + n)%nat ∧ code = candidate k ∧ existing code = false
           ∧ ∀ j, (i ≤ j < k)%nat → existing (candidate j) = true
  | inl msg =>
      msg = "Unable to generate unique promo code"
      ∧ ∀ j, (i ≤ j < i + n)%nat → existing (candidate j) = true
  end.
Proof.
  induction n as [|n IH]; intros i; simpl.
  - split; [done|]. intros j Hj. lia.
  - destruct (existing (if truthy prefix then _ else _)) eqn:He; simpl.
    + specialize (IH (S i)). simpl in IH.
      destruct (Generate.attempt randomPart existing prefix n (S i)) as [msg|code].
      * destruct IH as [-> IH]. split; [done|]. intros j Hj.
        destruct (decide (j = i)) as [->|Hne]; [done|]. apply IH. lia.
      * destruct IH as (k & Hk & -> & Hfree & Hbefore).
        exists k. split; [lia|]. split; [done|]. split; [done|].
        intros j Hj. destruct (decide (j = i)) as [->|Hne]; [done|].
        apply Hbefore. lia.
    + exists i. split; [lia|]. split; [done|]. split; [done|]. intros j Hj. lia.
Qed.

(** X24.  [generateUniqueCode] returns the first of its ten candidates
    that no stored code has: the result is [prefix] followed by the random
    part of that attempt (the random part alone without a prefix), the
    collection has no document with it, and every earlier candidate was
    taken.  It throws "Unable to generate unique promo code" exactly when
    all ten candidates are taken. *)
Theorem generated_code_is_unused randomPart existing prefix :
  let candidate j :=
    if truthy prefix then prefix +:+ randomPart j else randomPart j in
  match Generate.generateUniqueCode randomPart existing prefix with
  | inr code =>
      ∃ k, (k < 10)%nat ∧ code = candidate k ∧ existing code = false
           ∧ ∀ j, (j < k)%nat → existing (candidate j) = true
  | inl msg =>
      msg = "Unable to generate unique promo code"
      ∧ ∀ j, (j < 10)%nat → existing (candidate j) = true
  end.
Proof.
  pose proof (attempt_spec randomPart existing prefix Generate.maxAttempts 0%nat)
    as H.
  cbv zeta in H |- *. unfold Generate.generateUniqueCode.
  destruct (Generate.attempt randomPart existing prefix Generate.maxAttempts 0)
    as [msg|code].
  - destruct H as [-> H]. split; [done|]. intros j Hj. apply H.
    unfold Generate.maxAttempts. lia.
  - destruct H as (k & Hk & -> & Hfree & Hbefore). exists k.
    unfold Generate.maxAttempts in Hk.
    split; [lia|]. split; [done|]. split; [done|]. intros j Hj. apply Hbefore. lia.
Qed.

(** ** Progress entries *)



(** ** Deactivation and authentication *)

Lemma findByFirebaseUid_unique m id u :
  uniqueUids m → m !! id = Some u →
  Auth.findByFirebaseUid (User.firebaseUid u) m = Some u.
Proof.
  intros Huniq Hu. unfold Auth.findByFirebaseUid.
  set (l := filter _ _).
  assert (∀ x, x ∈ l → x = u) as Hall.
  { intros x [Hx Hin]%list_elem_of_filter.
    apply bool_decide_unpack in Hx.
    apply list_elem_of_fmap in Hin as ([k x'] & -> & Hk). simpl in *.
    apply elem_of_map_to_list in Hk.
    assert (k = id) as -> by (by eapply Huniq).
    congruence. }
  assert (u ∈ l) as Hin.
  { apply list_elem_of_filter. split; [by apply bool_decide_pack|].
    apply list_elem_of_fmap. exists (id, u). split; [done|].
    by apply elem_of_map_to_list. }
  destruct l as [|x l']; [by apply elem_of_nil in Hin|].
  simpl. f_equal. apply Hall. by left.
Qed.

Lemma uniqueUids_alter f id m :
  (∀ u, User.firebaseUid (f u) = User.firebaseUid u) →
  uniqueUids m → uniqueUids (alter f id m).
Proof.
  intros Hf Huniq id1 id2 u1 u2 H1 H2 Heq.
  apply lookup_alter_Some in H1 as [(-> & v1 & H1 & ->)|(_ & H1)];
    apply lookup_alter_Some in H2 as [(-> & v2 & H2 & ->)|(_ & H2)];
    rewrite ?Hf in Heq; by eapply Huniq.
Qed.

(** X26.  Deactivation does not lock the account out, and logging in does
    not reactivate it.  After [DELETE /account] the same token still
    authenticates as the same account: the cache entry is gone, the
    account is found again by its identity (the lookup does not look at
    [isActive]), and it is attached, cached and kept as inactive. *)
Theorem deactivated_account_still_authenticates fb tok decoded ru account w :
  uniqueUids (users w) →
  users w !! Auth.userId ru = Some account →
  User._id account = Auth.userId ru →
  User.firebaseUid account = Auth.au_uid ru →
  truthy tok = true →
  Auth.verifyFirebaseToken fb tok = Some decoded →
  Auth.uid decoded = Auth.au_uid ru →
  let w1 := (AuthRoutes.deleteAccountHandler ru w).2 in
  let res := Auth.authenticateToken fb (Some tok) w1 in
  ∃ ru',
    res.1 = Returned (inr ru')
    ∧ Auth.userId ru' = Auth.userId ru
    ∧ Auth.dbUser ru' = UserMethods.setIsActive false account
    ∧ (∃ d, users res.2 !! Auth.userId ru
            = Some (User.setLastActiveAt d (UserMethods.setIsActive false account)))
    ∧ dom (users res.2) = dom (users w).
Proof.
  intros Huniq Hacc Hid Huid Ht Hv Hdec w1 res. subst w1 res.
  destruct (deleteAccountHandler_run ru w) as (record & -> & _). cbn [snd].
  set (w1 := set_logs _ _).
  assert (users w1 = alter (UserMethods.setIsActive false) (Auth.userId ru) (users w))
    as Hus by done.
  assert (userCache w1 !! ("user:" +:+ Auth.uid decoded) = None) as Hc.
  { subst w1. simpl. rewrite Hdec. apply lookup_delete_eq. }
  assert (Auth.findByFirebaseUid (Auth.uid decoded) (users w1)
          = Some (UserMethods.setIsActive false account)) as Hf.
  { rewrite Hus, Hdec, <- Huid.
    apply (findByFirebaseUid_unique _ (Auth.userId ru)
             (UserMethods.setIsActive false account)).
    - by apply uniqueUids_alter.
    - by rewrite lookup_alter_eq, Hacc. }
  unfold Auth.authenticateToken. unfold_monad.
  rewrite Ht, Hv. cbn [negb]. rewrite Hc, Hf.
  cbn [fst snd users userCache set_userCache set_tick set_users
       Auth.userId Auth.dbUser User._id UserMethods.setIsActive].
  eexists. split; [reflexivity|]. cbn [Auth.userId Auth.dbUser].
  split; [done|]. split; [done|]. split.
  - eexists. rewrite Hid, lookup_alter_eq, Hus, lookup_alter_eq, Hacc. done.
  - by rewrite dom_alter_L, Hus, dom_alter_L.
Qed.

Lemma sample_uniqueUids : uniqueUids (users Sample.w0).
Proof.
  intros id1 id2 u1 u2 H1 H2 _.
  change (users Sample.w0)
    with ({[ Sample.aliceId := Sample.alice ]} : gmap ObjectId User.t) in H1, H2.
  apply lookup_singleton_Some in H1 as [<- _].
  by apply lookup_singleton_Some in H2 as [<- _].
Qed.

Lemma deactivated_account_still_authenticates_witness :
  let ru := Auth.mkAuthUser "fb-alice" "alice@example.com" Sample.aliceId
              Sample.alice in
  let w1 := (AuthRoutes.deleteAccountHandler ru Sample.w0).2 in
  ∃ ru',
    (Auth.authenticateToken Sample.firebase (Some "token-alice") w1).1
    = Returned (inr ru')
    ∧ Auth.userId ru' = Sample.aliceId
    ∧ User.isActive (Auth.dbUser ru') = false.
Proof.
  destruct (deactivated_account_still_authenticates Sample.firebase "token-alice"
              (Auth.mkDecoded "fb-alice" "alice@example.com")
              (Auth.mkAuthUser "fb-alice" "alice@example.com" Sample.aliceId
                 Sample.alice)
              Sample.alice Sample.w0)
    as (ru' & Hr & Hi & Hd & _).
  - exact sample_uniqueUids.
  - reflexivity.
  - reflexivity.
  - reflexivity.
  - reflexivity.
  - reflexivity.
  - reflexivity.
  - exists ru'. split; [exact Hr|]. split; [exact Hi|]. rewrite Hd. reflexivity.
Defined.

(** ** Authentication comes first *)

Lemma authenticateToken_refused fb token w :
  (∀ tok, token = Some tok → truthy tok = true →
          Auth.verifyFirebaseToken fb tok = None) →
  ∃ r w', Auth.authenticateToken fb token w = (Returned (inl r), w')
          ∧ status r = 401
          ∧ users w' = users w ∧ promoCodes w' = promoCodes w
          ∧ userCache w' = userCache w ∧ progress w' = progress w
          ∧ pushes w' = pushes w.
Proof.
  intros Hrej.
  unfold Auth.authenticateToken, Logger.logAuth, Logger.log. unfold_monad.
  destruct token as [tok|]; simpl; [|by eexists _, _].
  destruct (truthy tok) eqn:Ht; simpl; [|by eexists _, _].
  rewrite (Hrej tok eq_refl Ht). simpl. by eexists _, _.
Qed.

(** X27.  The protected endpoints do nothing for a caller who is not
    authenticated.  When the request carries no token, or one the identity
    provider rejects, redeeming a code, validating one for the account,
    logging out, deleting the account and passing the subscription gate
    are all answered 401, and neither the ledger nor any account, cache
    entry, progress entry or push is affected. *)
Theorem unauthenticated_requests_change_nothing fb token joiError code fcmToken w :
  (∀ tok, token = Some tok → truthy tok = true →
          Auth.verifyFirebaseToken fb tok = None) →
  let unchanged (w' : World) :=
    users w' = users w ∧ promoCodes w' = promoCodes w
    ∧ userCache w' = userCache w ∧ progress w' = progress w
    ∧ pushes w' = pushes w in
  let refused (res : Outcome Response * World) :=
    (∃ r, res.1 = Returned r ∧ status r = 401) ∧ unchanged res.2 in
  refused (PromoCodeRoutes.use fb token code w)
  ∧ refused (SubscriptionRoutes.promoCode fb token joiError code w)
  ∧ refused (AuthRoutes.logout fb token joiError fcmToken w)
  ∧ refused (AuthRoutes.deleteAccount fb token w)
  ∧ (∃ r, (Gates.subscribed fb token w).1 = Returned (inl r) ∧ status r = 401)
  ∧ unchanged (Gates.subscribed fb token w).2.
Proof.
  intros Hrej. cbv zeta.
  destruct (authenticateToken_refused fb token w Hrej) as (r & w' & Hrun & Hs & Hw).
  unfold PromoCodeRoutes.use, SubscriptionRoutes.promoCode, AuthRoutes.logout,
    AuthRoutes.deleteAccount, Gates.subscribed, bind, get, ret.
  rewrite Hrun. cbn [fst snd]. eauto 20.
Qed.

Lemma unauthenticated_requests_change_nothing_witness :
  (∃ r, (PromoCodeRoutes.use Sample.firebase (Some "token-mallory") "welcome"
           Sample.w0).1 = Returned r ∧ status r = 401)
  ∧ promoCodes (PromoCodeRoutes.use Sample.firebase (Some "token-mallory") "welcome"
                  Sample.w0).2 = promoCodes Sample.w0.
Proof.
  destruct (unauthenticated_requests_change_nothing Sample.firebase
              (Some "token-mallory") None "welcome" "tok-alice" Sample.w0)
    as ((Hr & _ & Hp & _) & _).
  - intros tok [= <-] _. reflexivity.
  - split; [exact Hr|exact Hp].
Defined.

(** ** Overlapping redemptions *)

Lemma exec_extends a c K p :
  c.1 !! K = Some p →
  ∃ p', (Interleaving.exec a c).1 !! K = Some p'
        ∧ PromoCode.usedBy p `prefix_of` PromoCode.usedBy p'
        ∧ PromoCode.usageLimit p' = PromoCode.usageLimit p
        ∧ PromoCode.validUntil p' = PromoCode.validUntil p
        ∧ PromoCode.isActive p' = PromoCode.isActive p.
Proof.
  intros Hp. destruct a as [i n1 n2 n3|i now]; simpl.
  - destruct (c.2 !! i) as [[code u|q u|q u|s e]|]; simpl; eauto 10.
  - destruct (c.2 !! i) as [[code u|q u|q u|s e]|]; simpl; eauto 10.
    destruct (PromoCode.use now q u) as [reason|q']; simpl; [eauto 10|].
    unfold PromoCodeModel.saveUse.
    destruct (decide (PromoCode.code q' = K)) as [<-|Hne].
    + rewrite lookup_alter_eq, Hp. simpl. eexists. split; [reflexivity|].
      simpl. split; [by apply prefix_app_r|done].
    + rewrite lookup_alter_ne by done. eauto 10.
Qed.

(** X29.  However redemption requests overlap, the ledger never forgets a
    redeemer.  Under every schedule of lookups and writes each stored code
    keeps the accounts recorded in [usedBy], in their order, since a write
    only appends to the stored list; the limit, the expiry and the
    activation of the code are never changed by a redemption. *)
Theorem overlap_never_forgets schedule : ∀ c K p,
  c.1 !! K = Some p →
  ∃ p', (Interleaving.run schedule c).1 !! K = Some p'
        ∧ PromoCode.usedBy p `prefix_of` PromoCode.usedBy p'
        ∧ PromoCode.usageLimit p' = PromoCode.usageLimit p
        ∧ PromoCode.validUntil p' = PromoCode.validUntil p
        ∧ PromoCode.isActive p' = PromoCode.isActive p.
Proof.
  unfold Interleaving.run.
  induction schedule as [|a schedule IH]; intros c K p Hp; simpl; [eauto 10|].
  destruct (exec_extends a c K p Hp) as (p1 & H1 & Hpre1 & HL1 & HU1 & HA1).
  destruct (IH _ K p1 H1) as (p' & H' & Hpre & HL & HU & HA).
  exists p'. split; [done|]. split; [by etrans|]. by rewrite HL, HU, HA.
Qed.

Lemma overlap_never_forgets_witness :
  ∃ p', (Interleaving.run Sample.overlap
           ({[ "WELCOME" := Sample.welcome ]},
            [Interleaving.Pending "WELCOME" Sample.aliceId;
             Interleaving.Pending "WELCOME" Sample.aliceId])).1 !! "WELCOME"
        = Some p'
        ∧ PromoCode.usageLimit p' = Some 1.
Proof.
  destruct (overlap_never_forgets Sample.overlap
              ({[ "WELCOME" := Sample.welcome ]},
               [Interleaving.Pending "WELCOME" Sample.aliceId;
                Interleaving.Pending "WELCOME" Sample.aliceId])
              "WELCOME" Sample.welcome)
    as (p' & Hp & _ & HL & _).
  - reflexivity.
  - exists p'. split; [exact Hp|exact HL].
Defined.

(** ** Cancelling *)

(** X30.  Cancelling revokes access at once, also "at period end".  When
    the provider accepts the cancellation, the account's status becomes
    [canceled] ([expired] for an immediate cancellation) and [canceledAt]
    the clock reading, while the paid period is kept as it was; from then
    on the subscription gate answers 403 for the stored account, however
    far in the future [currentPeriodEnd] lies. *)
Theorem cancellation_revokes_access
    update subscriptionId cancelAtPeriodEnd ru own answer account w :
  User.stripeSubscriptionId (User.subscription (Auth.dbUser ru)) = Some own →
  truthy own = true →
  update (match subscriptionId with
          | Some id => if truthy id then id else own
          | None => own
          end) cancelAtPeriodEnd = Some answer →
  users w !! Auth.userId ru = Some account →
  let res := Cancel.cancelHandler update subscriptionId cancelAtPeriodEnd ru w in
  (∃ response, res.1 = Returned response ∧ status response = 200)
  ∧ ∃ account',
      users res.2 !! Auth.userId ru = Some account'
      ∧ User.status (User.subscription account')
        = (if cancelAtPeriodEnd then User.canceled else User.expired)
      ∧ User.canceledAt (User.subscription account') = Some (clock w (tick w))
      ∧ User.currentPeriodEnd (User.subscription account')
        = User.currentPeriodEnd (User.subscription account)
      ∧ ∀ w', ∃ response,
          Gates.requireSubscription (Some (Gates.Document account')) w'
          = (Returned (inl response), w')
          ∧ status response = 403.
Proof.
  intros Hown Ht Hupd Hacc res. subst res.
  unfold Cancel.cancelHandler, Logger.logSubscription, Logger.log. unfold_monad.
  rewrite Hown. simpl. rewrite Ht. simpl. rewrite Hupd. simpl.
  split; [by eexists|].
  rewrite lookup_alter_eq, Hacc. simpl. eexists. split; [reflexivity|]. simpl.
  split; [done|]. split; [done|]. split; [done|].
  intros w'.
  unfold Gates.requireSubscription, Gates.callMethod,
    UserMethods.isSubscriptionActive, UserMethods.isTrialExpired,
    tryCatch, bind, ret.
  destruct cancelAtPeriodEnd; simpl; by eexists.
Qed.

Lemma cancellation_revokes_access_witness :
  let ru := Auth.mkAuthUser "fb-carol" "carol@example.com" SampleMore.carolId
              SampleMore.carol in
  let update := fun (_ : string) (_ : bool) => Some SampleMore.paid in
  (Gates.requireSubscription (Some (Gates.Document SampleMore.carol))
     SampleMore.wCarol).1 = Returned (inr tt)
  ∧ ∃ account',
      users (Cancel.cancelHandler update None true ru SampleMore.wCarol).2
        !! SampleMore.carolId = Some account'
      ∧ User.status (User.subscription account') = User.canceled
      ∧ User.currentPeriodEnd (User.subscription account')
        = Some (Sample.now0 + 30 * JSDate.msPerDay).
Proof.
  split; [reflexivity|].
  destruct (cancellation_revokes_access
              (fun (_ : string) (_ : bool) => Some SampleMore.paid) None true
              (Auth.mkAuthUser "fb-carol" "carol@example.com" SampleMore.carolId
                 SampleMore.carol)
              "sub_carol" SampleMore.paid SampleMore.carol SampleMore.wCarol)
    as (_ & account' & Ha & Hs & _ & He & _).
  - reflexivity.
  - reflexivity.
  - reflexivity.
  - reflexivity.
  - exists account'. split; [exact Ha|]. split; [exact Hs|exact He].
Defined.

(** ** Redemption requests behind authentication *)

(** The route is the handler, run for the authenticated account in the
    world the authentication left. *)
Lemma use_authenticated fb token code ru w :
  (Auth.authenticateToken fb token w).1 = Returned (inr ru) →
  PromoCodeRoutes.use fb token code w
  = PromoCodeRoutes.useHandler code (Auth.userId ru)
      (Auth.authenticateToken fb token w).2.
Proof.
  intros H. unfold PromoCodeRoutes.use, bind.
  destruct (Auth.authenticateToken fb token w) as [o w1]. simpl in H. subst o.
  unfold asyncHandler, tryCatch.
  destruct (useHandler_returns code (Auth.userId ru) w1) as [r Hr].
  rewrite Hr. done.
Qed.

Lemma use_refused fb token code response w :
  (Auth.authenticateToken fb token w).1 = Returned (inl response) →
  PromoCodeRoutes.use fb token code w
  = (Returned response, (Auth.authenticateToken fb token w).2).
Proof.
  intros H. unfold PromoCodeRoutes.use, bind, ret.
  destruct (Auth.authenticateToken fb token w) as [o w1]. simpl in H. by subst o.
Qed.

(** What a request to the route does to the ledger is what the handler
    does, if anything. *)
Lemma use_ledger fb token code w :
  promoCodes (PromoCodeRoutes.use fb token code w).2 = promoCodes w
  ∨ ∃ userId w1, promoCodes w1 = promoCodes w
      ∧ promoCodes (PromoCodeRoutes.use fb token code w).2
        = promoCodes (PromoCodeRoutes.useHandler code userId w1).2.
Proof.
  destruct (authenticateToken_frame fb token w) as (Hp & _ & _ & _ & [x Hx]).
  simpl in *. destruct x as [response|ru].
  - left. by rewrite (use_refused _ _ _ _ _ Hx).
  - right. exists (Auth.userId ru), (Auth.authenticateToken fb token w).2.
    split; [done|]. by rewrite (use_authenticated _ _ _ _ _ Hx).
Qed.

Lemma use_keeps_ledger fb token code w K u p :
  promoCodes w !! K = Some p → u ∈ PromoCode.usedBy p →
  ∃ p', promoCodes (PromoCodeRoutes.use fb token code w).2 !! K = Some p'
        ∧ u ∈ PromoCode.usedBy p'.
Proof.
  intros Hp Hu.
  destruct (use_ledger fb token code w) as [->|(userId & w1 & Hw1 & ->)]; [eauto|].
  rewrite <- Hw1 in Hp. by eapply useHandler_keeps_usedBy.
Qed.

Lemma serveRoute_cons fb token code requests w :
  serveRoute fb ((token, code) :: requests) w
  = serveRoute fb requests (PromoCodeRoutes.use fb token code w).2.
Proof.
  unfold serveRoute. simpl. unfold bind at 1. unfold bind at 1.
  destruct (authenticateToken_frame fb token w) as (_ & _ & _ & _ & [x Hx]).
  simpl in Hx. destruct x as [response|ru].
  - rewrite (use_refused _ _ _ _ _ Hx). done.
  - rewrite (use_authenticated _ _ _ _ _ Hx).
    destruct (useHandler_returns code (Auth.userId ru)
                (Auth.authenticateToken fb token w).2) as [r Hr].
    rewrite Hr. done.
Qed.

Lemma serveRoute_keeps_ledger fb requests : ∀ w K u p,
  promoCodes w !! K = Some p → u ∈ PromoCode.usedBy p →
  ∃ p', promoCodes (serveRoute fb requests w).2 !! K = Some p'
        ∧ u ∈ PromoCode.usedBy p'.
Proof.
  induction requests as [|[token code] requests IH]; intros w K u p Hp Hu.
  - unfold serveRoute. simpl. eauto.
  - rewrite serveRoute_cons.
    destruct (use_keeps_ledger fb token code w K u p Hp Hu) as (p1 & Hp1 & Hu1).
    by eapply IH.
Qed.

(** The handler refuses an account that the stored document lists. *)
Lemma useHandler_already_used code userId w p :
  promoCodes w !! toUpperCase code = Some p →
  userId ∈ PromoCode.usedBy p →
  (PromoCodeRoutes.useHandler code userId w).1
  = Returned (PromoCodeRoutes.invalidOrExpired 404)
  ∧ promoCodes (PromoCodeRoutes.useHandler code userId w).2 = promoCodes w
  ∧ users (PromoCodeRoutes.useHandler code userId w).2 = users w.
Proof.
  intros Hp Hin.
  pose proof (useHandler_ledger code userId w) as H. simpl in H.
  rewrite (findValid_already_used _ _ _ _ _ _ _ Hp Hin) in H.
  by destruct H as (Hr & Hpc & Hus & _).
Qed.

(** C2, amended.  Once an account has redeemed a code with success, any
    later request of the same account for the same code, whatever
    redemption requests were served in between, is answered 404 with the
    generic error
    ["Invalid or expired promo code"] and leaves the ledger as it is.  The
    stored document holds the account in [usedBy]; [isValid] rejects it at
    every instant, and gives the reason
    ["You have already used this promo code"] whenever the code is
    otherwise valid, that is whatever headroom remains; the route does not
    pass that reason on. *)
Theorem repeated_redemption_rejected fb token token' code ru ru' requests w :
  keyed (promoCodes w) →
  (Auth.authenticateToken fb token w).1 = Returned (inr ru) →
  succeeded (PromoCodeRoutes.use fb token code w).1 = true →
  let w1 := (PromoCodeRoutes.use fb token code w).2 in
  let w2 := (serveRoute fb requests w1).2 in
  (Auth.authenticateToken fb token' w2).1 = Returned (inr ru') →
  Auth.userId ru' = Auth.userId ru →
  let again := PromoCodeRoutes.use fb token' code w2 in
  again.1 = Returned (PromoCodeRoutes.invalidOrExpired 404)
  ∧ promoCodes again.2 = promoCodes w2
  ∧ ∃ p, promoCodes w2 !! toUpperCase code = Some p
         ∧ Auth.userId ru ∈ PromoCode.usedBy p
         ∧ ∀ now,
             PromoCode.valid (PromoCode.isValid now p (Some (Auth.userId ru)))
             = false
             ∧ (PromoCode.valid (PromoCode.isValid now p None) = true →
                PromoCode.reason (PromoCode.isValid now p (Some (Auth.userId ru)))
                = Some "You have already used this promo code").
Proof.
  intros Hk Hauth Hs w1 w2 Hauth' Hsame again. subst w1 w2 again.
  rewrite (use_authenticated _ _ code _ _ Hauth) in *.
  destruct (authenticateToken_frame fb token w) as (Hpa & _).
  simpl in Hpa.
  assert (keyed (promoCodes (Auth.authenticateToken fb token w).2)) as Hka
    by (by rewrite Hpa).
  destruct (useHandler_success_recorded code (Auth.userId ru) _ Hka Hs)
    as (p1 & Hp1 & Hin1).
  destruct (serveRoute_keeps_ledger fb requests _ _ _ _ Hp1 Hin1)
    as (p2 & Hp2 & Hin2).
  rewrite (use_authenticated _ _ code _ _ Hauth'), Hsame.
  destruct (authenticateToken_frame fb token'
              (serveRoute fb requests
                 (PromoCodeRoutes.useHandler code (Auth.userId ru)
                    (Auth.authenticateToken fb token w).2).2).2) as (Hpa' & _).
  simpl in Hpa'.
  destruct (useHandler_already_used code (Auth.userId ru)
              (Auth.authenticateToken fb token'
                 (serveRoute fb requests
                    (PromoCodeRoutes.useHandler code (Auth.userId ru)
                       (Auth.authenticateToken fb token w).2).2).2).2 p2)
    as (Hr & Hpc & _); [by rewrite Hpa'|done|].
  split; [done|]. split; [by rewrite Hpc|].
  exists p2. split; [done|]. split; [done|]. intros now. split.
  - by apply isValid_already_used.
  - intros Hv. by rewrite isValid_reason_already_used.
Qed.

Lemma repeated_redemption_rejected_witness :
  let alice := Auth.mkAuthUser "fb-alice" "alice@example.com" Sample.aliceId
                 Sample.alice in
  let w1 := (PromoCodeRoutes.use Sample.firebase (Some "token-alice") "welcome"
               Sample.w0).2 in
  let w2 := (serveRoute Sample.firebase
               [(Some "token-mallory", "welcome"); (Some "token-alice", "Welcome")]
               w1).2 in
  let again := PromoCodeRoutes.use Sample.firebase (Some "token-alice") "WELCOME" w2 in
  succeeded (PromoCodeRoutes.use Sample.firebase (Some "token-alice") "welcome"
               Sample.w0).1 = true
  ∧ again.1 = Returned (PromoCodeRoutes.invalidOrExpired 404)
  ∧ promoCodes again.2 = promoCodes w2.
Proof.
  split; [vm_compute; reflexivity|].
  pose proof (repeated_redemption_rejected Sample.firebase (Some "token-alice")
                (Some "token-alice") "welcome"
                (Auth.mkAuthUser "fb-alice" "alice@example.com" Sample.aliceId
                   Sample.alice)
                (Auth.mkAuthUser "fb-alice" "alice@example.com" Sample.aliceId
                   Sample.alice)
                [(Some "token-mallory", "welcome"); (Some "token-alice", "Welcome")]
                Sample.w0 sample_keyed) as H.
  cbv zeta in H.
  destruct H as (H1 & H2 & _);
    [vm_compute; reflexivity | vm_compute; reflexivity
    | vm_compute; reflexivity | reflexivity |].
  split; [exact H1|exact H2].
Defined.

(** C2, as stated, fails: the second request is answered with the generic
    error, although [isValid] knows the reason and there is headroom. *)
Lemma repeated_redemption_generic_error :
  let w := set_promoCodes
             {[ "WELCOME" := PromoCode.mk "650000000000000000000001" "WELCOME"
                  PromoCode.free_month None None true (Some 5) 0 []
                  (Some 1700000000000) None Sample.adminId ]}
             Sample.w0 in
  let first := PromoCodeRoutes.use Sample.firebase (Some "token-alice") "WELCOME" w in
  let again := PromoCodeRoutes.use Sample.firebase (Some "token-alice") "WELCOME"
                 first.2 in
  succeeded first.1 = true
  ∧ (∃ p, promoCodes first.2 !! "WELCOME" = Some p
          ∧ PromoCode.usedCount p = 1 ∧ PromoCode.usageLimit p = Some 5
          ∧ PromoCode.usedBy p = [Sample.aliceId]
          ∧ PromoCode.reason (PromoCode.isValid Sample.now0 p (Some Sample.aliceId))
            = Some "You have already used this promo code")
  ∧ (∃ r, again.1 = Returned r ∧ status r = 404
          ∧ errorOf r = Some "Invalid or expired promo code"
          ∧ errorOf r ≠ Some "You have already used this promo code").
Proof.
  cbv zeta. split; [vm_compute; reflexivity|]. split.
  - eexists. split; [vm_compute; reflexivity|]. repeat split; vm_compute; reflexivity.
  - eexists. split; [vm_compute; reflexivity|]. repeat split; try (vm_compute; reflexivity).
    vm_compute. discriminate.
Qed.

(** ** Requests for validation *)

(** What an authentication does to the accounts: nothing when it refuses;
    otherwise it stamps [lastActiveAt] of the caller's account, which it
    created first when the identity was new. *)
Lemma authenticateToken_accounts fb token w :
  let res := Auth.authenticateToken fb token w in
  (∀ response, res.1 = Returned (inl response) → users res.2 = users w)
  ∧ (∀ ru, res.1 = Returned (inr ru) →
       users res.2
       = alter (User.setLastActiveAt (clock w (tick w))) (Auth.userId ru) (users w)
       ∨ (users w !! Auth.userId ru = None
          ∧ users res.2
            = <[Auth.userId ru := User.setLastActiveAt (clock w (tick w))
                                    (Auth.dbUser ru)]> (users w))).
Proof.
  simpl.
  destruct (Auth.authenticateToken fb token w) as [o w'] eqn:Hrun.
  unfold Auth.authenticateToken, Auth.insertUser, Logger.logAuth, Logger.log in Hrun.
  unfold_monad. simpl in *.
  repeat case_match; simplify_eq; simpl; split; intros; simplify_eq; simpl;
    try done; auto.
  right. split; [done|]. apply map_eq. intros id.
  match goal with
  | |- alter _ ?k _ !! _ = _ => destruct (decide (id = k)) as [->|Hne]
  end.
  - by rewrite lookup_alter_eq, !lookup_insert_eq.
  - by rewrite lookup_alter_ne, !lookup_insert_ne.
Qed.

Lemma promoCode_authenticated fb token joiError code ru w :
  (Auth.authenticateToken fb token w).1 = Returned (inr ru) →
  let w1 := (Auth.authenticateToken fb token w).2 in
  let w' := (SubscriptionRoutes.promoCode fb token joiError code w).2 in
  promoCodes w' = promoCodes w1 ∧ users w' = users w1.
Proof.
  intros H. simpl. unfold SubscriptionRoutes.promoCode, bind.
  destruct (Auth.authenticateToken fb token w) as [o w1]. simpl in *. subst o.
  apply (promoCode_handler_frame joiError code (Auth.userId ru) w1).
Qed.

Lemma promoCode_refused fb token joiError code response w :
  (Auth.authenticateToken fb token w).1 = Returned (inl response) →
  SubscriptionRoutes.promoCode fb token joiError code w
  = (Returned response, (Auth.authenticateToken fb token w).2).
Proof.
  intros H. unfold SubscriptionRoutes.promoCode, bind, ret.
  destruct (Auth.authenticateToken fb token w) as [o w1]. simpl in H. by subst o.
Qed.

(** C10, amended.  Neither validation endpoint changes the ledger.  The
    public endpoint changes no account.  The authenticated one changes no
    account when the authentication refuses the request; otherwise it
    leaves every account but the caller's as it is, and of the caller's
    account it keeps the identity, the e-mail, the device tokens, the
    settings, the activation flag and the subscription sub-record, and
    sets [lastActiveAt] to the clock reading.  An account it finds
    afterwards for a caller who had none is the one the authentication
    created, with those fields as provisioned and [lastActiveAt] the
    clock reading. *)
Theorem validation_endpoints_frame fb token joiError code w :
  let public := (PromoCodeRoutes.apply joiError code w).2 in
  let authed := (SubscriptionRoutes.promoCode fb token joiError code w).2 in
  promoCodes public = promoCodes w
  ∧ users public = users w
  ∧ promoCodes authed = promoCodes w
  ∧ (∀ response,
       (Auth.authenticateToken fb token w).1 = Returned (inl response) →
       users authed = users w)
  ∧ (∀ ru,
       (Auth.authenticateToken fb token w).1 = Returned (inr ru) →
       (∀ id, id ≠ Auth.userId ru → users authed !! id = users w !! id)
       ∧ (∀ account, users w !! Auth.userId ru = Some account →
            ∃ account',
              users authed !! Auth.userId ru = Some account'
              ∧ profile account' = profile account
              ∧ User.subscription account' = User.subscription account
              ∧ User.lastActiveAt account' = clock w (tick w))
       ∧ (users w !! Auth.userId ru = None →
          ∀ account', users authed !! Auth.userId ru = Some account' →
            profile account' = profile (Auth.dbUser ru)
            ∧ User.subscription account' = User.subscription (Auth.dbUser ru)
            ∧ User.lastActiveAt account' = clock w (tick w))).
Proof.
  cbv zeta. destruct (apply_frame joiError code w) as (Ha1 & Ha2 & _).
  simpl in Ha1, Ha2. split; [done|]. split; [done|].
  destruct (authenticateToken_frame fb token w) as (Hp & _ & _ & _ & [x Hx]).
  destruct (authenticateToken_accounts fb token w) as [Hrefused Hpassed].
  simpl in Hp, Hx, Hrefused, Hpassed.
  split; [|split].
  - destruct x as [response|ru].
    + by rewrite (promoCode_refused _ _ _ _ _ _ Hx).
    + destruct (promoCode_authenticated fb token joiError code ru w Hx) as [-> _].
      done.
  - intros response Hr. rewrite (promoCode_refused _ _ _ _ _ _ Hr). simpl. eauto.
  - intros ru Hr.
    destruct (promoCode_authenticated fb token joiError code ru w Hr) as [_ ->].
    destruct (Hpassed ru Hr) as [->|[Hnone ->]].
    + split; [|split].
      * intros id Hne. by rewrite lookup_alter_ne.
      * intros account Hacc. rewrite lookup_alter_eq, Hacc. simpl.
        eexists. split; [reflexivity|]. by destruct account.
      * intros Hnone account'. by rewrite lookup_alter_eq, Hnone.
    + split; [|split].
      * intros id Hne. by rewrite lookup_insert_ne.
      * intros account Hacc. congruence.
      * intros _ account'. rewrite lookup_insert_eq. intros [= <-].
        by destruct (Auth.dbUser ru).
Qed.

(** ** Events whose customer has no account *)

Lemma alter_absent {A} (f : A → A) (k : string) (m : gmap string A) :
  m !! k = None → alter f k m = m.
Proof.
  intros Hk. apply map_eq. intros i. destruct (decide (i = k)) as [->|Hne].
  - by rewrite lookup_alter_eq, Hk.
  - by rewrite lookup_alter_ne.
Qed.

(** C9, amended.  What the webhook does with an event whose customer
    leads to no account depends on why.  A customer that is deleted or
    carries no [userId] is acknowledged and leaves no trace at all.  A
    [userId] that is no ObjectId makes the update throw: the event is
    answered with the error status 400 and an error record, not
    acknowledged.  A well-formed [userId] of no account is acknowledged
    and changes no account, and is logged like any processed event, with
    status [success].  An [invoice.payment_failed] event never looks the
    account up: it is acknowledged and logged as a failed payment.  No
    case writes an anomaly record. *)
Theorem unresolved_customer_outcomes api event customer w :
  SubscriptionRoutes.lookedUp api event = Some customer →
  let res := SubscriptionRoutes.webhook api (Some event) w in
  let updates := ∀ invoice, event ≠ Stripe.invoice_payment_failed invoice in
  (SubscriptionRoutes.resolvedUserId customer = None →
   res = (Returned SubscriptionRoutes.acknowledged, w))
  ∧ (∀ userId,
       SubscriptionRoutes.resolvedUserId customer = Some userId →
       castObjectId userId = None → updates →
       users res.2 = users w
       ∧ ∃ r record,
           res.1 = Returned r ∧ status r = 400
           ∧ logs res.2 = logs w ++ [record]
           ∧ Log.type record = "error" ∧ Log.status record = "failure")
  ∧ (∀ userId oid,
       SubscriptionRoutes.resolvedUserId customer = Some userId →
       castObjectId userId = Some oid → users w !! oid = None → updates →
       res.1 = Returned SubscriptionRoutes.acknowledged
       ∧ users res.2 = users w
       ∧ ∃ record,
           logs res.2 = logs w ++ [record]
           ∧ (Log.type record = "subscription" ∨ Log.type record = "payment")
           ∧ Log.level record = "info" ∧ Log.status record = "success"
           ∧ Log.userId record = Some userId)
  ∧ (∀ userId,
       SubscriptionRoutes.resolvedUserId customer = Some userId → ¬ updates →
       res.1 = Returned SubscriptionRoutes.acknowledged
       ∧ users res.2 = users w
       ∧ ∃ record,
           logs res.2 = logs w ++ [record]
           ∧ Log.type record = "payment"
           ∧ Log.action record = "payment_failed"
           ∧ Log.status record = "failure").
Proof.
  intros Hl. cbv zeta.
  destruct event as [s|s|i|i|ty]; simpl in Hl; [| | | |done].
  - unfold_webhook. rewrite Hl. simpl.
    split; [by intros ->|]. split; [|split].
    + intros userId -> Hc _. rewrite Hc. simpl. eauto 10.
    + intros userId oid -> Hc Hnone _. rewrite Hc. simpl.
      rewrite (alter_absent _ _ _ Hnone). eauto 10.
    + intros userId _ Hno. destruct Hno. by intros invoice.
  - unfold_webhook. rewrite Hl. simpl.
    split; [by intros ->|]. split; [|split].
    + intros userId -> Hc _. rewrite Hc. simpl. eauto 10.
    + intros userId oid -> Hc Hnone _. rewrite Hc. simpl.
      rewrite (alter_absent _ _ _ Hnone). eauto 10.
    + intros userId _ Hno. destruct Hno. by intros invoice.
  - destruct (Stripe.subscription i) as [sid|] eqn:Hi; [|done].
    destruct (truthy sid) eqn:Ht; [|done].
    destruct (Stripe.subscriptions_retrieve api sid) as [s|] eqn:Hs; [|done].
    unfold_webhook. rewrite Hi, Ht, Hs. simpl. rewrite Hl. simpl.
    split; [by intros ->|]. split; [|split].
    + intros userId -> Hc _. rewrite Hc. simpl. eauto 10.
    + intros userId oid -> Hc Hnone _. rewrite Hc. simpl.
      rewrite (alter_absent _ _ _ Hnone). eauto 10.
    + intros userId _ Hno. destruct Hno. by intros invoice.
  - destruct (Stripe.subscription i) as [sid|] eqn:Hi; [|done].
    destruct (truthy sid) eqn:Ht; [|done].
    destruct (Stripe.subscriptions_retrieve api sid) as [s|] eqn:Hs; [|done].
    unfold_webhook. rewrite Hi, Ht, Hs. simpl. rewrite Hl. simpl.
    split; [by intros ->|]. split; [|split].
    + intros userId _ _ Hno. by destruct (Hno i).
    + intros userId oid _ _ _ Hno. by destruct (Hno i).
    + intros userId -> _. simpl. eauto 10.
Qed.

Lemma unresolved_customer_outcomes_witness :
  let w := Sample.w0 in
  let malformed := SubscriptionRoutes.webhook SampleCustomers.stripe
                     (Some (Stripe.customer_subscription_updated
                              (Sample.trialing "cus_malformed"))) w in
  users malformed.2 = users w
  ∧ ∃ r record,
      malformed.1 = Returned r ∧ status r = 400
      ∧ logs malformed.2 = logs w ++ [record]
      ∧ Log.type record = "error" ∧ Log.status record = "failure".
Proof.
  destruct (unresolved_customer_outcomes SampleCustomers.stripe
              (Stripe.customer_subscription_updated (Sample.trialing "cus_malformed"))
              (Stripe.mkCustomer "cus_malformed" false {[ "userId" := "alice" ]})
              Sample.w0) as (_ & H & _); [reflexivity|].
  apply (H "alice"); [reflexivity | reflexivity | ].
  intros invoice. discriminate.
Defined.

(** C9, as stated, fails: for a customer without an account id the
    event is acknowledged and nothing at all is logged; an account id
    that is no ObjectId is not acknowledged but answered with the error
    status 400; and an account id of no account is acknowledged and
    logged as a success. *)
Lemma unresolved_customer_not_logged :
  let w := Sample.w0 in
  let event customer :=
    Stripe.customer_subscription_updated (Sample.trialing customer) in
  let deliver customer :=
    SubscriptionRoutes.webhook SampleCustomers.stripe (Some (event customer)) w in
  ((∃ customer,
      SubscriptionRoutes.lookedUp SampleCustomers.stripe (event "cus_orphan")
      = Some customer
      ∧ SubscriptionRoutes.resolvedUserId customer = None)
   ∧ (deliver "cus_orphan").1 = Returned SubscriptionRoutes.acknowledged
   ∧ logs (deliver "cus_orphan").2 = logs w
   ∧ logs (deliver "cus_orphan").2 = [])
  ∧ ((∃ customer,
        SubscriptionRoutes.lookedUp SampleCustomers.stripe (event "cus_malformed")
        = Some customer
        ∧ SubscriptionRoutes.resolvedUserId customer = Some "alice"
        ∧ castObjectId "alice" = None)
     ∧ ∃ r, (deliver "cus_malformed").1 = Returned r ∧ status r = 400
            ∧ r ≠ SubscriptionRoutes.acknowledged)
  ∧ ((∃ customer,
        SubscriptionRoutes.lookedUp SampleCustomers.stripe (event "cus_ghost")
        = Some customer
        ∧ SubscriptionRoutes.resolvedUserId customer = Some Sample.bobId
        ∧ users w !! Sample.bobId = None)
     ∧ (deliver "cus_ghost").1 = Returned SubscriptionRoutes.acknowledged
     ∧ users (deliver "cus_ghost").2 = users w
     ∧ map Log.status (logs (deliver "cus_ghost").2) = ["success"]
     ∧ map Log.action (logs (deliver "cus_ghost").2) = ["subscription_updated"]).
Proof.
  cbv zeta. split; [|split].
  - split; [eexists; split; vm_compute; reflexivity|].
    repeat split; vm_compute; reflexivity.
  - split; [eexists; repeat split; vm_compute; reflexivity|].
    eexists. split; [vm_compute; reflexivity|]. split; [reflexivity|]. discriminate.
  - split; [eexists; repeat split; vm_compute; reflexivity|].
    repeat split; vm_compute; reflexivity.
Qed.

(** ** Months that are too short *)

Ltac compute_closed :=
  repeat match goal with
  | |- context [if ?c then _ else _] =>
      let v := eval vm_compute in c in
      first [constr_eq v true | constr_eq v false];
      change c with v; cbv iota
  | |- context [(153 * ?x + 2) / 5] =>
      let v := eval vm_compute in ((153 * x + 2) / 5) in
      change ((153 * x + 2) / 5) with v
  end.

(** The first day of the next month comes as many days after the first
    day of a month as the month has days. *)
Lemma next_month_start y m :
  1 ≤ m ≤ 12 →
  JSDate.DayFromCivil (if m =? 12 then y + 1 else y) (if m =? 12 then 1 else m + 1) 1
  = JSDate.DayFromCivil y m 1 + JSDate.DaysInMonth y (m - 1).
Proof.
  intros Hm.
  assert (m = 1 ∨ m = 2 ∨ m = 3 ∨ m = 4 ∨ m = 5 ∨ m = 6 ∨ m = 7 ∨ m = 8
          ∨ m = 9 ∨ m = 10 ∨ m = 11 ∨ m = 12) as Hcases by lia.
  unfold JSDate.DayFromCivil, JSDate.DayOfEra, JSDate.DaysInMonth.
  destruct_or!; subst m; compute_closed; try div_lia.
  destruct (JSDate.InLeapYear y) eqn:E.
  - apply InLeapYear_spec in E. div_lia.
  - apply not_true_iff_false in E. rewrite InLeapYear_spec in E. div_lia.
Qed.

Lemma DaysInMonth_least y month : 28 ≤ JSDate.DaysInMonth y month.
Proof.
  unfold JSDate.DaysInMonth.
  repeat match goal with |- context [if ?c then _ else _] => destruct c end; lia.
Qed.

(** Where the target month is too short for the day, [setMonth(getMonth()
    + k)] lands in the month after it, as many days in as the target month
    is short. *)
Lemma setMonth_spilledOver tza t k :
  let lt := JSDate.LocalTime tza t in
  let target := JSDate.MonthFromTime lt + k in
  JSDate.DaysInMonth (JSDate.YearFromTime lt + target / 12) (target mod 12)
  < JSDate.DateFromTime lt →
  spilledOver tza k t (JSDate.setMonth tza t (JSDate.getMonth tza t + k)).
Proof.
  intros lt target Hday. unfold spilledOver, JSDate.setMonth, JSDate.getMonth.
  rewrite LocalTime_UTC. cbv zeta. fold lt. fold target.
  set (day := JSDate.MakeDay (JSDate.YearFromTime lt) target (JSDate.DateFromTime lt)).
  destruct (Day_MakeDate day (JSDate.TimeWithinDay lt) (TimeWithinDay_bounds lt))
    as [HD HT].
  rewrite HT.
  set (y' := JSDate.YearFromTime lt + target / 12) in *.
  set (m' := target mod 12) in *.
  set (dim := JSDate.DaysInMonth y' m') in *.
  assert (0 ≤ m' ≤ 11) as Hm' by (subst m'; div_lia).
  pose proof (DaysInMonth_least y' m') as Hdim. fold dim in Hdim.
  pose proof (DateFromTime_range lt) as Hd.
  set (y'' := if m' + 1 =? 12 then y' + 1 else y').
  set (mn := if m' + 1 =? 12 then 1 else m' + 1 + 1).
  assert (1 ≤ mn ≤ 12) as Hmn.
  { subst mn. destruct (Z.eqb_spec (m' + 1) 12); lia. }
  assert (day = JSDate.DayFromCivil y'' mn (JSDate.DateFromTime lt - dim)) as Hday'.
  { subst day. unfold JSDate.MakeDay. fold y'. fold m'.
    rewrite (DayFromCivil_date y'' mn).
    subst y'' mn. rewrite (next_month_start y' (m' + 1)) by lia.
    replace (m' + 1 - 1) with m' by lia. fold dim. lia. }
  assert (JSDate.CivilFromDay day = (y'', mn, JSDate.DateFromTime lt - dim))
    as Hcivil.
  { rewrite Hday'. apply CivilFromDay_DayFromCivil; [done|].
    pose proof (DaysInMonth_least y'' (mn - 1)). lia. }
  set (lt' := JSDate.MakeDate day (JSDate.TimeWithinDay lt)) in *.
  pose proof (civil_fields lt') as Hf. rewrite HD, Hcivil in Hf.
  injection Hf as Hy Hm Hdd. rewrite <- Hy, <- Hdd.
  split; [|done].
  assert (12 * y' + m' = 12 * JSDate.YearFromTime lt + target) as Hsum
    by (subst y' m'; div_lia).
  subst y'' mn. destruct (Z.eqb_spec (m' + 1) 12); lia.
Qed.

(** C5.  A redemption answered 200 found the code and the account, and
    leaves the account with its subscription changed by the code's type
    only: for [free_month] and [free_year], [currentPeriodEnd] becomes
    [setMonth(getMonth() + 1)], respectively [+ 12], of its former value,
    or of the clock's reading when it was unset; for [lifetime] the status
    becomes [active] and [currentPeriodEnd] the date 2099-12-31; the
    discount types change nothing.  Where the target month has the day of
    the month, the new end is the same day and time of day, that many
    calendar months later; where the target month is too short, the new
    end is in the month after it, as many days in as the target month is
    short. *)
Theorem redemption_benefits code userId w :
  succeeded (PromoCodeRoutes.useHandler code userId w).1 = true →
  let w' := (PromoCodeRoutes.useHandler code userId w).2 in
  let tza := LocalTZA w in
  ∃ promo account,
    promoCodes w !! toUpperCase code = Some promo
    ∧ users w !! userId = Some account
    ∧ let sub := User.subscription account in
      let base := default (clock w (S (S (S (S (tick w))))))
                          (User.currentPeriodEnd sub) in
      let extended k := JSDate.setMonth tza base (JSDate.getMonth tza base + k) in
      users w' !! userId
      = Some (User.setSubscription
                (match PromoCode.type promo with
                 | PromoCode.free_month =>
                     User.setCurrentPeriodEnd (Some (extended 1)) sub
                 | PromoCode.free_year =>
                     User.setCurrentPeriodEnd (Some (extended 12)) sub
                 | PromoCode.lifetime =>
                     User.setCurrentPeriodEnd (Some (JSDate.ofISODate 2099 12 31))
                       (User.setStatus User.active sub)
                 | _ => sub
                 end)
                account)
      ∧ (∀ k, let lt := JSDate.LocalTime tza base in
              let target := JSDate.MonthFromTime lt + k in
              let days := JSDate.DaysInMonth (JSDate.YearFromTime lt + target / 12)
                                             (target mod 12) in
              (JSDate.DateFromTime lt ≤ days →
               monthsLater tza k base (extended k))
              ∧ (days < JSDate.DateFromTime lt →
                 spilledOver tza k base (extended k))).
Proof.
  intros Hs. simpl.
  destruct (PromoCodeRoutes.useHandler code userId w) as [o w'] eqn:Hrun.
  simpl in *. unfold_promo.
  destruct (PromoCodeModel.findOne _ _ _ _) as [p0|] eqn:Hf; simpl in *;
    [|by simplify_eq].
  destruct (PromoCode.valid _) eqn:Hv; simpl in *; [|by simplify_eq].
  destruct (PromoCode.use _ p0 userId) as [reason|p'] eqn:Hu; simpl in *;
    [by simplify_eq|].
  destruct (users w !! userId) as [account|] eqn:Hus; simpl in *;
    [|by simplify_eq].
  apply findOne_Some in Hf. apply use_inr_type in Hu.
  exists p0, account. split; [done|]. split; [done|].
  split;
    [|intros k; split; [apply setMonth_monthsLater|apply setMonth_spilledOver]].
  rewrite <- Hu.
  unfold PromoCodeRoutes.applyBenefits in Hrun. unfold_monad. simpl in *.
  destruct (PromoCode.type p'); simpl in *;
    destruct (User.currentPeriodEnd (User.subscription account)) eqn:He;
    simpl in *; simplify_eq; simpl;
    rewrite ?lookup_alter_eq, ?Hus; simpl;
    rewrite ?setFullYear_setMonth; try done.
Qed.

Lemma redemption_benefits_witness :
  succeeded (PromoCodeRoutes.useHandler "welcome" Sample.aliceId Sample.w0).1 = true
  ∧ User.currentPeriodEnd (User.subscription Sample.alice)
    = Some (JSDate.ofISODate 2025 1 10)
  ∧ (User.currentPeriodEnd ∘ User.subscription)
      <$> users (PromoCodeRoutes.useHandler "welcome" Sample.aliceId Sample.w0).2
          !! Sample.aliceId
    = Some (Some (JSDate.ofISODate 2025 2 10)).
Proof.
  split; [vm_compute; reflexivity|]. split; [reflexivity|].
  destruct (redemption_benefits "welcome" Sample.aliceId Sample.w0)
    as (promo & account & Hp & Ha & Hu & _); [vm_compute; reflexivity|].
  rewrite Hu. clear Hu.
  vm_compute in Hp. vm_compute in Ha. injection Hp as <-. injection Ha as <-.
  vm_compute. reflexivity.
Defined.

(** C5, as stated, fails where the month to land in is too short: a
    [free_month] code redeemed on an account paid up to 2025-01-31 moves
    the end to 2025-03-03, which is no day of February, and a [free_year]
    code redeemed on an account paid up to 2024-02-29 moves it to
    2025-03-01. *)
Lemma redemption_month_overflow :
  let tza := LocalTZA SampleDates.w in
  let month := PromoCodeRoutes.useHandler "welcome" SampleDates.danaId SampleDates.w in
  let year := PromoCodeRoutes.useHandler "year" SampleDates.erinId SampleDates.w in
  (PromoCode.type <$> promoCodes SampleDates.w !! "WELCOME" = Some PromoCode.free_month
   ∧ (User.currentPeriodEnd ∘ User.subscription)
       <$> users SampleDates.w !! SampleDates.danaId
     = Some (Some (JSDate.ofISODate 2025 1 31))
   ∧ succeeded month.1 = true
   ∧ (User.currentPeriodEnd ∘ User.subscription)
       <$> users month.2 !! SampleDates.danaId
     = Some (Some (JSDate.ofISODate 2025 3 3))
   ∧ ¬ monthsLater tza 1 (JSDate.ofISODate 2025 1 31) (JSDate.ofISODate 2025 3 3))
  ∧ (PromoCode.type <$> promoCodes SampleDates.w !! "YEAR" = Some PromoCode.free_year
     ∧ (User.currentPeriodEnd ∘ User.subscription)
         <$> users SampleDates.w !! SampleDates.erinId
       = Some (Some (JSDate.ofISODate 2024 2 29))
     ∧ succeeded year.1 = true
     ∧ (User.currentPeriodEnd ∘ User.subscription)
         <$> users year.2 !! SampleDates.erinId
       = Some (Some (JSDate.ofISODate 2025 3 1))
     ∧ ¬ monthsLater tza 12 (JSDate.ofISODate 2024 2 29) (JSDate.ofISODate 2025 3 1)).
Proof.
  cbv zeta. split.
  - repeat split; try (vm_compute; reflexivity).
    intros (_ & Hd & _). vm_compute in Hd. discriminate Hd.
  - repeat split; try (vm_compute; reflexivity).
    intros (_ & Hd & _). vm_compute in Hd. discriminate Hd.
Qed.

(** ** What a redemption request leaves alone *)

(** What an authentication does to the cache: nothing when it refuses,
    and otherwise at most the entry of the caller's identity. *)
Lemma authenticateToken_cache fb token w :
  let res := Auth.authenticateToken fb token w in
  (∀ response, res.1 = Returned (inl response) → userCache res.2 = userCache w)
  ∧ (∀ ru, res.1 = Returned (inr ru) →
       ∀ key, key ≠ "user:" +:+ Auth.au_uid ru →
         userCache res.2 !! key = userCache w !! key).
Proof.
  simpl.
  destruct (Auth.authenticateToken fb token w) as [o w'] eqn:Hrun.
  unfold Auth.authenticateToken, Auth.insertUser, Logger.logAuth, Logger.log in Hrun.
  unfold_monad. simpl in *.
  repeat case_match; simplify_eq; simpl; split; intros; simplify_eq; simpl in *;
    try done; by rewrite lookup_insert_ne.
Qed.

(** X7.  A request to the redemption endpoint touches nothing but the
    redeemed code, the caller's account and the caller's cache entry.
    Every other code is as before, and so are the progress entries and the
    pushes.  A request that the authentication refuses changes no account,
    no code and no cache entry.  Otherwise every account but the caller's
    is as before; the caller's account keeps its identity, e-mail, device
    tokens, settings and activation flag, and has [lastActiveAt] set to
    the clock reading, while its subscription sub-record may change; and
    every cache entry but the caller's is as before. *)
Theorem redemption_frame fb token code w :
  keyed (promoCodes w) →
  let w' := (PromoCodeRoutes.use fb token code w).2 in
  (∀ k, k ≠ toUpperCase code → promoCodes w' !! k = promoCodes w !! k)
  ∧ progress w' = progress w
  ∧ pushes w' = pushes w
  ∧ (∀ response,
       (Auth.authenticateToken fb token w).1 = Returned (inl response) →
       users w' = users w ∧ promoCodes w' = promoCodes w
       ∧ userCache w' = userCache w)
  ∧ (∀ ru,
       (Auth.authenticateToken fb token w).1 = Returned (inr ru) →
       (∀ id, id ≠ Auth.userId ru → users w' !! id = users w !! id)
       ∧ (∀ account, users w !! Auth.userId ru = Some account →
            ∃ account',
              users w' !! Auth.userId ru = Some account'
              ∧ profile account' = profile account
              ∧ User.lastActiveAt account' = clock w (tick w))
       ∧ (users w !! Auth.userId ru = None →
          ∀ account', users w' !! Auth.userId ru = Some account' →
            profile account' = profile (Auth.dbUser ru)
            ∧ User.lastActiveAt account' = clock w (tick w))
       ∧ (∀ key, key ≠ "user:" +:+ Auth.au_uid ru →
            userCache w' !! key = userCache w !! key)).
Proof.
  intros Hk w'. subst w'.
  destruct (authenticateToken_frame fb token w) as (Hp & Hpr & Hpu & _ & [x Hx]).
  destruct (authenticateToken_accounts fb token w) as [Hrefused Hpassed].
  destruct (authenticateToken_cache fb token w) as [Hcr Hcp].
  simpl in Hp, Hpr, Hpu, Hx, Hrefused, Hpassed, Hcr, Hcp.
  destruct x as [response|ru].
  - rewrite (use_refused _ _ _ _ _ Hx). simpl.
    split; [by intros k _; rewrite Hp|]. split; [done|]. split; [done|].
    split; [|intros ru Hru; congruence].
    intros response' _. split; [eauto|]. split; [done|eauto].
  - rewrite (use_authenticated _ _ _ _ _ Hx).
    set (w1 := (Auth.authenticateToken fb token w).2) in *.
    destruct (useHandler_accounts code (Auth.userId ru) w1)
      as (Hus & Hc & Hpr' & Hpu').
    simpl in Hus, Hc, Hpr', Hpu'.
    split; [|split; [|split; [|split]]].
    + intros k Hne.
      assert (keyed (promoCodes w1)) as Hk1 by (by rewrite Hp).
      destruct (useHandler_conditional_update code (Auth.userId ru) w1 Hk1)
        as [->|(now & p & p' & _ & _ & ->)]; [by rewrite Hp|].
      by rewrite lookup_insert_ne, Hp.
    + by rewrite Hpr'.
    + by rewrite Hpu'.
    + intros response Hr. congruence.
    + intros ru' Hr. assert (ru' = ru) as -> by congruence.
      assert (∃ f, (∀ u, profile (f u) = profile u
                         ∧ User.lastActiveAt (f u) = User.lastActiveAt u)
                   ∧ ∀ id, users (PromoCodeRoutes.useHandler code (Auth.userId ru) w1).2 !! id
                           = (if decide (id = Auth.userId ru) then f else (fun u => u))
                               <$> users w1 !! id) as (f & Hf & Hlook).
      { destruct Hus as [->|[sub ->]].
        - exists (fun u => u). split; [done|]. intros id.
          destruct (decide _); by destruct (users w1 !! id).
        - exists (User.setSubscription sub). split; [by intros []|].
          intros id. destruct (decide (id = Auth.userId ru)) as [->|Hne].
          + by rewrite lookup_alter_eq.
          + rewrite lookup_alter_ne by done. by destruct (users w1 !! id). }
      split; [|split; [|split]].
      * intros id Hne. rewrite Hlook. destruct (decide _); [done|].
        destruct (Hpassed ru Hx) as [->|[_ ->]].
        -- rewrite lookup_alter_ne by done. by destruct (users w !! id).
        -- rewrite lookup_insert_ne by done. by destruct (users w !! id).
      * intros account Hacc. rewrite Hlook. destruct (decide _); [|done].
        destruct (Hpassed ru Hx) as [->|[Hnone _]]; [|congruence].
        rewrite lookup_alter_eq, Hacc. simpl. eexists. split; [reflexivity|].
        destruct (Hf (User.setLastActiveAt (clock w (tick w)) account)) as [-> ->].
        by destruct account.
      * intros Hnone account'. rewrite Hlook. destruct (decide _); [|done].
        destruct (Hpassed ru Hx) as [->|[_ ->]].
        -- by rewrite lookup_alter_eq, Hnone.
        -- rewrite lookup_insert_eq. simpl. intros [= <-].
           destruct (Hf (User.setLastActiveAt (clock w (tick w)) (Auth.dbUser ru)))
             as [-> ->].
           by destruct (Auth.dbUser ru).
      * intros key Hne. rewrite Hc. by apply (Hcp ru Hx).
Qed.

Lemma redemption_frame_witness :
  let w' := (PromoCodeRoutes.use Sample.firebase (Some "token-alice") "welcome"
               Sample.w0).2 in
  progress w' = progress Sample.w0 ∧ pushes w' = pushes Sample.w0
  ∧ User.fcmTokens <$> users w' !! Sample.aliceId = Some ["tok-alice"].
Proof.
  destruct (redemption_frame Sample.firebase (Some "token-alice") "welcome"
              Sample.w0 sample_keyed) as (_ & Hpr & Hpu & _).
  split; [exact Hpr|]. split; [exact Hpu|]. vm_compute. reflexivity.
Defined.

(** ** Deliveries to the webhook *)

(** X10.  The webhook answers either [{ received: true }] or what
    [errorHandler] answers to the error raised: the signature failure,
    answered 500; the cast error of an account id that is no ObjectId,
    answered 400; or the provider's rejection of a lookup, answered with
    the status [errorHandler] gives that error.  An error answer means
    that no account was changed: the only trace is one error record in
    the log. *)
Theorem webhook_failure_changes_nothing api verified w :
  let res := SubscriptionRoutes.webhook api verified w in
  res.1 = Returned SubscriptionRoutes.acknowledged
  ∨ ∃ error w1 r record,
      res = errorHandler error None w1
      ∧ users w1 = users w ∧ logs w1 = logs w
      ∧ isDevelopment w1 = isDevelopment w
      ∧ (verified = None ∧ error = plainError "Invalid webhook signature"
         ∨ error = CastError
         ∨ ∃ id, error = Stripe.customers_rejection api id
                 ∨ error = Stripe.subscriptions_rejection api id)
      ∧ res.1 = Returned r
      ∧ (verified = None → status r = 500)
      ∧ (error = CastError → status r = 400)
      ∧ users res.2 = users w
      ∧ logs res.2 = logs w ++ [record]
      ∧ Log.type record = "error"
      ∧ Log.level record = "error".
Proof.
  simpl.
  destruct (SubscriptionRoutes.webhook api verified w) as [o w'] eqn:Hrun.
  destruct verified as [[s|s|i|i|ty]|]; unfold_webhook.
  all: repeat case_match; simplify_eq; simpl in *.
  all: try (by left).
  all: right.
  all: match goal with
       | H : errorHandler ?e ?u ?w1 = _ |- _ =>
           destruct (errorHandler_answer e u w1)
             as (r & rcd & Hr & Ht & Hl & Hs & Hc & Hb);
           exists e, w1, r, rcd; rewrite <- H; rewrite Hr in H; simplify_eq
       end.
  all: simpl in *.
  all: split; [done|]; split; [done|]; split; [done|]; split; [done|].
  all: split; [eauto 6|].
  all: repeat split; auto; try done.
  all: try (intros _; by apply Hs; left).
  all: try (intros _; by apply Hc).
  all: intros He; apply Hc; by rewrite He.
Qed.

(** X11.  Whatever the event and whatever the provider answers, a
    delivery to the webhook changes at most the subscription sub-record
    of one account: no account is created or removed, every account keeps
    its identity, e-mail, device tokens, settings, activation flag and
    [lastActiveAt], and the promo-code ledger, the user cache, the
    progress entries and the pushes are not touched. *)
Theorem webhook_touches_one_subscription api verified w :
  let res := SubscriptionRoutes.webhook api verified w in
  (∃ oid, ∀ id, id ≠ oid → users res.2 !! id = users w !! id)
  ∧ (∀ id u, users w !! id = Some u →
       ∃ u', users res.2 !! id = Some u'
             ∧ profile u' = profile u
             ∧ User.lastActiveAt u' = User.lastActiveAt u)
  ∧ (∀ id, users w !! id = None → users res.2 !! id = None)
  ∧ promoCodes res.2 = promoCodes w ∧ userCache res.2 = userCache w
  ∧ progress res.2 = progress w ∧ pushes res.2 = pushes w.
Proof.
  intros res. subst res.
  destruct (webhook_accounts api verified w) as (_ & Hus & Hrest).
  split; [|split; [|split; [|exact Hrest]]].
  - destruct Hus as [->|(oid & f & -> & _)]; [by exists ""|].
    exists oid. intros id Hne. by rewrite lookup_alter_ne.
  - intros id u Hu. destruct Hus as [->|(oid & f & -> & Hf)]; [eauto|].
    destruct (decide (oid = id)) as [->|Hne].
    + destruct (Hf u) as [sub Hsub]. eexists.
      rewrite lookup_alter_eq, Hu. simpl. split; [reflexivity|].
      rewrite Hsub. by destruct u.
    + rewrite lookup_alter_ne by done. eauto.
  - intros id Hu. destruct Hus as [->|(oid & f & -> & Hf)]; [done|].
    destruct (decide (oid = id)) as [->|Hne].
    + by rewrite lookup_alter_eq, Hu.
    + by rewrite lookup_alter_ne.
Qed.

(** X12.  Redelivery is harmless for every event but a deletion: when the
    provider gives the same answers, delivering an event a second time
    leaves every account with the subscription sub-record, and the
    identity, e-mail, device tokens, settings, activation flag and
    [lastActiveAt], that the first delivery left it with, and neither
    creates nor removes an account.  (A redelivered
    [customer.subscription.deleted] stamps [canceledAt] again.) *)
Theorem redelivery_keeps_accounts api event w :
  (∀ s, event ≠ Stripe.customer_subscription_deleted s) →
  let deliver := SubscriptionRoutes.webhook api (Some event) in
  let once := users (deliver w).2 in
  let twice := users (deliver (deliver w).2).2 in
  dom twice = dom once
  ∧ ∀ id, (fun u => (User.subscription u, profile u, User.lastActiveAt u))
            <$> twice !! id
          = (fun u => (User.subscription u, profile u, User.lastActiveAt u))
              <$> once !! id.
Proof.
  intros Hne. cbv zeta.
  destruct (webhook_users_function api event Hne) as (g & Hg & Hrun).
  by rewrite !Hrun, Hg.
Qed.

Lemma redelivery_keeps_accounts_witness :
  let deliver := SubscriptionRoutes.webhook SampleMore.billing
                   (Some (Stripe.invoice_payment_succeeded SampleMore.invoice)) in
  let once := users (deliver Sample.w0).2 in
  let twice := users (deliver (deliver Sample.w0).2).2 in
  dom twice = dom once
  ∧ ∀ id, (fun u => (User.subscription u, profile u, User.lastActiveAt u))
            <$> twice !! id
          = (fun u => (User.subscription u, profile u, User.lastActiveAt u))
              <$> once !! id.
Proof.
  apply (redelivery_keeps_accounts SampleMore.billing
           (Stripe.invoice_payment_succeeded SampleMore.invoice) Sample.w0).
  intros s. discriminate.
Defined.

(** ** Sessions *)

(** An authentication that misses the cache and finds the account. *)
Lemma authenticateToken_found fb tok decoded stored w :
  truthy tok = true →
  Auth.verifyFirebaseToken fb tok = Some decoded →
  userCache w !! ("user:" +:+ Auth.uid decoded) = None →
  Auth.findByFirebaseUid (Auth.uid decoded) (users w) = Some stored →
  Auth.authenticateToken fb (Some tok) w
  = (Returned (inr (Auth.mkAuthUser (Auth.uid decoded) (Auth.token_email decoded)
                      (User._id stored) stored)),
     set_users (alter (User.setLastActiveAt (clock w (tick w))) (User._id stored)
                      (users w))
       (set_tick (S (tick w))
          (set_userCache (<["user:" +:+ Auth.uid decoded := stored]> (userCache w))
             w))).
Proof.
  intros Ht Hv Hc Hf. unfold Auth.authenticateToken. unfold_monad.
  rewrite Ht, Hv. simpl. by rewrite Hc, Hf.
Qed.

(** X14.  A session is stable as far as the cache and the collection
    allow.  Take a token that has authenticated as an account, and any
    later state in which that account is still stored under its id and
    its identity, identities being unique.  Authenticating with the same
    token again creates no account.  If the cache still holds the entry
    of the first authentication, the token authenticates as before: the
    attached user is the same, parsed from the cache, and the cache is
    left as it is.  If the cache holds no entry for the identity (none
    was stored, or it has expired), the token authenticates as the same
    identity and account id, the attached user is the stored document,
    with whatever has been written to it since, and it is cached. *)
Theorem session_is_stable fb token ru w w2 stored :
  (Auth.authenticateToken fb token w).1 = Returned (inr ru) →
  uniqueUids (users w2) →
  users w2 !! Auth.userId ru = Some stored →
  User._id stored = Auth.userId ru →
  User.firebaseUid stored = Auth.au_uid ru →
  let key := "user:" +:+ Auth.au_uid ru in
  let again := Auth.authenticateToken fb token w2 in
  let fresh := Auth.mkAuthUser (Auth.au_uid ru) (Auth.au_email ru)
                 (Auth.userId ru) stored in
  dom (users again.2) = dom (users w2)
  ∧ (userCache w2 !! key = Some (Auth.dbUser ru) →
     again.1 = Returned (inr ru)
     ∧ Gates.attached w2 ru = Gates.Plain (Auth.dbUser ru)
     ∧ userCache again.2 = userCache w2)
  ∧ (userCache w2 !! key = None →
     again.1 = Returned (inr fresh)
     ∧ Gates.attached w2 fresh = Gates.Document stored
     ∧ userCache again.2 = <[key := stored]> (userCache w2)).
Proof.
  intros H Huniq Hst Hid Huid key again fresh. subst key again fresh.
  destruct (authenticateToken_success _ _ _ _ H)
    as (tok & decoded & -> & Ht & Hv & Hu & He & Hi & _).
  rewrite Hu, He in *.
  assert (Auth.findByFirebaseUid (Auth.uid decoded) (users w2) = Some stored)
    as Hf.
  { rewrite <- Huid. by eapply findByFirebaseUid_unique. }
  split; [|split].
  - destruct (userCache w2 !! ("user:" +:+ Auth.uid decoded)) as [cached|] eqn:Hc.
    + rewrite (authenticateToken_cached _ _ _ _ _ Ht Hv Hc). simpl.
      by rewrite dom_alter_L.
    + rewrite (authenticateToken_found _ _ _ _ _ Ht Hv Hc Hf). simpl.
      by rewrite dom_alter_L.
  - intros Hc. rewrite (authenticateToken_cached _ _ _ _ _ Ht Hv Hc). simpl.
    split; [|split; [|done]].
    + destruct ru; simpl in *; congruence.
    + unfold Gates.attached. by rewrite Hu, Hc.
  - intros Hc. rewrite (authenticateToken_found _ _ _ _ _ Ht Hv Hc Hf). simpl.
    split; [by rewrite Hid|]. split; [|done].
    unfold Gates.attached. simpl. by rewrite Hc.
Qed.

Lemma session_is_stable_witness :
  ∃ ru, (Auth.authenticateToken Sample.firebase (Some "token-alice") Sample.w0).1
        = Returned (inr ru)
        ∧ dom (users (Auth.authenticateToken Sample.firebase (Some "token-alice")
                        Sample.w0).2)
          = dom (users Sample.w0).
Proof.
  exists (Auth.mkAuthUser "fb-alice" "alice@example.com" Sample.aliceId
            Sample.alice).
  split; [reflexivity|].
  apply (session_is_stable Sample.firebase (Some "token-alice")
           (Auth.mkAuthUser "fb-alice" "alice@example.com" Sample.aliceId
              Sample.alice)
           Sample.w0 Sample.w0 Sample.alice).
  - reflexivity.
  - exact sample_uniqueUids.
  - reflexivity.
  - reflexivity.
  - reflexivity.
Defined.

(** ** Gates *)

(** X16.  The premium gate looks at the status only: it passes [active]
    accounts and refuses every other with 403, trials included, and works
    the same on a user taken from the cache.  For a user attached as a
    document it is the stricter of the two gates: whoever passes it
    passes the subscription gate as well.  For a user taken from the
    cache it is not: the subscription gate answers 500 to the very user
    the premium gate passes. *)
Theorem premium_gate_is_stricter d w :
  let u := Gates.fields d in
  (Gates.requirePremium (Some d) w = (Returned (inr tt), w)
   ↔ User.status (User.subscription u) = User.active)
  ∧ (User.status (User.subscription u) ≠ User.active →
     ∃ response, Gates.requirePremium (Some d) w = (Returned (inl response), w)
                 ∧ status response = 403)
  ∧ (Gates.requirePremium (Some d) w = (Returned (inr tt), w) →
     match d with
     | Gates.Document _ =>
         Gates.requireSubscription (Some d) w = (Returned (inr tt), w)
     | Gates.Plain _ =>
         ∃ response,
           Gates.requireSubscription (Some d) w = (Returned (inl response), w)
           ∧ status response = 500
     end).
Proof.
  simpl. unfold Gates.requirePremium, Gates.requireSubscription, Gates.callMethod,
    UserMethods.isSubscriptionActive, tryCatch, bind, ret, throw.
  destruct d as [u|u]; simpl;
    destruct (User.status (User.subscription u)) eqn:Hs; simpl;
    repeat split; try done; eauto.
Qed.

(** ** Device tokens *)

(** With a valid body, the logout route is the handler, run for the
    authenticated account in the world the authentication left. *)
Lemma logout_authenticated fb bearer fcmToken ru w :
  (Auth.authenticateToken fb bearer w).1 = Returned (inr ru) →
  AuthRoutes.logout fb bearer None fcmToken w
  = AuthRoutes.logoutHandler fcmToken ru (Auth.authenticateToken fb bearer w).2.
Proof.
  intros H. unfold AuthRoutes.logout, bind, validate.
  destruct (Auth.authenticateToken fb bearer w) as [o w1]. simpl in H. subst o.
  unfold asyncHandler, tryCatch.
  destruct (logoutHandler_run fcmToken ru w1) as (record & Hrun & _).
  cbn [fst snd]. by rewrite Hrun.
Qed.

(** X20.  Registering a device and logging it out is a round trip on the
    account.  Let the [fcm-token] header register a token that the
    account did not have, and let the account then, whatever happened in
    between that left the accounts alone, call [POST /logout] with that
    token.  Afterwards the account has the device tokens it had before the
    registration, and its identity, e-mail, settings, activation flag and
    subscription sub-record are as before; its [lastActiveAt] is the
    instant of the logout's authentication; every other account is as it
    was. *)
Theorem register_then_logout fb bearer token ru ru' user w w2 :
  truthy token = true →
  users w !! Auth.userId ru = Some user →
  token ∉ User.fcmTokens user →
  users w2 = users (Gates.updateFCMToken (Some token) (Some ru) w).2 →
  (Auth.authenticateToken fb bearer w2).1 = Returned (inr ru') →
  Auth.userId ru' = Auth.userId ru →
  let after := users (AuthRoutes.logout fb bearer None token w2).2 in
  (∀ id, id ≠ Auth.userId ru → after !! id = users w !! id)
  ∧ ∃ user',
      after !! Auth.userId ru = Some user'
      ∧ profile user' = profile user
      ∧ User.subscription user' = User.subscription user
      ∧ User.lastActiveAt user' = clock w2 (tick w2).
Proof.
  intros Ht Hu Hnot Hw2 Hauth Hsame after. subst after.
  rewrite (updateFCMToken_run _ _ _ _ Ht Hu) in Hw2.
  assert (NotificationService.inList token (User.fcmTokens user) = false) as Hin.
  { apply not_true_is_false. by intros ?%inList_spec. }
  rewrite Hin in Hw2. cbn [snd] in Hw2. simpl in Hw2.
  rewrite (logout_authenticated _ _ _ _ _ Hauth).
  destruct (logoutHandler_run token ru' (Auth.authenticateToken fb bearer w2).2)
    as (record & -> & _).
  simpl. rewrite Hsame.
  destruct (authenticateToken_accounts fb bearer w2) as [_ Hpassed].
  simpl in Hpassed.
  destruct (Hpassed ru' Hauth) as [->|[Hnone _]].
  - rewrite Hsame, Hw2. split.
    + intros id Hne. by rewrite !lookup_alter_ne.
    + rewrite !lookup_alter_eq, Hu. simpl. eexists. split; [reflexivity|].
      unfold profile. simpl. rewrite filter_app_fresh by done. by destruct user.
  - rewrite Hsame, Hw2, lookup_alter_eq, Hu in Hnone. done.
Qed.

Lemma register_then_logout_witness :
  let ru := Auth.mkAuthUser "fb-alice" "alice@example.com" Sample.aliceId
              Sample.alice in
  let w2 := (Gates.updateFCMToken (Some "tok-phone") (Some ru) Sample.w0).2 in
  User.fcmTokens
    <$> users (AuthRoutes.logout Sample.firebase (Some "token-alice") None
                 "tok-phone" w2).2 !! Sample.aliceId
  = Some (User.fcmTokens Sample.alice).
Proof.
  cbv zeta.
  destruct (register_then_logout Sample.firebase (Some "token-alice") "tok-phone"
              (Auth.mkAuthUser "fb-alice" "alice@example.com" Sample.aliceId
                 Sample.alice)
              (Auth.mkAuthUser "fb-alice" "alice@example.com" Sample.aliceId
                 (UserMethods.setFcmTokens ["tok-alice"; "tok-phone"] Sample.alice))
              Sample.alice Sample.w0
              (Gates.updateFCMToken (Some "tok-phone")
                 (Some (Auth.mkAuthUser "fb-alice" "alice@example.com"
                          Sample.aliceId Sample.alice)) Sample.w0).2)
    as (_ & user' & Hlook & Hp & _).
  - reflexivity.
  - reflexivity.
  - intros [H|H]%elem_of_cons.
    + discriminate H.
    + by apply elem_of_nil in H.
  - reflexivity.
  - reflexivity.
  - reflexivity.
  - change (Auth.userId _) with Sample.aliceId in Hlook. rewrite Hlook.
    simpl. f_equal. apply (f_equal (fun p => p.1.1.2)) in Hp. exact Hp.
Defined.

(** ** Error answers *)

(** X28.  Outside development [errorHandler] discloses nothing: whatever
    the error it is given, also a validation error or a duplicate, the
    body is [{ success: false, error: { message: "Internal server error" } }];
    the error's own message goes to the log only.  The status is the one
    the error's name maps to: 400 for [ValidationError], [CastError] and
    [MulterError], 401 for [JsonWebTokenError] and [TokenExpiredError],
    409 for a [MongoServerError] with code 11000, and otherwise the
    error's [statusCode], or 500 when it has none.  In particular a
    request body that fails validation is answered 400 with that fixed
    message.  This covers the errors that reach [errorHandler] only: the
    redemption handler answers a failure of [use] itself, with status 400
    and the error's message, outside development too. *)
Theorem production_masks_every_error error userId w :
  isDevelopment w = false →
  let masked := JObj [("success", JBool false);
                      ("error", JObj [("message", JStr "Internal server error")])] in
  (∃ r record,
     errorHandler error userId w = (Returned r, set_logs (logs w ++ [record]) w)
     ∧ body r = masked
     ∧ Log.errorMessage record = Some (message error)
     ∧ Log.level record = "error"
     ∧ (name error = "ValidationError" → status r = 400)
     ∧ (name error = "CastError" → status r = 400)
     ∧ (name error = "MongoServerError" → code error = Some 11000 →
        status r = 409)
     ∧ (name error = "JsonWebTokenError" → status r = 401)
     ∧ (name error = "TokenExpiredError" → status r = 401)
     ∧ (name error = "MulterError" → status r = 400)
     ∧ (name error ∉ ["ValidationError"; "CastError"; "JsonWebTokenError";
                      "TokenExpiredError"; "MulterError"] →
        name error ≠ "MongoServerError" ∨ code error ≠ Some 11000 →
        status r = default 500 (statusCode error)))
  ∧ (∀ details next,
       (validate (Some details) userId next w).1 = Returned (mkResponse 400 masked))
  ∧ (isDevelopment SampleMore.wFlash = false
     ∧ ∃ r, (PromoCodeRoutes.useHandler "flash" Sample.aliceId SampleMore.wFlash).1
            = Returned r
            ∧ status r = 400
            ∧ errorOf r = Some "Promo code has expired").
Proof.
  intros Hdev. cbv zeta. split; [|split].
  - unfold errorHandler, Logger.logError, Logger.log. unfold_monad. simpl.
    rewrite Hdev.
    match goal with
    | |- context [let '(a, b) := ?X in _] => destruct X as [sc msg] eqn:E
    end.
    eexists _, _. split; [reflexivity|]. simpl.
    split; [done|]. split; [done|]. split; [done|].
    repeat match type of E with
    | (if ?b then _ else _) = _ => destruct b eqn:?
    end; simplify_eq.
    all: repeat match goal with
         | H : (_ =? _)%string = true |- _ => apply String.eqb_eq in H
         | H : (_ =? _)%string = false |- _ => apply String.eqb_neq in H
         | H : _ && _ = true |- _ => apply andb_true_iff in H as [? ?]
         | H : bool_decide _ = true |- _ => apply bool_decide_eq_true_1 in H
         | H : _ && _ = false |- _ => apply andb_false_iff in H as [H|H]
         | H : bool_decide _ = false |- _ => eapply bool_decide_eq_false_1 in H
         end.
    all: repeat split; try done; try congruence.
    all: try (intros Hnot; exfalso; rewrite !elem_of_cons in Hnot; apply Hnot;
              solve [auto 10]).
    all: try (intros _ [Hn|Hc]; congruence).
  - intros details next. unfold validate, errorHandler, Logger.logError, Logger.log.
    unfold_monad. simpl. by rewrite Hdev.
  - split; [reflexivity|]. eexists. split; [reflexivity|]. split; reflexivity.
Qed.

Lemma production_masks_every_error_witness :
  (PromoCodeRoutes.apply (Some "code is required") "" Sample.w0).1
  = Returned (mkResponse 400
                (JObj [("success", JBool false);
                       ("error", JObj [("message", JStr "Internal server error")])])).
Proof.
  destruct (production_masks_every_error (AppError "x" 400) None Sample.w0)
    as (_ & H & _).
  - reflexivity.
  - exact (H "code is required" (asyncHandler (PromoCodeRoutes.applyHandler "") None)).
Defined.
